(** * LIER metabolomics workflow: the tabular core of [src/App.tsx]

    A shallow embedding of the four transforms of the annotation workflow
    (table merge, annotation arbiter, dereplication, contaminant filter)
    and the properties the specification states about them.

    - A JavaScript [number] is an IEEE-754 binary64 value: Rocq's primitive
      [float], with [NaN], the infinities and the signed zeros.
    - A [TableRow] is a JavaScript object used as a dictionary: a
      [gmap string cell]; a key that is absent reads as [undefined], which
      is [None] here.
    - Built-ins of the host whose result the ECMAScript standard fixes only
      through long algorithms on UTF-16 text (string trimming, case
      mapping, number parsing and printing) or leaves to the implementation
      ([Math.pow]) are the fields of the class [JSHost]; every definition
      and theorem is parametric in the host. *)

From Stdlib Require Import Floats ZArith Lia Bool.
From Stdlib Require Import Uint63 Ascii String DecimalString.
From stdpp Require Import base option list gmap strings sorting.

Set Default Proof Using "Type".
Set Warnings "-inexact-float,-clear-no-such-hyp".

(** ** Values and coercions *)

(** [string | number | null], the value type of [TableRow] in [src/types.ts]. *)
Inductive cell : Type :=
  | CStr (s : string)
  | CNum (x : float)
  | CNull.

Abbreviation TableRow := (gmap string cell).

Record TableData : Type := mkTable {
  headers : list string;
  rows : list TableRow
}.

(** [x > y], [x < y] and [isNaN x] on numbers. *)
Definition num_gt (x y : float) : bool := PrimFloat.ltb y x.
Definition num_lt (x y : float) : bool := PrimFloat.ltb x y.
Definition isNaN (x : float) : bool := negb (PrimFloat.eqb x x).

(** [x <= y] on numbers. *)
Definition num_le (x y : float) : bool := PrimFloat.leb x y.

(** The outcome of a comparison of two numbers, none when one is [NaN]. *)
Definition cmp_le (c : option comparison) : bool :=
  match c with Some Lt | Some Eq => true | _ => false end.
Definition cmp_lt (c : option comparison) : bool :=
  match c with Some Lt => true | _ => false end.

(** The length of an array, as a number. *)
Definition num_of_nat (n : nat) : float :=
  PrimFloat.of_uint63 (Uint63.of_Z (Z.of_nat n)).

Class JSHost : Type := {
  (** [Number(s)] on a string. *)
  StringToNumber : string -> float;
  (** [String(x)] on a number. *)
  NumberToString : float -> string;
  parseFloat : string -> float;
  parseInt : string -> float;
  (** [s.trim()], [s.toLowerCase()], [s.toUpperCase()]. *)
  trim : string -> string;
  toLowerCase : string -> string;
  toUpperCase : string -> string;
  (** [Math.pow(x, y)]. *)
  Math_pow : float -> float -> float;
  (** [x.toFixed(3)]. *)
  toFixed3 : float -> string
}.

Section Coercions.
Context `{JSHost}.

(** [Number(v)]: [undefined] is [NaN], [null] is [0]. *)
Definition Number (v : option cell) : float :=
  match v with
  | None => nan
  | Some CNull => 0%float
  | Some (CNum x) => x
  | Some (CStr s) => StringToNumber s
  end.

(** [String(v)]. *)
Definition String_ (v : option cell) : string :=
  match v with
  | None => "undefined"
  | Some CNull => "null"
  | Some (CNum x) => NumberToString x
  | Some (CStr s) => s
  end.

(** Truthiness of a value: [undefined], [null], the empty string, [0], [-0] and
    [NaN] are falsy. *)
Definition truthy (v : option cell) : bool :=
  match v with
  | None | Some CNull => false
  | Some (CStr s) => negb (String.eqb s EmptyString)
  | Some (CNum x) => negb (PrimFloat.eqb x 0 || isNaN x)
  end.

(** [v || ''], the argument of [String] in the arbiter. *)
Definition or_empty (v : option cell) : option cell :=
  if truthy v then v else Some (CStr EmptyString).

(** [v != null]: neither [null] nor [undefined]. *)
Definition not_nullish (v : option cell) : bool :=
  match v with
  | None | Some CNull => false
  | Some _ => true
  end.

(** [v ?? null]. *)
Definition or_null (v : option cell) : cell :=
  match v with
  | None => CNull
  | Some c => c
  end.

(** [a === b] on values. *)
Definition strict_eq (a b : option cell) : bool :=
  match a, b with
  | None, None => true
  | Some CNull, Some CNull => true
  | Some (CStr s), Some (CStr t) => String.eqb s t
  | Some (CNum x), Some (CNum y) => PrimFloat.eqb x y
  | _, _ => false
  end.

(** A non-empty string is truthy. *)
Definition nonempty (s : string) : bool := negb (String.eqb s EmptyString).
End Coercions.

(** ** The annotation arbiter: [determineFinalAnnotation] *)

Section Arbiter.
Context `{JSHost}.

Definition compoundName_of (row : TableRow) : string :=
  trim (String_ (or_empty (row !! "Compound_Name"))).
Definition siriusName_of (row : TableRow) : string :=
  trim (String_ (or_empty (row !! "name"))).

Definition isFbmnStrong (row : TableRow) : bool :=
  let mqScore := parseFloat (String_ (row !! "MQScore")) in
  let libQuality := String_ (or_empty (row !! "LibraryQualityString")) in
  let sharedPeaks := parseInt (String_ (row !! "SharedPeaks")) in
  let mzError := parseFloat (String_ (row !! "MZErrorPPM")) in
  negb (isNaN mqScore) && negb (isNaN sharedPeaks) && negb (isNaN mzError) &&
  num_gt mqScore 0.9 &&
  String.eqb libQuality "Gold" &&
  num_gt sharedPeaks 10 &&
  num_lt (PrimFloat.abs mzError) 5.

Definition isSiriusStrong (row : TableRow) : bool :=
  let confidence := parseFloat (String_ (row !! "ConfidenceScoreExact")) in
  negb (isNaN confidence) && num_gt confidence 0.8.

Definition determineFinalAnnotation (row : TableRow) : string :=
  let compoundName := compoundName_of row in
  let siriusName := siriusName_of row in
  if negb (nonempty compoundName) && negb (nonempty siriusName) then EmptyString
  else if nonempty compoundName && negb (nonempty siriusName) then compoundName
  else if negb (nonempty compoundName) && nonempty siriusName then siriusName
  else if String.eqb (toLowerCase compoundName) (toLowerCase siriusName)
  then compoundName
  else if isFbmnStrong row && isSiriusStrong row then siriusName
  else if isFbmnStrong row then compoundName
  else if isSiriusStrong row then siriusName
  else compoundName.
End Arbiter.

(** ** Errors and results

    A handler either throws (the [catch] block reports the message and the
    tables are left as they were) or completes with a value. *)

Inductive error : Type :=
  | MissingColumns (cols : list string)
  | BaseDataLost
  | NoDataToProcess
  | NoFilterList
  | NoBioColumns
  | NoQcColumns
  | NoIdColumn.

Inductive result (A : Type) : Type :=
  | Ok (a : A)
  | Throw (e : error).
Arguments Ok {A} a.
Arguments Throw {A} e.

Definition result_map {A B : Type} (f : A -> B) (r : result A) : result B :=
  match r with
  | Ok a => Ok (f a)
  | Throw e => Throw e
  end.

(** [l.includes(s)]. *)
Definition includes (l : list string) (s : string) : bool :=
  bool_decide (s ∈ l).

(** [[...new Set(l)]]: the elements of [l] in order of first occurrence. *)
Fixpoint uniq_from (seen : gset string) (l : list string) : list string :=
  match l with
  | [] => []
  | x :: l' =>
      if bool_decide (x ∈ seen) then uniq_from seen l'
      else x :: uniq_from ({[x]} ∪ seen) l'
  end.
Definition uniq (l : list string) : list string := uniq_from ∅ l.

(** [new Map(entries)]: entries are set in order, a later entry replaces an
    earlier one with the same key. *)
Definition Map_of {V : Type} (entries : list (string * V)) : gmap string V :=
  fold_left (fun m kv => <[kv.1 := kv.2]> m) entries ∅.

(** [new Set(l)] on strings. *)
Definition Set_of (l : list string) : gset string := list_to_set l.

(** ** The table merge: the matching steps of [handleFileProcess] *)

(** The fields of [ProcessingStep] that the merge reads. *)
Record ProcessingStep : Type := mkStep {
  requiredColumns : list string;
  matchColumn : string;
  matchColumnBase : option string;
  appendColumns : list string
}.

Definition step_fbmn : ProcessingStep :=
  mkStep ["ID"] "ID" None
    ["Compound_Name"; "NAME (中文翻译)"; "Adduct"; "LibraryQualityString";
     "MQScore"; "MZErrorPPM"; "SharedPeaks"].
Definition step_sirius : ProcessingStep :=
  mkStep ["ID"] "ID" None
    ["name"; "molecularFormula"; "ConfidenceScoreExact"; "smiles";
     "ConfidenceScoreApproximate"; "InChIkey2D"].
Definition step_supplementary : ProcessingStep :=
  mkStep ["ionMass"] "ionMass" (Some "MZ")
    ["molecularFormula"; "NPC#superclass"; "ClassyFire#superclass";
     "ClassyFire#class"; "InChI"].

Section Merge.
Context `{JSHost}.

(** [newRowData]: [appendColumns.forEach(col => newRowData[col] = match[col] ?? null)]. *)
Definition newRowData (appendCols : list string) (matched : TableRow) : TableRow :=
  fold_left (fun acc col => <[col := or_null (matched !! col)]> acc) appendCols ∅.

(** [{ ...baseRow, ...newRowData }]: the properties of the second object
    replace those of the first. *)
Definition spread (baseRow extra : TableRow) : TableRow := extra ∪ baseRow.

(** *** Exact-key merge ([matchColumn === 'ID']) *)

Definition has_id_key (row : TableRow) : bool :=
  not_nullish (row !! "ID") && nonempty (trim (String_ (row !! "ID"))).

Definition id_key (row : TableRow) : string := trim (String_ (row !! "ID")).

Definition id_matchMap (incoming : list TableRow) : gmap string TableRow :=
  Map_of (map (fun row => (id_key row, row)) (List.filter has_id_key incoming)).

Definition merge_id_row (appendCols : list string)
    (matchMap : gmap string TableRow) (baseRow : TableRow) : TableRow :=
  let baseId := baseRow !! "ID" in
  if negb (not_nullish baseId) || String.eqb (trim (String_ baseId)) EmptyString then baseRow
  else match matchMap !! trim (String_ baseId) with
       | Some matched => spread baseRow (newRowData appendCols matched)
       | None => baseRow
       end.

Definition baseIdSet (netRows : list TableRow) : gset string :=
  Set_of (List.filter nonempty (map id_key netRows)).

Definition uniqueUploadedIds (incoming : list TableRow) : list string :=
  uniq (map (fun id => trim (String_ id))
          (List.filter (fun id => not_nullish id && nonempty (trim (String_ id)))
             (map (fun row : TableRow => row !! "ID") incoming))).

Definition id_unmatched (netRows incoming : list TableRow) : list cell :=
  map CStr
    (List.filter (fun id => negb (bool_decide (id ∈ baseIdSet netRows)))
       (uniqueUploadedIds incoming)).

(** *** Tolerance merge ([matchColumn === 'ionMass']) *)

Definition has_mass_key (row : TableRow) : bool :=
  not_nullish (row !! "ionMass") && negb (isNaN (Number (row !! "ionMass"))).

Definition mass_matchMap (incoming : list TableRow) : gmap string TableRow :=
  Map_of (map (fun row => (toFixed3 (Number (row !! "ionMass")), row))
            (List.filter has_mass_key incoming)).

(** [netTable.rows[index]?.[baseMzKey]]. *)
Definition mzToMatch (netRows : list TableRow) (baseMzKey : string) (index : nat)
    : option cell :=
  match netRows !! index with
  | Some originalNetTableRow => originalNetTableRow !! baseMzKey
  | None => None
  end.

Definition merge_mass_row (appendCols : list string) (netRows : list TableRow)
    (baseMzKey : string) (matchMap : gmap string TableRow)
    (index : nat) (baseRow : TableRow) : TableRow :=
  let mz := mzToMatch netRows baseMzKey index in
  if negb (not_nullish mz) || String.eqb (trim (String_ mz)) EmptyString || isNaN (Number mz)
  then baseRow
  else match matchMap !! toFixed3 (Number mz) with
       | Some matched => spread baseRow (newRowData appendCols matched)
       | None => baseRow
       end.

Definition baseMzSet (netRows : list TableRow) (baseMzKey : string) : gset string :=
  Set_of (omap (fun row : TableRow =>
                  let mz := row !! baseMzKey in
                  if not_nullish mz && negb (isNaN (Number mz))
                  then Some (toFixed3 (Number mz)) else None) netRows).

Definition mass_unmatched (netRows incoming : list TableRow) (baseMzKey : string)
    : list cell :=
  omap id
    (List.filter (fun mass => not_nullish mass && negb (isNaN (Number mass)) &&
                    negb (bool_decide (toFixed3 (Number mass) ∈ baseMzSet netRows baseMzKey)))
       (map (fun row : TableRow => row !! "ionMass") incoming)).

(** *** The matching branch of [handleFileProcess]

    [mergedData] is the table built so far, [netTable] the base table as
    first loaded, [data] the parsed upload. The value is the new
    [mergedData] with [foundUnmatched]. *)
Definition handleFileProcess (stepConfig : ProcessingStep)
    (mergedData netTable : option TableData) (data : TableData)
    : result (TableData * list cell) :=
  match mergedData, netTable with
  | Some mergedData, Some netTable =>
      let missingCols :=
        List.filter (fun col => negb (includes (headers data) col))
          (requiredColumns stepConfig) in
      if negb (Nat.eqb (length missingCols) 0) then Throw (MissingColumns missingCols)
      else
        let appendCols :=
          List.filter (fun col => negb (includes (headers mergedData) col))
            (appendColumns stepConfig) in
        let newHeaders := headers mergedData ++ appendCols in
        let '(newMergedRows, foundUnmatched) :=
          if String.eqb (matchColumn stepConfig) "ID" then
            (map (merge_id_row (appendColumns stepConfig) (id_matchMap (rows data)))
               (rows mergedData),
             id_unmatched (rows netTable) (rows data))
          else
            match matchColumnBase stepConfig with
            | Some baseMzKey =>
                if String.eqb (matchColumn stepConfig) "ionMass" && nonempty baseMzKey then
                  (imap (merge_mass_row (appendColumns stepConfig) (rows netTable)
                           baseMzKey (mass_matchMap (rows data)))
                     (rows mergedData),
                   mass_unmatched (rows netTable) (rows data) baseMzKey)
                else ([], [])
            | None => ([], [])
            end in
        Ok (mkTable newHeaders newMergedRows, foundUnmatched)
  | _, _ => Throw BaseDataLost
  end.
End Merge.

(** ** The contaminant filter: [handleApplyFilter] *)

Section Filter.
Context `{JSHost}.

(** The callback of [filterToolData.rows.filter]. *)
Definition filter_keep (contaminantList : gset string) (row : TableRow) : bool :=
  let annotationValue := row !! "Final_Annotation" in
  if negb (not_nullish annotationValue) then true
  else
    let annotation := trim (String_ annotationValue) in
    if String.eqb annotation EmptyString then true
    else negb (bool_decide (annotation ∈ contaminantList)).

Definition handleApplyFilter (filterToolData : option TableData)
    (contaminantList : option (gset string)) : result TableData :=
  match filterToolData with
  | None => Throw NoDataToProcess
  | Some filterToolData =>
      match contaminantList with
      | None => Throw NoFilterList
      | Some contaminantList =>
          if Nat.eqb (size contaminantList) 0 then Throw NoFilterList
          else Ok (mkTable (headers filterToolData)
                     (List.filter (filter_keep contaminantList) (rows filterToolData)))
      end
  end.

(** The exclusion set read from a file in [handleContaminantFileProcess]. *)
Definition contaminant_names (data : TableData) : gset string :=
  Set_of (List.filter nonempty
            (map (fun row : TableRow => trim (String_ (row !! "name"))) (rows data))).
End Filter.

(** ** Dereplication: [handleDereplication] *)

(** The four values of [_derep_status]. *)
Definition Retained : string := "保留".
Definition Removed : string := "删除".
Definition ExcludedHighMissing : string := "因缺失率过高而剔除".
Definition ExcludedUnstableQC : string := "因QC不稳定而剔除".

(** The fields the engine adds to a row object. *)
Definition f_status : string := "_derep_status".
Definition f_qc_rsd : string := "_qc_rsd".
Definition f_avg_intensity : string := "_avg_intensity".

(** [s.startsWith(p)]. *)
Definition startsWith (s p : string) : bool := String.prefix p s.

(** [l.reduce((a, b) => a + b, 0)]. *)
Definition sum (l : list float) : float := fold_left PrimFloat.add l 0%float.

(** [-0] and [+0], which [Math.min] tells apart. *)
Definition is_neg_zero (x : float) : bool :=
  match PrimFloat.classify x with NZero => true | _ => false end.
Definition is_pos_zero (x : float) : bool :=
  match PrimFloat.classify x with PZero => true | _ => false end.

(** [Math.min(...l)]: [NaN] if any argument is [NaN], [+Infinity] on no
    argument, and [-0] below [+0]. *)
Definition min_step (lowest number : float) : float :=
  if is_neg_zero number && is_pos_zero lowest then number
  else if num_lt number lowest then number
  else lowest.
Definition Math_min (l : list float) : float :=
  if existsb isNaN l then nan else fold_left min_step l infinity.

(** [Map.prototype.get] compares keys with SameValueZero: as [===], but
    [NaN] is equal to itself. *)
Definition same_value_zero (a b : option cell) : bool :=
  match a, b with
  | None, None => true
  | Some CNull, Some CNull => true
  | Some (CStr s), Some (CStr t) => String.eqb s t
  | Some (CNum x), Some (CNum y) => PrimFloat.eqb x y || (isNaN x && isNaN y)
  | _, _ => false
  end.

(** [new Map(entries).get(key)] for entries keyed by values: the value of
    the last entry whose key is the same. *)
Definition Map_get {V : Type} (entries : list (option cell * V)) (key : option cell)
    : option V :=
  fold_left (fun found kv => if same_value_zero kv.1 key then Some kv.2 else found)
    entries None.

(** The comparator of the final sort, [(ia ?? Infinity) - (ib ?? Infinity)],
    is positive exactly here. An index is an array index, below [2^32], so
    the difference of two indices is exact and has the sign of their
    comparison; [Infinity - Infinity] is [NaN], which [sort] reads as [0]. *)
Definition order_gt (ia ib : option nat) : bool :=
  match ia, ib with
  | Some i, Some j => Nat.ltb j i
  | Some _, None => false
  | None, Some _ => true
  | None, None => false
  end.

(** [Array.prototype.sort] is stable, and the comparator above is
    consistent, so the sorted array is the stable sort by the key. *)
Fixpoint insert_by {A : Type} (key : A -> option nat) (x : A) (l : list A) : list A :=
  match l with
  | [] => [x]
  | y :: l' => if order_gt (key x) (key y) then y :: insert_by key x l' else x :: l
  end.
Fixpoint sort_by {A : Type} (key : A -> option nat) (l : list A) : list A :=
  match l with
  | [] => []
  | x :: l' => insert_by key x (sort_by key l')
  end.

Section Dereplication.
Context `{JSHost}.

Definition is_bioCol (h : string) : bool :=
  startsWith (toUpperCase h) "CON_" || startsWith (toUpperCase h) "HBO_".
Definition is_qcCol (h : string) : bool :=
  startsWith (toUpperCase h) "QC-".

(** *** Grouping by annotation *)

(** [if (!groups.has(key)) groups.set(key, []); groups.get(key).push(row)]
    on a [Map] whose iteration order is the order of first insertion. *)
Fixpoint group_push (key : string) (row : TableRow)
    (groups : list (string * list TableRow)) : list (string * list TableRow) :=
  match groups with
  | [] => [(key, [row])]
  | (k, g) :: rest =>
      if String.eqb k key then (k, g ++ [row]) :: rest
      else (k, g) :: group_push key row rest
  end.

Definition has_annotation (row : TableRow) : bool :=
  truthy (row !! "Final_Annotation") &&
  nonempty (trim (String_ (row !! "Final_Annotation"))).

Definition group_step (st : list (string * list TableRow) * list TableRow)
    (row : TableRow) : list (string * list TableRow) * list TableRow :=
  let '(groups, unknowns) := st in
  if has_annotation row
  then (group_push (trim (String_ (row !! "Final_Annotation"))) row groups, unknowns)
  else (groups, unknowns ++ [row]).

Definition group_rows (rows : list TableRow)
    : list (string * list TableRow) * list TableRow :=
  fold_left group_step rows ([], []).

(** *** Stage 1: missing rate and QC stability *)

Definition bioValues (bioCols : list string) (row : TableRow) : list float :=
  List.filter (fun v => negb (isNaN v)) (map (fun col => Number (row !! col)) bioCols).

Definition missingRate (bioCols : list string) (row : TableRow) : float :=
  let missingCount :=
    (num_of_nat (length bioCols) -
     num_of_nat (length (List.filter (fun v => num_gt v 0) (bioValues bioCols row))))%float in
  (missingCount / num_of_nat (length bioCols) * 100)%float.

Definition qcValues (qcCols : list string) (row : TableRow) : list float :=
  List.filter (fun v => negb (isNaN v) && num_gt v 0)
    (map (fun col => Number (row !! col)) qcCols).

Definition mean (l : list float) : float :=
  (sum l / num_of_nat (length l))%float.

Definition stdDev (l : list float) : float :=
  PrimFloat.sqrt
    (sum (map (fun x => Math_pow (x - mean l)%float 2) l) /
     (num_of_nat (length l) - 1))%float.

Definition rsd_of (l : list float) : float :=
  (stdDev l / mean l * 100)%float.

(** The callback of [groupRows.map] that builds the candidates. *)
Definition candidate_of (bioCols qcCols : list string) (row : TableRow) : TableRow :=
  if num_gt (missingRate bioCols row) 50
  then <[f_status := CStr ExcludedHighMissing]> row
  else
    let qc := qcValues qcCols row in
    if Nat.ltb (length qc) 2 then <[f_qc_rsd := CNum 0]> row
    else if PrimFloat.eqb (mean qc) 0 then <[f_status := CStr ExcludedUnstableQC]> row
    else if num_gt (rsd_of qc) 30 then <[f_status := CStr ExcludedUnstableQC]> row
    else <[f_qc_rsd := CNum (rsd_of qc)]> row.

(** ['_derep_status' in row]. *)
Definition has_status (row : TableRow) : bool :=
  bool_decide (is_Some (row !! f_status)).

Definition candidates_of (bioCols qcCols : list string) (groupRows : list TableRow)
    : list TableRow :=
  List.filter (fun row => negb (has_status row))
    (map (candidate_of bioCols qcCols) groupRows).

(** *** Stage 2: the winner *)

Definition avgIntensity (bioCols : list string) (row : TableRow) : float :=
  let positive :=
    List.filter (fun v => negb (isNaN v) && num_gt v 0)
      (map (fun col => Number (row !! col)) bioCols) in
  if Nat.ltb 0 (length positive) then (sum positive / num_of_nat (length positive))%float
  else 0%float.

(** [row._avg_intensity = ...] in [candidates.forEach]. *)
Definition with_avg (bioCols : list string) (row : TableRow) : TableRow :=
  <[f_avg_intensity := CNum (avgIntensity bioCols row)]> row.

(** [r._qc_rsd] and [r._avg_intensity || 0], read as numbers. *)
Definition qc_rsd (r : TableRow) : float := Number (r !! f_qc_rsd).
Definition avg_or_zero (r : TableRow) : float :=
  if truthy (r !! f_avg_intensity) then Number (r !! f_avg_intensity) else 0%float.

Definition finalCandidates_of (candidates : list TableRow) : list TableRow :=
  let min_rsd := Math_min (map qc_rsd candidates) in
  List.filter (fun r => num_lt (qc_rsd r) (min_rsd + 2)%float) candidates.

(** [finalCandidates.reduce((max, row) => avg(row) > avg(max) ? row : max, first)]. *)
Definition max_intensity (first : TableRow) (finalCandidates : list TableRow) : TableRow :=
  fold_left (fun max row => if num_gt (avg_or_zero row) (avg_or_zero max) then row else max)
    finalCandidates first.

Definition select_winner (bioCols : list string) (candidates : list TableRow)
    : option TableRow :=
  match candidates with
  | [] => None
  | [c] => Some c
  | _ =>
      let candidates := map (with_avg bioCols) candidates in
      match finalCandidates_of candidates with
      | [] => None
      | first :: _ as finalCandidates => Some (max_intensity first finalCandidates)
      end
  end.

(** *** Marking the rows of a group *)

Definition mark (winner : option TableRow) (row : TableRow) : TableRow :=
  match winner with
  | Some w =>
      if strict_eq (row !! "ID") (w !! "ID") then <[f_status := CStr Retained]> row
      else <[f_status := CStr Removed]> row
  | None => <[f_status := CStr Removed]> row
  end.

(** The callback of [groups.forEach]: the rows it pushes on [processedRows]. *)
Definition process_group (bioCols qcCols : list string) (groupRows : list TableRow)
    : list TableRow :=
  if Nat.leb (length groupRows) 1
  then [<[f_status := CStr Retained]> (default ∅ (head groupRows))]
  else
    let winner := select_winner bioCols (candidates_of bioCols qcCols groupRows) in
    map (mark winner) groupRows.

(** *** Reassembly *)

(** [delete row._qc_rsd; delete row._avg_intensity]. *)
Definition drop_metrics (row : TableRow) : TableRow :=
  delete f_avg_intensity (delete f_qc_rsd row).

(** [new Map(rows.map((row, index) => [row.ID, index]))]. *)
Definition rowOrderMap (rows : list TableRow) : list (option cell * nat) :=
  imap (fun index (row : TableRow) => (row !! "ID", index)) rows.

Definition order_key (rows : list TableRow) (row : TableRow) : option nat :=
  Map_get (rowOrderMap rows) (row !! "ID").

Definition finalRows_of (bioCols qcCols : list string) (rows : list TableRow)
    : list TableRow :=
  let '(groups, unknowns) := group_rows rows in
  let processedRows := flat_map (fun g => process_group bioCols qcCols g.2) groups in
  let finalRows :=
    processedRows ++ map (fun row => <[f_status := CStr Retained]> row) unknowns in
  sort_by (order_key rows) (map drop_metrics finalRows).

Definition handleDereplication (dereplicationData : option TableData)
    : result TableData :=
  match dereplicationData with
  | None => Throw NoDataToProcess
  | Some dereplicationData =>
      let bioCols := List.filter is_bioCol (headers dereplicationData) in
      let qcCols := List.filter is_qcCol (headers dereplicationData) in
      if Nat.eqb (length bioCols) 0 then Throw NoBioColumns
      else if Nat.eqb (length qcCols) 0 then Throw NoQcColumns
      else if negb (includes (headers dereplicationData) "ID") then Throw NoIdColumn
      else Ok (mkTable (headers dereplicationData)
                 (finalRows_of bioCols qcCols (rows dereplicationData)))
  end.

(** *** Export of the result: [handleDownloadDereplicationResult] *)

Definition is_retained (r : TableRow) : bool :=
  strict_eq (r !! f_status) (Some (CStr Retained)).

Definition dataToDownload (dereplicationData : TableData) : TableData :=
  mkTable (headers dereplicationData)
    (map (fun r => delete f_status r)
       (List.filter is_retained (rows dereplicationData))).

(** [exportFile]: the header line, then each row read at the headers. *)
Definition dataToExport (tableData : TableData) : list string * list (list (option cell)) :=
  (headers tableData,
   map (fun row : TableRow => map (fun header => row !! header) (headers tableData))
     (rows tableData)).
End Dereplication.

(** ** A host for running the model

    An instance of [JSHost] on 7-bit text, used to evaluate the handlers on
    concrete tables. Numbers are converted exactly: a decimal literal is
    rounded to the nearest number through [SFdiv] on integers of any size,
    and a number is printed with the fewest digits that read back as the
    same number, as ECMAScript asks. The host departs from ECMAScript on
    text outside ASCII (white space and letters beyond it are left alone)
    and on the literals it does not read: hexadecimal, octal and binary
    ones. [Math_pow] is the product on the exponent [2], the only exponent
    the workflow uses, which is exact whenever the square is a number. *)

Module AsciiHost.

Definition is_space (c : ascii) : bool :=
  let n := nat_of_ascii c in
  ((9 <=? n)%nat && (n <=? 13)%nat) || (n =? 32)%nat.

Fixpoint trim_left (s : string) : string :=
  match s with
  | String c s' => if is_space c then trim_left s' else s
  | EmptyString => EmptyString
  end.

Fixpoint trim_right (s : string) : string :=
  match s with
  | String c s' =>
      match trim_right s' with
      | EmptyString => if is_space c then EmptyString else String c EmptyString
      | t => String c t
      end
  | EmptyString => EmptyString
  end.

Definition trim (s : string) : string := trim_right (trim_left s).

Definition lower (c : ascii) : ascii :=
  let n := nat_of_ascii c in
  if (65 <=? n)%nat && (n <=? 90)%nat then ascii_of_nat (n + 32) else c.
Definition upper (c : ascii) : ascii :=
  let n := nat_of_ascii c in
  if (97 <=? n)%nat && (n <=? 122)%nat then ascii_of_nat (n - 32) else c.

Fixpoint map_string (f : ascii -> ascii) (s : string) : string :=
  match s with
  | String c s' => String (f c) (map_string f s')
  | EmptyString => EmptyString
  end.

(** *** From text to numbers *)

(** The number nearest to [digits * 10^exp10], with the sign [neg]. The
    decimal exponent is cut where every literal is already infinite or
    zero. *)
Definition num_of_decimal (neg : bool) (digits exp10 : Z) : float :=
  let exp10 := Z.max (-1200) (Z.min 400 exp10) in
  let magnitude :=
    match digits with
    | Z.pos d =>
        if (0 <=? exp10)%Z
        then binary_normalize prec emax (Z.pos d * 10 ^ exp10) 0 false
        else SFdiv prec emax (S754_finite false d 0)
               (S754_finite false (Z.to_pos (10 ^ (- exp10))) 0)
    | _ => S754_zero false
    end in
  SF2Prim (if neg then SFopp magnitude else magnitude).

Definition digit_of (c : ascii) : option Z :=
  let n := Z.of_nat (nat_of_ascii c) in
  if (48 <=? n)%Z && (n <=? 57)%Z then Some (n - 48)%Z else None.

(** Reads a run of digits: their value, their count and the rest. *)
Fixpoint read_digits (s : string) (acc : Z) (count : nat) : Z * nat * string :=
  match s with
  | String c s' =>
      match digit_of c with
      | Some d => read_digits s' (acc * 10 + d)%Z (S count)
      | None => (acc, count, s)
      end
  | EmptyString => (acc, count, s)
  end.

Definition read_sign (s : string) : bool * string :=
  match s with
  | String "-" s' => (true, s')
  | String "+" s' => (false, s')
  | _ => (false, s)
  end.

(** An exponent part, [e] or [E] with an optional sign and digits. *)
Definition read_exponent (s : string) : Z * string :=
  match s with
  | String c s1 =>
      if Ascii.eqb c "e" || Ascii.eqb c "E" then
        let '(neg, s2) := read_sign s1 in
        let '(v, n, s3) := read_digits s2 0%Z 0 in
        if (n =? 0)%nat then (0%Z, s) else (if neg then (- v)%Z else v, s3)
      else (0%Z, s)
  | EmptyString => (0%Z, s)
  end.

(** The longest decimal literal at the head of [s], with its value and the
    rest of [s]; none when [s] starts with no literal. *)
Definition read_decimal (s : string) : option (float * string) :=
  let '(neg, s1) := read_sign s in
  if String.prefix "Infinity" s1
  then Some (if neg then neg_infinity else infinity,
             String.substring 8 (String.length s1 - 8) s1)
  else
    let '(int_part, n_int, s2) := read_digits s1 0%Z 0 in
    let '(all, n_frac, s3) :=
      match s2 with
      | String "." s2' =>
          let '(v, n, rest) := read_digits s2' int_part 0 in
          if (n_int =? 0)%nat && (n =? 0)%nat then (int_part, 0, s2) else (v, n, rest)
      | _ => (int_part, 0, s2)
      end in
    if (n_int + n_frac =? 0)%nat then None
    else
      let '(e, s4) := read_exponent s3 in
      Some (num_of_decimal neg all (e - Z.of_nat n_frac), s4).

Definition parseFloat (s : string) : float :=
  match read_decimal (trim_left s) with
  | Some (x, _) => x
  | None => nan
  end.

(** [parseInt] with the default radix, on decimal digits. *)
Definition parseInt (s : string) : float :=
  let '(neg, s1) := read_sign (trim_left s) in
  let '(v, n, _) := read_digits s1 0%Z 0 in
  if (n =? 0)%nat then nan else num_of_decimal neg v 0.

Definition StringToNumber (s : string) : float :=
  match trim s with
  | EmptyString => 0%float
  | t =>
      match read_decimal t with
      | Some (x, EmptyString) => x
      | _ => nan
      end
  end.

(** *** From numbers to text *)

Definition string_of_Z (z : Z) : string :=
  NilZero.string_of_uint (N.to_uint (Z.to_N z)).

Fixpoint zeros (n : nat) : string :=
  match n with
  | O => EmptyString
  | S n' => String "0" (zeros n')
  end.

(** The positive rational [m * 2^e] as a fraction. *)
Definition fraction_of (m : positive) (e : Z) : Z * Z :=
  if (0 <=? e)%Z then (Z.pos m * 2 ^ e, 1)%Z else (Z.pos m, 2 ^ (- e))%Z.

(** [num / den < 10^n]. *)
Definition below_pow10 (num den n : Z) : bool :=
  if (0 <=? n)%Z then (num <? den * 10 ^ n)%Z else (num * 10 ^ (- n) <? den)%Z.

(** The least [n] from [start] on with [num / den < 10^n]. *)
Fixpoint decimal_exponent (fuel : nat) (num den start : Z) : Z :=
  match fuel with
  | O => start
  | S fuel' =>
      if below_pow10 num den start then start
      else decimal_exponent fuel' num den (start + 1)
  end.

(** The digits [s] (as an integer of [k] digits) and the exponent [n] with
    which ECMAScript prints the number [x = num / den]: the least [k] from
    [k] on for which some [s * 10^(n-k)] reads back as [x], and then the [s]
    nearest to [x], the even one on a tie. *)
Fixpoint shortest_digits (fuel : nat) (x : float) (num den n k : Z) : Z * Z * Z :=
  let scale_num := if (n <=? k)%Z then (num * 10 ^ (k - n))%Z else num in
  let scale_den := if (n <=? k)%Z then den else (den * 10 ^ (n - k))%Z in
  let s_lo := (scale_num / scale_den)%Z in
  let s_hi := (s_lo + 1)%Z in
  let reads_back (s : Z) := PrimFloat.eqb (num_of_decimal false s (n - k)) x in
  let twice_rest := (2 * (scale_num mod scale_den))%Z in
  let lo_nearer :=
    (twice_rest <? scale_den)%Z || ((twice_rest =? scale_den)%Z && Z.even s_lo) in
  let up := if (s_hi =? 10 ^ k)%Z then (10 ^ (k - 1), n + 1, k)%Z else (s_hi, n, k) in
  match fuel with
  | O => (s_lo, n, k)
  | S fuel' =>
      match reads_back s_lo, reads_back s_hi with
      | true, true => if lo_nearer then (s_lo, n, k) else up
      | true, false => (s_lo, n, k)
      | false, true => up
      | false, false => shortest_digits fuel' x num den n (k + 1)
      end
  end.

(** The text of the digits [s] of a number with the exponent [n]. *)
Definition layout (s n k : Z) : string :=
  let digits := string_of_Z s in
  if (k <=? n)%Z && (n <=? 21)%Z then digits +:+ zeros (Z.to_nat (n - k))
  else if (0 <? n)%Z && (n <=? 21)%Z then
    String.substring 0 (Z.to_nat n) digits +:+ "." +:+
    String.substring (Z.to_nat n) (Z.to_nat (k - n)) digits
  else if (-6 <? n)%Z && (n <=? 0)%Z then "0." +:+ zeros (Z.to_nat (- n)) +:+ digits
  else
    let exponent :=
      (if (0 <=? n - 1)%Z then "+" else "-") +:+ string_of_Z (Z.abs (n - 1)) in
    if (k =? 1)%Z then digits +:+ "e" +:+ exponent
    else String.substring 0 1 digits +:+ "." +:+
         String.substring 1 (Z.to_nat (k - 1)) digits +:+ "e" +:+ exponent.

Definition NumberToString (x : float) : string :=
  match Prim2SF x with
  | S754_nan => "NaN"
  | S754_infinity s => if s then "-Infinity" else "Infinity"
  | S754_zero _ => "0"
  | S754_finite s m e =>
      let '(num, den) := fraction_of m e in
      let n := decimal_exponent 700 num den (-330) in
      let '(digits, n, k) := shortest_digits 17 (PrimFloat.abs x) num den n 1 in
      (if s then "-" else EmptyString) +:+ layout digits n k
  end.

(** The decimal digits of [n] with a point before the last three. *)
Definition fixed3_digits (n : Z) : string :=
  let int_part := (n / 1000)%Z in
  let frac := (n mod 1000)%Z in
  let pad :=
    if (frac <? 10)%Z then "00" else if (frac <? 100)%Z then "0" else EmptyString in
  string_of_Z int_part +:+ "." +:+ pad +:+ string_of_Z frac.

(** [x.toFixed(3)]: the integer nearest to [1000 * x], the larger one on a
    tie, with the point before its last three digits; from [10^21] on, the
    text of the number. *)
Definition toFixed3 (x : float) : string :=
  match Prim2SF x with
  | S754_nan => "NaN"
  | S754_infinity s => if s then "-Infinity" else "Infinity"
  | S754_zero _ => "0.000"
  | S754_finite s m e =>
      let '(num, den) := fraction_of m e in
      if negb (below_pow10 num den 21) then NumberToString x
      else
        let n := ((2 * 1000 * num + den) / (2 * den))%Z in
        (if s then "-" else EmptyString) +:+ fixed3_digits n
  end.

Definition Math_pow (x y : float) : float :=
  if PrimFloat.eqb y 2 then (x * x)%float
  else if PrimFloat.eqb y 1 then x
  else if PrimFloat.eqb y 0 then 1%float
  else nan.

End AsciiHost.

#[export] Instance ascii_host : JSHost := {|
  StringToNumber := AsciiHost.StringToNumber;
  NumberToString := AsciiHost.NumberToString;
  parseFloat := AsciiHost.parseFloat;
  parseInt := AsciiHost.parseInt;
  trim := AsciiHost.trim;
  toLowerCase := AsciiHost.map_string AsciiHost.lower;
  toUpperCase := AsciiHost.map_string AsciiHost.upper;
  Math_pow := AsciiHost.Math_pow;
  toFixed3 := AsciiHost.toFixed3
|}.

(** ** The decision table of the arbiter, as the specification words it

    The inputs of the two sources are read from the row here, apart from
    the arbiter, and the rules are those of the specification. *)

(** The inputs of source A and of source B. *)
Record SourceA : Type := mkSourceA {
  compoundName : string;
  mqScore : float;
  libraryQuality : string;
  sharedPeaks : float;
  mzErrorPpm : float
}.
Record SourceB : Type := mkSourceB {
  siriusName : string;
  confidenceScore : float
}.

(** A numeric field parses when reading it gives a number, not [NaN]. *)
Definition parses (x : float) : bool := PrimFloat.eqb x x.

(** Rule 5: [strongA]. *)
Definition strongA (a : SourceA) : bool :=
  (parses (mqScore a) && PrimFloat.ltb 0.9 (mqScore a)) &&
  String.eqb (libraryQuality a) "Gold" &&
  (parses (sharedPeaks a) && PrimFloat.ltb 10 (sharedPeaks a)) &&
  (parses (mzErrorPpm a) && PrimFloat.ltb (PrimFloat.abs (mzErrorPpm a)) 5).

(** Rule 6: [strongB]. *)
Definition strongB (b : SourceB) : bool :=
  parses (confidenceScore b) && PrimFloat.ltb 0.8 (confidenceScore b).

Section ArbiterSpec.
Context `{JSHost}.

(** Rules 1 to 7, the first that applies. *)
Definition resolve (a : SourceA) (b : SourceB) : string :=
  match String.eqb (compoundName a) EmptyString, String.eqb (siriusName b) EmptyString with
  | true, true => EmptyString
  | false, true => compoundName a
  | true, false => siriusName b
  | false, false =>
      if String.eqb (toLowerCase (compoundName a)) (toLowerCase (siriusName b))
      then compoundName a
      else
        match strongA a, strongB b with
        | true, true => siriusName b
        | true, false => compoundName a
        | false, true => siriusName b
        | false, false => compoundName a
        end
  end.

(** The text of a field that holds a name or a quality: a field that is
    absent, [null], the number [0] or [NaN] reads as the empty text. *)
Definition name_text (v : option cell) : string :=
  match v with
  | Some (CStr s) => s
  | Some (CNum x) =>
      if PrimFloat.eqb x 0 || negb (PrimFloat.eqb x x) then EmptyString
      else NumberToString x
  | Some CNull | None => EmptyString
  end.

(** The text of a field that holds a score, as it is handed to the parser
    of numbers. *)
Definition score_text (v : option cell) : string :=
  match v with
  | Some (CStr s) => s
  | Some (CNum x) => NumberToString x
  | Some CNull => "null"
  | None => "undefined"
  end.

(** The inputs of the two sources on a row: the names are trimmed. *)
Definition sourceA_of (row : TableRow) : SourceA :=
  mkSourceA (trim (name_text (row !! "Compound_Name")))
    (parseFloat (score_text (row !! "MQScore")))
    (name_text (row !! "LibraryQualityString"))
    (parseInt (score_text (row !! "SharedPeaks")))
    (parseFloat (score_text (row !! "MZErrorPPM"))).
Definition sourceB_of (row : TableRow) : SourceB :=
  mkSourceB (trim (name_text (row !! "name")))
    (parseFloat (score_text (row !! "ConfidenceScoreExact"))).
End ArbiterSpec.

(** ** The contaminant filter, as the specification words it *)

Section FilterSpec.
Context `{JSHost}.

(** The annotation of a row is empty or missing. *)
Definition annotation_missing (row : TableRow) : bool :=
  negb (not_nullish (row !! "Final_Annotation")) ||
  String.eqb (trim (String_ (row !! "Final_Annotation"))) EmptyString.

(** The trimmed annotation of a row is a member of the exclusion set. *)
Definition is_contaminant (S : gset string) (row : TableRow) : bool :=
  not_nullish (row !! "Final_Annotation") &&
  bool_decide (trim (String_ (row !! "Final_Annotation")) ∈ S).
End FilterSpec.

(** ** The exact-key merge, as the specification words it *)

Section MergeSpec.
Context `{JSHost}.

(** The key of a row: the trimmed text of its identifier; none when the
    identifier is absent or [null], or when its text is blank. It is read
    here on the row itself, apart from the handler. *)
Definition exact_key (row : TableRow) : option string :=
  match row !! "ID" with
  | Some (CStr s) => if String.eqb (trim s) EmptyString then None else Some (trim s)
  | Some (CNum x) =>
      if String.eqb (trim (NumberToString x)) EmptyString then None
      else Some (trim (NumberToString x))
  | Some CNull | None => None
  end.
End MergeSpec.

(** ** The choice of the winner, as the specification words it *)

Section WinnerSpec.
Context `{JSHost}.

(** [avgIntensity]: the mean of the positive values of the biological
    columns, [0] when none is positive. *)
Definition mean_of_positive (bioCols : list string) (row : TableRow) : float :=
  let positive :=
    List.filter (fun v => PrimFloat.ltb 0 v)
      (map (fun col => Number (row !! col)) bioCols) in
  match positive with
  | [] => 0%float
  | _ :: _ => (sum positive / num_of_nat (length positive))%float
  end.
End WinnerSpec.

(** ** The measures of a row in dereplication *)

Section Measures.
Context `{JSHost}.

(** A row that enters the stages with no status and is not excluded for
    its missing rate, whose QC values (the numbers above [0] read in the QC
    columns) are two or more, of mean other than [0] and of RSD [rsd] (the
    deviation over [n - 1], over the mean, times [100]), and whose average
    intensity is [avg]. *)
Definition measured (bioCols qcCols : list string) (row : TableRow)
    (rsd avg : float) : Prop :=
  let qc :=
    List.filter (fun v => PrimFloat.ltb 0 v)
      (map (fun col => Number (row !! col)) qcCols) in
  let n := num_of_nat (length qc) in
  let mean := (sum qc / n)%float in
  let stddev :=
    PrimFloat.sqrt (sum (map (fun x => Math_pow (x - mean)%float 2) qc) / (n - 1))%float in
  row !! "_derep_status" = None /\
  num_gt (missingRate bioCols row) 50 = false /\
  2 <= length qc /\
  PrimFloat.eqb mean 0 = false /\
  (stddev / mean * 100)%float = rsd /\
  mean_of_positive bioCols row = avg.

(** The statuses of the rows of a table. *)
Definition statuses (T : TableData) : list (option cell) :=
  map (fun row : TableRow => row !! f_status) (rows T).
End Measures.

(** ** The rows of the dereplicated table *)

(** A row as it leaves dereplication: with its status, without the metrics. *)
Definition finished (status : string) (row : TableRow) : TableRow :=
  drop_metrics (<[f_status := CStr status]> row).

(** A row pushed on [processedRows] is a row of the group with the status
    [Retained] or [Removed]. *)
Definition marked (row out : TableRow) : Prop :=
  out = <[f_status := CStr Retained]> row \/ out = <[f_status := CStr Removed]> row.

(** An output row comes from an input row: it is that row with the status
    [Retained] or [Removed]. *)
Definition derived_from (row out : TableRow) : Prop :=
  out = finished Retained row \/ out = finished Removed row.

(** The identifiers of the rows are pairwise distinct (as the keys of a
    [Map] are compared). *)
Definition distinct_ids (rows : list TableRow) : Prop :=
  forall (i j : nat) (ri rj : TableRow),
    rows !! i = Some ri -> rows !! j = Some rj ->
    same_value_zero (ri !! "ID") (rj !! "ID") = true -> i = j.

(** The check of [distinct_ids], row against later rows. *)
Fixpoint distinct_ids_check (rows : list TableRow) : bool :=
  match rows with
  | [] => true
  | row :: rest =>
      forallb (fun later : TableRow =>
                 negb (same_value_zero (row !! "ID") (later !! "ID"))) rest &&
      distinct_ids_check rest
  end.

(** ** Numbers in units of the smallest positive number *)

(** A number is positive and at least [k] times [2^-1074], or is
    [+Infinity]. *)
Definition above (k : Z) (x : spec_float) : Prop :=
  x = S754_infinity false \/
  exists m e, x = S754_finite false m e /\
              (-1074 <= e)%Z /\ (k <= Z.pos m * 2 ^ (e + 1074))%Z.

(** ** Tables for running the handlers *)

Definition filter_table_ex : TableData :=
  mkTable ["ID"; "Final_Annotation"]
    [ {[ "ID" := CStr "1"; "Final_Annotation" := CStr " Caffeine " ]};
      {[ "ID" := CStr "2"; "Final_Annotation" := CNull ]};
      {[ "ID" := CStr "3"; "Final_Annotation" := CStr "Glucose" ]};
      {[ "ID" := CStr "4"; "Final_Annotation" := CStr "  " ]} ].

Definition merge_base_ex : TableData :=
  mkTable ["ID"; "MZ"]
    [ {[ "ID" := CStr "1"; "MZ" := CNum 100 ]};
      {[ "ID" := CStr " 2 "; "MZ" := CNum 180 ]};
      {[ "ID" := CNull; "MZ" := CNum 250 ]} ].

Definition merge_fbmn_ex : TableData :=
  mkTable ["ID"; "Compound_Name"]
    [ {[ "ID" := CStr "2"; "Compound_Name" := CStr "X" ]};
      {[ "ID" := CStr "7"; "Compound_Name" := CStr "Z" ]};
      {[ "ID" := CStr "2 "; "Compound_Name" := CStr "Y" ]} ].

Definition merge_mass_ex : TableData :=
  mkTable ["ionMass"; "molecularFormula"]
    [ {[ "ionMass" := CNum 300.0001; "molecularFormula" := CStr "C6H12O6" ]};
      {[ "ionMass" := CNum 100.0004; "molecularFormula" := CStr "C8H10N4O2" ]};
      {[ "ionMass" := CNum 300.0002; "molecularFormula" := CStr "C6H12O6" ]};
      {[ "ionMass" := CNum 300.0001; "molecularFormula" := CStr "C6H12O6" ]} ].

(** A row with QC values [95, 100, 105] (mean 100, deviation 5). *)
Definition qc_row_ex : TableRow :=
  {[ "ID" := CStr "1"; "Final_Annotation" := CStr "Caffeine";
     "CON_1" := CNum 50; "HBO_1" := CNum 50;
     "QC-1" := CNum 95; "QC-2" := CNum 100; "QC-3" := CNum 105 ]}.

(** Four scored candidates: the first two tie on intensity, the third is
    outside the RSD window. *)
Definition candidates_ex : list TableRow :=
  [ {[ "ID" := CStr "a"; "CON_1" := CNum 80; "_qc_rsd" := CNum 5 ]};
    {[ "ID" := CStr "b"; "CON_1" := CNum 80; "_qc_rsd" := CNum 6 ]};
    {[ "ID" := CStr "c"; "CON_1" := CNum 90; "_qc_rsd" := CNum 8 ]};
    {[ "ID" := CStr "d"; "CON_1" := CNum 10; "_qc_rsd" := CNum 5.5 ]} ].

(** Scenario C: one annotation group of three rows, with QC RSDs 5, 6 and
    40 and average intensities 50, 80 and 10. *)
Definition scenario_row1 : TableRow :=
  {[ "ID" := CStr "1"; "Final_Annotation" := CStr "Caffeine";
     "CON_1" := CNum 50; "HBO_1" := CNum 50;
     "QC-1" := CNum 95; "QC-2" := CNum 100; "QC-3" := CNum 105 ]}.
Definition scenario_row2 : TableRow :=
  {[ "ID" := CStr "2"; "Final_Annotation" := CStr "Caffeine";
     "CON_1" := CNum 80; "HBO_1" := CNum 80;
     "QC-1" := CNum 94; "QC-2" := CNum 100; "QC-3" := CNum 106 ]}.
Definition scenario_row3 : TableRow :=
  {[ "ID" := CStr "3"; "Final_Annotation" := CStr "Caffeine";
     "CON_1" := CNum 10; "HBO_1" := CNum 10;
     "QC-1" := CNum 60; "QC-2" := CNum 100; "QC-3" := CNum 140 ]}.
Definition scenario_table : TableData :=
  mkTable ["ID"; "Final_Annotation"; "CON_1"; "HBO_1"; "QC-1"; "QC-2"; "QC-3"]
    [scenario_row1; scenario_row2; scenario_row3].
Definition scenario_bioCols : list string := ["CON_1"; "HBO_1"].
Definition scenario_qcCols : list string := ["QC-1"; "QC-2"; "QC-3"].

(** The rows of scenario C with their groups interleaved with a second
    annotation and an unannotated row. *)
Definition interleaved_table : TableData :=
  mkTable ["ID"; "Final_Annotation"; "CON_1"; "HBO_1"; "QC-1"; "QC-2"; "QC-3"]
    [ scenario_row1;
      {[ "ID" := CStr "9"; "Final_Annotation" := CStr "Glucose";
         "CON_1" := CNum 7; "HBO_1" := CNum 7;
         "QC-1" := CNum 7; "QC-2" := CNum 7; "QC-3" := CNum 7 ]};
      scenario_row2;
      {[ "ID" := CStr "8"; "Final_Annotation" := CNull;
         "CON_1" := CNum 1; "HBO_1" := CNum 1;
         "QC-1" := CNum 1; "QC-2" := CNum 1; "QC-3" := CNum 1 ]};
      scenario_row3 ].

(** Three rows of three annotations, the first and the last with the same
    identifier. *)
Definition duplicate_ids_table : TableData :=
  mkTable ["ID"; "Final_Annotation"; "CON_1"; "QC-1"]
    [ {[ "ID" := CStr "1"; "Final_Annotation" := CStr "A";
         "CON_1" := CNum 5; "QC-1" := CNum 5 ]};
      {[ "ID" := CStr "2"; "Final_Annotation" := CStr "B";
         "CON_1" := CNum 5; "QC-1" := CNum 5 ]};
      {[ "ID" := CStr "1"; "Final_Annotation" := CStr "C";
         "CON_1" := CNum 5; "QC-1" := CNum 5 ]} ].

(** Three rows of three annotations as the import step leaves them when
    two file names do not have the form [id/mass/time]: the identifier of
    these two rows is [null]. *)
Definition null_ids_table : TableData :=
  mkTable ["Filename"; "ID"; "MZ"; "RT"; "Final_Annotation"; "CON_1"; "QC-1"]
    [ {[ "Filename" := CStr "blank_1"; "ID" := CNull; "MZ" := CNull; "RT" := CNull;
         "Final_Annotation" := CStr "A"; "CON_1" := CNum 5; "QC-1" := CNum 5 ]};
      {[ "Filename" := CStr "13/302.25mz/0.7min"; "ID" := CStr "13";
         "MZ" := CStr "302.25"; "RT" := CStr "0.7";
         "Final_Annotation" := CStr "B"; "CON_1" := CNum 5; "QC-1" := CNum 5 ]};
      {[ "Filename" := CStr "blank_2"; "ID" := CNull; "MZ" := CNull; "RT" := CNull;
         "Final_Annotation" := CStr "C"; "CON_1" := CNum 5; "QC-1" := CNum 5 ]} ].

(** Rows for the arbiter: two names that differ, with the evidence of each
    source. *)
Definition arbiter_row (mqScore confidence : string) : TableRow :=
  {[ "Compound_Name" := CStr " Caffeine "; "name" := CStr "Theobromine";
     "MQScore" := CStr mqScore; "LibraryQualityString" := CStr "Gold";
     "SharedPeaks" := CNum 12; "MZErrorPPM" := CStr "-1.5";
     "ConfidenceScoreExact" := CStr confidence ]}.

(** Two rows of one annotation whose QC values add up to [Infinity]. *)
Definition overflow_table : TableData :=
  mkTable ["ID"; "Final_Annotation"; "CON_1"; "QC-1"; "QC-2"]
    [ {[ "ID" := CStr "1"; "Final_Annotation" := CStr "Caffeine";
         "CON_1" := CNum 50; "QC-1" := CNum 1e308; "QC-2" := CNum 1e308 ]};
      {[ "ID" := CStr "2"; "Final_Annotation" := CStr "Caffeine";
         "CON_1" := CNum 80; "QC-1" := CNum 1e308; "QC-2" := CNum 1e308 ]} ].

(** ** The import step: the first branch of [handleFileProcess]

    Text is held as the bytes of its UTF-8 form. The separators and the
    letters searched below are ASCII characters, whose bytes occur in UTF-8
    text only as themselves, so splitting and searching on bytes agree
    with the same operations on the characters. *)

(** [s.split(sep)] for a separator of one character: one part more than
    there are separators, the empty string giving one empty part. *)
Fixpoint split_on (sep : ascii) (s : string) : list string :=
  match s with
  | EmptyString => [EmptyString]
  | String c s' =>
      if Ascii.eqb c sep then EmptyString :: split_on sep s'
      else match split_on sep s' with
           | part :: parts => String c part :: parts
           | [] => [String c EmptyString]
           end
  end.

(** The case folding of the flag [i] on the letters of a pattern: an ASCII
    letter matches itself in either case, and nothing else. *)
Definition fold_case (c : ascii) : ascii :=
  let n := nat_of_ascii c in
  if Nat.leb 97 n && Nat.leb n 122 then ascii_of_nat (n - 32) else c.

(** The rest of [s] after the pattern [p] matched at its head without
    regard to case; none when it does not match there. *)
Fixpoint match_head (p s : string) : option string :=
  match p with
  | EmptyString => Some s
  | String a p' =>
      match s with
      | String c s' =>
          if Ascii.eqb (fold_case a) (fold_case c) then match_head p' s' else None
      | EmptyString => None
      end
  end.

(** [s.replace(/p/i, '')] for a pattern [p] of letters: the first match
    from the left is taken out. *)
Fixpoint remove_first (p s : string) : string :=
  match match_head p s with
  | Some rest => rest
  | None =>
      match s with
      | String c s' => String c (remove_first p s')
      | EmptyString => EmptyString
      end
  end.

(** [l.indexOf(s)], none for [-1]. *)
Fixpoint indexOf (l : list string) (s : string) : option nat :=
  match l with
  | [] => None
  | x :: l' => if String.eqb x s then Some 0 else S <$> indexOf l' s
  end.

Inductive import_error : Type :=
  | NeedsKeyColumnsOrFilename
  | StillMissingColumns (cols : list string).

Section ImportStep.
Context `{JSHost}.

(** The callback of [rows.map] that reads [ID], [MZ] and [RT] in the
    [Filename] of a row. *)
Definition filename_fields (row : TableRow) : TableRow :=
  let filename := String_ (or_empty (row !! "Filename")) in
  match split_on "/" filename with
  | part0 :: part1 :: part2 :: _ =>
      let id := trim part0 in
      let mz := trim (remove_first "mz" part1) in
      let rt := trim (remove_first "min" part2) in
      <["RT" := CStr rt]> (<["MZ" := CStr mz]> (<["ID" := CStr id]> row))
  | _ => <["RT" := CNull]> (<["MZ" := CNull]> (<["ID" := CNull]> row))
  end.

(** [finalHeaders]: the new headers spliced in after [Filename]. *)
Definition import_headers (headers : list string) : list string :=
  let newHeaders :=
    List.filter (fun h => negb (includes headers h)) ["ID"; "MZ"; "RT"] in
  let originalHeaders :=
    match indexOf headers "Filename" with
    | Some filenameIndex =>
        take (filenameIndex + 1) headers ++ newHeaders ++ drop (filenameIndex + 1) headers
    | None => newHeaders ++ headers
    end in
  uniq originalHeaders.

(** The branch [currentStep === 0]: the table that becomes the net table,
    or the error thrown. *)
Definition handleFileProcess_import (data : TableData) : import_error + TableData :=
  let processed : import_error + TableData :=
    if includes (headers data) "ID" && includes (headers data) "MZ" &&
       includes (headers data) "RT"
    then inr data
    else if includes (headers data) "Filename"
    then inr (mkTable (import_headers (headers data)) (map filename_fields (rows data)))
    else inl NeedsKeyColumnsOrFilename in
  match processed with
  | inl e => inl e
  | inr processedData =>
      let missingColsCheck :=
        List.filter (fun col => negb (includes (headers processedData) col)) ["ID"; "MZ"] in
      if negb (Nat.eqb (length missingColsCheck) 0)
      then inl (StillMissingColumns missingColsCheck)
      else inr processedData
  end.
End ImportStep.

(** ** The annotation step: [handleGenerateAnnotation] *)

Inductive annotate_error : Type :=
  | NoDataToAnnotate
  | MissingAnnotationColumns (cols : list string).

Definition annotation_requiredCols : list string :=
  ["Compound_Name"; "name"; "MQScore"; "LibraryQualityString"; "SharedPeaks";
   "MZErrorPPM"; "ConfidenceScoreExact"].

Section Annotate.
Context `{JSHost}.

Definition handleGenerateAnnotation (mergedData : option TableData)
    : annotate_error + TableData :=
  match mergedData with
  | None => inl NoDataToAnnotate
  | Some mergedData =>
      let missingCols :=
        List.filter (fun col => negb (includes (headers mergedData) col))
          annotation_requiredCols in
      if negb (Nat.eqb (length missingCols) 0)
      then inl (MissingAnnotationColumns missingCols)
      else
        let newHeaders :=
          if negb (includes (headers mergedData) "Final_Annotation")
          then headers mergedData ++ ["Final_Annotation"]
          else headers mergedData in
        let newRows :=
          map (fun row : TableRow =>
                 <["Final_Annotation" := CStr (determineFinalAnnotation row)]> row)
            (rows mergedData) in
        inr (mkTable newHeaders newRows)
  end.
End Annotate.

(** ** The hand-over from dereplication to the filter:
       [handleLoadDataForFiltering] *)

(** [cleanedData]: the retained rows without their status. *)
Definition handleLoadDataForFiltering (dereplicationData : option TableData)
    : option TableData :=
  match dereplicationData with
  | Some dereplicationData =>
      let cleanedRows :=
        map (fun r : TableRow => delete f_status r)
          (List.filter (fun r : TableRow =>
                          strict_eq (r !! f_status) (Some (CStr Retained)))
             (rows dereplicationData)) in
      Some (mkTable (headers dereplicationData) cleanedRows)
  | None => None
  end.

(** ** The exclusion list: [handleContaminantFileProcess] and
       [handleProcessPastedList] *)

Inductive loader_error : Type :=
  | NoNameColumn
  | NoPastedNames.

(** The line feed, the separator of pasted lists. *)
Definition newline : ascii := ascii_of_nat 10.

Section Loaders.
Context `{JSHost}.

Definition handleContaminantFileProcess (data : TableData) : loader_error + gset string :=
  if negb (includes (headers data) "name") then inl NoNameColumn
  else inr (contaminant_names data).

Definition handleProcessPastedList (contaminantText : string)
    : loader_error + gset string :=
  if negb (nonempty (trim contaminantText)) then inl NoPastedNames
  else inr (Set_of (List.filter nonempty (map trim (split_on newline contaminantText)))).
End Loaders.

(** ** The explanation tool: [handleLoadDataForExplanation] and the list
       handling of [handleMetaboliteExplanation] *)

(** [l.join(sep)]. *)
Fixpoint join (sep : string) (l : list string) : string :=
  match l with
  | [] => EmptyString
  | [x] => x
  | x :: l' => x +:+ sep +:+ join sep l'
  end.

Inductive explain_error : Type :=
  | NoDataToExplain.

Definition CHUNK_SIZE : nat := 50.

(** [l.slice(i, j)] on indices that are not negative: the elements from
    [i] up to [j], as far as the list goes. *)
Definition slice {A : Type} (i j : nat) (l : list A) : list A :=
  take (j - i) (drop i l).

(** The loop [for (let i = 0; i < metabolites.length; i += CHUNK_SIZE)],
    from the index [i] on; each turn pushes one slice. The fuel bounds the
    number of turns. *)
Fixpoint chunks_from (fuel i : nat) (metabolites : list string) : list (list string) :=
  match fuel with
  | O => []
  | S fuel' =>
      if Nat.ltb i (length metabolites)
      then slice i (i + CHUNK_SIZE) metabolites ::
           chunks_from fuel' (i + CHUNK_SIZE) metabolites
      else []
  end.

Section Explanation.
Context `{JSHost}.

(** The callback of the filter: a row that is retained, or has no status,
    and is annotated. *)
Definition is_explained (row : TableRow) : bool :=
  let status := row !! f_status in
  let isRetained :=
    match status with
    | None => true
    | Some _ => strict_eq status (Some (CStr Retained))
    end in
  isRetained && truthy (row !! "Final_Annotation") &&
  nonempty (trim (String_ (row !! "Final_Annotation"))).

Definition uniqueAnnotations (dataToUse : TableData) : list string :=
  uniq (map (fun row : TableRow => trim (String_ (row !! "Final_Annotation")))
          (List.filter is_explained (rows dataToUse))).

(** The new text of the list of metabolites, or the error. *)
Definition handleLoadDataForExplanation (filterToolData dereplicationData : option TableData)
    (explanationMetabolites : string) : explain_error + string :=
  let dataToUse :=
    match filterToolData with
    | Some data => Some data
    | None => dereplicationData
    end in
  match dataToUse with
  | Some dataToUse =>
      if Nat.ltb 0 (length (uniqueAnnotations dataToUse))
      then inr (join (String newline EmptyString) (uniqueAnnotations dataToUse))
      else inr explanationMetabolites
  | None => inl NoDataToExplain
  end.

(** [metabolites]: the distinct non-empty trimmed lines of the text. *)
Definition metabolites_of (explanationMetabolites : string) : list string :=
  uniq (List.filter nonempty (map trim (split_on newline explanationMetabolites))).

Definition chunks_of (metabolites : list string) : list (list string) :=
  chunks_from (length metabolites) 0 metabolites.
End Explanation.

(** ** The explanation tool: the answers of the service

    [allResultsFromAI] holds whatever [JSON.parse] read in the answers. *)

Set Warnings "-register-all".

(** A value read by [JSON.parse]. The fields of an object are in the order
    of the text; a key written twice holds its last value. *)
Inductive json : Type :=
  | JNull
  | JBool (b : bool)
  | JNum (x : float)
  | JStr (s : string)
  | JArr (items : list json)
  | JObj (fields : list (string * json)).

(** [v[k]], for a key [k] that no prototype defines: none is the
    [TypeError] thrown on [null]; on a value that is not an object, and on
    an object without the key, the value is [undefined]. *)
Definition json_get (v : json) (k : string) : option (option json) :=
  match v with
  | JNull => None
  | JObj fields =>
      Some (fold_left (fun found kv => if String.eqb (fst kv) k then Some (snd kv) else found)
              fields None)
  | JBool _ | JNum _ | JStr _ | JArr _ => Some None
  end.

(** Truthiness of a value that was read. *)
Definition json_truthy (v : json) : bool :=
  match v with
  | JNull => false
  | JBool b => b
  | JNum x => negb (PrimFloat.eqb x 0 || isNaN x)
  | JStr s => negb (String.eqb s EmptyString)
  | JArr _ | JObj _ => true
  end.

(** [v || fallback]. *)
Definition or_text (v : option json) (fallback : string) : json :=
  match v with
  | Some j => if json_truthy j then j else JStr fallback
  | None => JStr fallback
  end.

(** [new Map(entries).get(name)] for a text [name]: the value of the last
    entry whose key is this text. *)
Definition resultMap_get (resultMap : list (option json * json)) (name : string)
    : option json :=
  fold_left (fun found kv =>
               match fst kv with
               | Some (JStr s) => if String.eqb s name then Some (snd kv) else found
               | _ => found
               end)
    resultMap None.

(** [result?.[k]]. *)
Definition json_get_opt (result : option json) (k : string) : option json :=
  match result with
  | Some v => default None (json_get v k)
  | None => None
  end.

(** The entries [[res.englishName, res]] of the map: none when reading the
    key throws. *)
Fixpoint resultMap_entries (allResultsFromAI : list json)
    : option (list (option json * json)) :=
  match allResultsFromAI with
  | [] => Some []
  | res :: rest =>
      match json_get res "englishName" with
      | None => None
      | Some key =>
          match resultMap_entries rest with
          | None => None
          | Some entries => Some ((key, res) :: entries)
          end
      end
  end.

(** [orderedRows]: one row per metabolite, read in the map of the results
    keyed by [englishName]; none when building the map throws, which the
    handler catches: it reports the error and exports nothing. *)
Definition orderedRows (metabolites : list string) (allResultsFromAI : list json)
    : option (list (gmap string json)) :=
  match resultMap_entries allResultsFromAI with
  | None => None
  | Some resultMap =>
      Some (map (fun name =>
                   let result := resultMap_get resultMap name in
                   {[ "英文名称" := JStr name;
                      "中文翻译" := or_text (json_get_opt result "chineseTranslation")
                                      "翻译失败";
                      "分类" := or_text (json_get_opt result "classification")
                                  "分类失败" ]})
              metabolites)
  end.

(** The table handed to the exporter: its headers and its rows. *)
Definition explanation_table (metabolites : list string) (allResultsFromAI : list json)
    : option (list string * list (gmap string json)) :=
  match orderedRows metabolites allResultsFromAI with
  | None => None
  | Some rows => Some (["英文名称"; "中文翻译"; "分类"], rows)
  end.

(** ** The workflow: the steps, the state and the handlers of [App]

    [handleFileProcess] is asynchronous: it raises the flag [isLoading],
    awaits the parser, and goes on with the values of [currentStep],
    [mergedData] and [netTable] of the render in which it was created (the
    dependencies of its [useCallback]), whatever happened while it waited.
    While the flag is up the cards of the workflow are not rendered and the
    uploads of the tools are disabled; the reset is always there, and it
    lowers the flag without ending the calls that wait.

    The state holds the variables of the workflow that its handlers write,
    the flag, and the calls that await the parser. The error, the modal and
    the toast are shown only and are written by the handlers of every tool:
    they are left out, and [reported] records, in order, the errors the
    handlers of the workflow report. The loaders of the tools await the
    parser under the same flag; their calls are counted. The synchronous
    handlers of the tools that write the flag run only when it is down and
    leave it down. *)

Definition PROCESSING_STEPS : list ProcessingStep :=
  [ mkStep [] EmptyString None [];
    mkStep ["ID"; "MZ"] EmptyString None [];
    step_fbmn;
    step_sirius;
    step_supplementary;
    mkStep [] EmptyString None ["Final_Annotation"] ].

Module Workflow.

(** The matching branch of [handleFileProcess] and the table part of
    [handleGenerateAnnotation], defined above on tables alone. *)
Local Abbreviation matching_branch := handleFileProcess.
Local Abbreviation annotated_table := handleGenerateAnnotation.

Inductive failure : Type :=
  | ParseFailed
  | ImportFailed (e : import_error)
  | MergeFailed (e : error)
  | AnnotateFailed (e : annotate_error).

(** What a call of [handleFileProcess] holds of its render. *)
Record closure : Type := mkClosure {
  c_currentStep : nat;
  c_mergedData : option TableData;
  c_netTable : option TableData
}.

Record state : Type := mkState {
  currentStep : nat;
  netTable : option TableData;
  mergedData : option TableData;
  dataHistory : list (option TableData);
  allUnmatched : gmap nat (list cell);
  isLoading : bool;
  awaiting : list closure;
  loaders : nat;
  reported : list failure
}.

(** The state of a fresh page. *)
Definition initial : state :=
  mkState 0 None None [] ∅ false [] 0 [].

(** What happens: a file is chosen in the upload of the current card; the
    parser settles for the call at a place of the waiting calls, with a
    table or with a rejection; one of the two buttons is pressed; the reset
    is confirmed; a loader of a tool starts; the parser settles for one. *)
Inductive event : Type :=
  | ChooseFile
  | ParserSettles (place : nat) (parsed : option TableData)
  | Continue
  | GenerateAnnotation
  | Reset
  | LoaderStarts
  | LoaderSettles.

Section Handlers.
Context `{JSHost}.

(** [catch (err) { setError(...) } finally { setIsLoading(false) }]. *)
Definition failed (w : state) (e : failure) : state :=
  mkState (currentStep w) (netTable w) (mergedData w) (dataHistory w) (allUnmatched w)
    false (awaiting w) (loaders w) (reported w ++ [e]).

(** [handleFileProcess] up to its [await]. *)
Definition handleFileProcess_call (w : state) : state :=
  match PROCESSING_STEPS !! currentStep w with
  | None => w
  | Some _ =>
      mkState (currentStep w) (netTable w) (mergedData w) (dataHistory w) (allUnmatched w)
        true (awaiting w ++ [mkClosure (currentStep w) (mergedData w) (netTable w)])
        (loaders w) (reported w)
  end.

(** [handleFileProcess] from its [await] on, in the state [w] of that
    time: what it reads of its render is in [c]; the updates written as
    functions of the previous value read [w]. *)
Definition handleFileProcess_resume (c : closure) (parsed : option TableData) (w : state)
    : state :=
  match PROCESSING_STEPS !! c_currentStep c with
  | None => w
  | Some stepConfig =>
      match parsed with
      | None => failed w ParseFailed
      | Some data =>
          if Nat.eqb (c_currentStep c) 0 then
            match handleFileProcess_import data with
            | inl e => failed w (ImportFailed e)
            | inr processedData =>
                mkState 1 (Some processedData) (Some processedData) [Some processedData]
                  (allUnmatched w) false (awaiting w) (loaders w) (reported w)
            end
          else
            match matching_branch stepConfig (c_mergedData c) (c_netTable c) data with
            | Throw e => failed w (MergeFailed e)
            | Ok (finalMergedData, foundUnmatched) =>
                mkState
                  (if Nat.ltb (c_currentStep c) (length PROCESSING_STEPS - 1)
                   then c_currentStep c + 1 else currentStep w)
                  (netTable w)
                  (Some finalMergedData)
                  (take (c_currentStep c) (dataHistory w) ++ [Some finalMergedData])
                  (if Nat.ltb 0 (length foundUnmatched)
                   then <[c_currentStep c := foundUnmatched]> (allUnmatched w)
                   else allUnmatched w)
                  false (awaiting w) (loaders w) (reported w)
            end
      end
  end.

(** The parser settles for the call at [place]: the call leaves the
    waiting calls and goes on. *)
Definition settle (place : nat) (parsed : option TableData) (w : state) : state :=
  match awaiting w !! place with
  | None => w
  | Some c =>
      handleFileProcess_resume c parsed
        (mkState (currentStep w) (netTable w) (mergedData w) (dataHistory w)
           (allUnmatched w) (isLoading w) (delete place (awaiting w)) (loaders w)
           (reported w))
  end.

(** The button of the second card: [setDataHistory(prev => [...prev,
    mergedData!]); setCurrentStep(2)]. *)
Definition handleContinue (w : state) : state :=
  mkState 2 (netTable w) (mergedData w) (dataHistory w ++ [mergedData w])
    (allUnmatched w) (isLoading w) (awaiting w) (loaders w) (reported w).

(** [handleGenerateAnnotation]: without a merged table it reports and
    returns; otherwise it ends with the flag down. *)
Definition handleGenerateAnnotation (w : state) : state :=
  match annotated_table (mergedData w) with
  | inl NoDataToAnnotate =>
      mkState (currentStep w) (netTable w) (mergedData w) (dataHistory w) (allUnmatched w)
        (isLoading w) (awaiting w) (loaders w)
        (reported w ++ [AnnotateFailed NoDataToAnnotate])
  | inl e => failed w (AnnotateFailed e)
  | inr finalData =>
      mkState (currentStep w + 1) (netTable w) (Some finalData)
        (take (currentStep w) (dataHistory w) ++ [Some finalData])
        (allUnmatched w) false (awaiting w) (loaders w) (reported w)
  end.

(** [handleReset]: the variables are set back and the flag is lowered; the
    calls that wait go on waiting. *)
Definition handleReset (w : state) : state :=
  mkState 0 None None [] ∅ false (awaiting w) (loaders w) (reported w).

(** A loader of a tool, up to its [await] and from it on. *)
Definition loader_call (w : state) : state :=
  mkState (currentStep w) (netTable w) (mergedData w) (dataHistory w) (allUnmatched w)
    true (awaiting w) (loaders w + 1) (reported w).
Definition loader_resume (w : state) : state :=
  mkState (currentStep w) (netTable w) (mergedData w) (dataHistory w) (allUnmatched w)
    false (awaiting w) (loaders w - 1) (reported w).

(** [handleStepDownload]: the table exported for a step, if there is
    one. *)
Definition handleStepDownload (w : state) (stepIndex : nat) : option TableData :=
  match dataHistory w !! stepIndex with
  | Some (Some data) => Some data
  | _ => None
  end.

(** What can happen in a state. With the flag down: the upload of the card
    of the current step, on the cards that have one; the button of the
    second card on the second step; the button of the annotation card on
    its step; the uploads of the tools. At any time: the reset, and the
    parser settling for a call that waits. *)
Definition enabled (w : state) (e : event) : bool :=
  match e with
  | ChooseFile =>
      negb (isLoading w) &&
      match currentStep w with
      | 0 | 2 | 3 | 4 => true
      | _ => false
      end
  | ParserSettles place _ => bool_decide (is_Some (awaiting w !! place))
  | Continue => negb (isLoading w) && Nat.eqb (currentStep w) 1
  | GenerateAnnotation => negb (isLoading w) && Nat.eqb (currentStep w) 5
  | Reset => true
  | LoaderStarts => negb (isLoading w)
  | LoaderSettles => Nat.ltb 0 (loaders w)
  end.

Definition dispatch (w : state) (e : event) : state :=
  if enabled w e then
    match e with
    | ChooseFile => handleFileProcess_call w
    | ParserSettles place parsed => settle place parsed w
    | Continue => handleContinue w
    | GenerateAnnotation => handleGenerateAnnotation w
    | Reset => handleReset w
    | LoaderStarts => loader_call w
    | LoaderSettles => loader_resume w
    end
  else w.

(** The state after a session. *)
Definition run (events : list event) : state := fold_left dispatch events initial.

(** No file is being read: no call awaits the parser. *)
Definition idle (w : state) : bool :=
  Nat.eqb (length (awaiting w)) 0 && Nat.eqb (loaders w) 0.

(** A session in which the reset is never confirmed while a file is being
    read. *)
Fixpoint calm_from (w : state) (events : list event) : bool :=
  match events with
  | [] => true
  | e :: rest =>
      match e with
      | Reset => idle w
      | _ => true
      end && calm_from (dispatch w e) rest
  end.
Definition calm (events : list event) : bool := calm_from initial events.
End Handlers.
End Workflow.

(** ** The two tools: the state and the handlers of dereplication and of
       the filter

    The state holds the table of each tool, the table kept for undoing, the
    flag that says the operation was applied, the exclusion list, and the
    error shown. The modal that lists the removed rows, the toast and the
    text of the paste box are display only and left out. *)

Module Tools.

Local Abbreviation dereplicated_table := handleDereplication.
Local Abbreviation filtered_table := handleApplyFilter.
Local Abbreviation cleaned_table := handleLoadDataForFiltering.
Local Abbreviation file_names := handleContaminantFileProcess.
Local Abbreviation pasted_names := handleProcessPastedList.

Inductive failure : Type :=
  | ParseFailed
  | NoAnnotationColumn
  | NoAnnotationOrIdColumn
  | ListFailed (e : loader_error)
  | Failed (e : error).

Record state : Type := mkState {
  dereplicationData : option TableData;
  dataBeforeDereplication : option TableData;
  isDereplicated : bool;
  filterToolData : option TableData;
  dataBeforeFilter : option TableData;
  contaminantList : option (gset string);
  isFiltered : bool;
  error : option failure
}.

Definition initial : state :=
  mkState None None false None None None false None.

(** What the user does in the two tools. [UseWorkflowData] carries the
    merged table of the workflow at that time. *)
Inductive event : Type :=
  | DereplicationFile (parsed : option TableData)
  | UseWorkflowData (mergedData : option TableData)
  | Dereplicate
  | UndoDereplication
  | LoadDataForFiltering
  | FilterFile (parsed : option TableData)
  | ContaminantFile (parsed : option TableData)
  | PastedList (contaminantText : string)
  | ApplyFilter
  | UndoFilter.

Section Handlers.
Context `{JSHost}.

Definition with_error (w : state) (e : option failure) : state :=
  mkState (dereplicationData w) (dataBeforeDereplication w) (isDereplicated w)
    (filterToolData w) (dataBeforeFilter w) (contaminantList w) (isFiltered w) e.

Definition with_dereplication (w : state) (data before : option TableData)
    (applied : bool) (e : option failure) : state :=
  mkState data before applied
    (filterToolData w) (dataBeforeFilter w) (contaminantList w) (isFiltered w) e.

Definition with_filter (w : state) (data before : option TableData)
    (applied : bool) (e : option failure) : state :=
  mkState (dereplicationData w) (dataBeforeDereplication w) (isDereplicated w)
    data before (contaminantList w) applied e.

Definition handleDereplicationFileProcess (w : state) (parsed : option TableData) : state :=
  match parsed with
  | None => with_error w (Some ParseFailed)
  | Some data =>
      if negb (includes (headers data) "Final_Annotation") ||
         negb (includes (headers data) "ID")
      then with_error w (Some NoAnnotationOrIdColumn)
      else with_dereplication w (Some data) None false None
  end.

Definition handleUseWorkflowDataForDereplication (w : state)
    (mergedData : option TableData) : state :=
  match mergedData with
  | Some mergedData => with_dereplication w (Some mergedData) None false (error w)
  | None => w
  end.

(** [handleDereplication]: the table is kept for undoing before the
    columns are checked, so a refusal leaves it kept. *)
Definition handleDereplication (w : state) : state :=
  match dereplicationData w with
  | None => with_error w (Some (Failed NoDataToProcess))
  | Some data =>
      match dereplicated_table (Some data) with
      | Ok result => with_dereplication w (Some result) (Some data) true None
      | Throw e =>
          with_dereplication w (Some data) (Some data) (isDereplicated w)
            (Some (Failed e))
      end
  end.

Definition handleUndoDereplication (w : state) : state :=
  match dataBeforeDereplication w with
  | Some before => with_dereplication w (Some before) None false (error w)
  | None => w
  end.

Definition handleLoadDataForFiltering (w : state) : state :=
  match cleaned_table (dereplicationData w) with
  | Some cleanedData => with_filter w (Some cleanedData) None false (error w)
  | None => w
  end.

Definition handleFilterFileProcess (w : state) (parsed : option TableData) : state :=
  match parsed with
  | None => with_error w (Some ParseFailed)
  | Some data =>
      if negb (includes (headers data) "Final_Annotation")
      then with_error w (Some NoAnnotationColumn)
      else with_filter w (Some data) None false None
  end.

Definition with_list (w : state) (names : gset string) (e : option failure) : state :=
  mkState (dereplicationData w) (dataBeforeDereplication w) (isDereplicated w)
    (filterToolData w) (dataBeforeFilter w) (Some names) (isFiltered w) e.

Definition handleContaminantFileProcess (w : state) (parsed : option TableData) : state :=
  match parsed with
  | None => with_error w (Some ParseFailed)
  | Some data =>
      match file_names data with
      | inl e => with_error w (Some (ListFailed e))
      | inr names => with_list w names None
      end
  end.

Definition handleProcessPastedList (w : state) (contaminantText : string) : state :=
  match pasted_names contaminantText with
  | inl e => with_error w (Some (ListFailed e))
  | inr names => with_list w names (error w)
  end.

Definition handleApplyFilter (w : state) : state :=
  match filtered_table (filterToolData w) (contaminantList w) with
  | Throw e => with_error w (Some (Failed e))
  | Ok result => with_filter w (Some result) (filterToolData w) true None
  end.

Definition handleUndoFilter (w : state) : state :=
  match dataBeforeFilter w with
  | Some before => with_filter w (Some before) None false (error w)
  | None => w
  end.

(** The controls that are shown and enabled in a state: the uploads at any
    time; the button of an operation while it is not applied and its table
    is loaded (the filter also asks for a list); its undo while it is
    applied; the hand-over to the filter while dereplication is applied; the
    paste button when the text does not trim to nothing. *)
Definition enabled (w : state) (e : event) : bool :=
  match e with
  | DereplicationFile _ | FilterFile _ | ContaminantFile _ => true
  | UseWorkflowData mergedData => bool_decide (is_Some mergedData)
  | Dereplicate =>
      negb (isDereplicated w) && bool_decide (is_Some (dereplicationData w))
  | UndoDereplication => isDereplicated w
  | LoadDataForFiltering => isDereplicated w
  | PastedList contaminantText => nonempty (trim contaminantText)
  | ApplyFilter =>
      negb (isFiltered w) && bool_decide (is_Some (filterToolData w)) &&
      bool_decide (is_Some (contaminantList w))
  | UndoFilter => isFiltered w
  end.

Definition dispatch (w : state) (e : event) : state :=
  if enabled w e then
    match e with
    | DereplicationFile parsed => handleDereplicationFileProcess w parsed
    | UseWorkflowData mergedData => handleUseWorkflowDataForDereplication w mergedData
    | Dereplicate => handleDereplication w
    | UndoDereplication => handleUndoDereplication w
    | LoadDataForFiltering => handleLoadDataForFiltering w
    | FilterFile parsed => handleFilterFileProcess w parsed
    | ContaminantFile parsed => handleContaminantFileProcess w parsed
    | PastedList contaminantText => handleProcessPastedList w contaminantText
    | ApplyFilter => handleApplyFilter w
    | UndoFilter => handleUndoFilter w
    end
  else w.

Definition run (events : list event) : state := fold_left dispatch events initial.
End Handlers.
End Tools.

(** ** Text measures used to state the import step *)

(** The number of occurrences of a character in a text. *)
Fixpoint count_char (c : ascii) (s : string) : nat :=
  match s with
  | EmptyString => 0
  | String x s' => (if Ascii.eqb x c then 1 else 0) + count_char c s'
  end.

(** The text holds the letter [c], in either case. *)
Fixpoint has_letter (c : ascii) (s : string) : bool :=
  match s with
  | EmptyString => false
  | String x s' => Ascii.eqb (fold_case c) (fold_case x) || has_letter c s'
  end.

(** The text [u] is the pattern [p] up to the case of its letters. *)
Fixpoint same_letters (p u : string) : bool :=
  match p, u with
  | EmptyString, EmptyString => true
  | String a p', String c u' =>
      Ascii.eqb (fold_case a) (fold_case c) && same_letters p' u'
  | _, _ => false
  end.

(** A file as Mzmine exports it, with the three keys in [Filename]. *)
Definition mzmine_table_ex : TableData :=
  mkTable ["Filename"; "CON_1"]
    [ {[ "Filename" := CStr "12/mz 301.1/5.2 min"; "CON_1" := CNum 50 ]};
      {[ "Filename" := CStr "13/302.25MZ/0.7Min/extra"; "CON_1" := CNum 80 ]};
      {[ "Filename" := CStr "blank"; "CON_1" := CNum 10 ]} ].

(** A merged table with the seven columns the arbiter reads. *)
Definition annotate_table_ex : TableData :=
  mkTable ["ID"; "Compound_Name"; "name"; "MQScore"; "LibraryQualityString";
           "SharedPeaks"; "MZErrorPPM"; "ConfidenceScoreExact"]
    [ <["ID" := CStr "1"]> (arbiter_row "0.95" "0.5");
      <["ID" := CStr "2"]> (arbiter_row "0.95" "0.85");
      {[ "ID" := CStr "3"; "Compound_Name" := CNull; "name" := CNull ]} ].

(** ** The tolerance merge, row by row *)

Section MergeSpec2.
Context `{JSHost}.

(** What a base row becomes with the upload row [m] matched to it, or with
    none: each append column holds the value of [m], or [null] where [m]
    has none. *)
Definition merged_with (appendCols : list string) (m : option TableRow)
    (baseRow out : TableRow) : Prop :=
  match m with
  | Some m =>
      forall col, out !! col =
        if bool_decide (col ∈ appendCols)
        then Some (match m !! col with
                   | Some (CStr s) => CStr s
                   | Some (CNum x) => CNum x
                   | Some CNull | None => CNull
                   end)
        else baseRow !! col
  | None => out = baseRow
  end.

(** The key of a mass: the number with three decimals. *)
Definition mass_key (v : option cell) : string := toFixed3 (Number v).

(** The last row of the upload whose mass is a number with the key [k]. *)
Definition last_with_mass (incoming : list TableRow) (k : string) : option TableRow :=
  last (List.filter (fun r : TableRow =>
                       not_nullish (r !! "ionMass") &&
                       negb (isNaN (Number (r !! "ionMass"))) &&
                       String.eqb (mass_key (r !! "ionMass")) k)
          incoming).

(** A base mass that is looked up: not null, not blank and a number. *)
Definition has_base_mass (mz : option cell) : bool :=
  not_nullish mz && nonempty (trim (String_ mz)) && negb (isNaN (Number mz)).

(** The upload row matched to the base row at [index]: the mass is read in
    the net table, at the same index. *)
Definition mass_matched_row (netRows incoming : list TableRow) (baseMzKey : string)
    (index : nat) : option TableRow :=
  let mz :=
    match netRows !! index with
    | Some netRow => netRow !! baseMzKey
    | None => None
    end in
  if has_base_mass mz then last_with_mass incoming (mass_key mz) else None.
End MergeSpec2.

(** ** Dereplication, row by row *)

Section DerepSpec.
Context `{JSHost}.

(** The annotation under which a row is grouped. *)
Definition annotation_key (row : TableRow) : string :=
  trim (String_ (row !! "Final_Annotation")).

(** The rows annotated [k], in the order of the table. *)
Definition in_group (k : string) (row : TableRow) : bool :=
  has_annotation row && String.eqb (annotation_key row) k.
Definition members (k : string) (rows : list TableRow) : list TableRow :=
  List.filter (in_group k) rows.

(** The annotations of a table, in the order of their first row. *)
Definition group_keys (rows : list TableRow) : list string :=
  uniq (map annotation_key (List.filter has_annotation rows)).

(** The row written for [row] in a table [rows]: decided by the rows that
    share its annotation. *)
Definition verdict (bioCols qcCols : list string) (rows : list TableRow)
    (row : TableRow) : TableRow :=
  if has_annotation row then
    let group := members (annotation_key row) rows in
    if Nat.leb (length group) 1 then <[f_status := CStr Retained]> row
    else mark (select_winner bioCols (candidates_of bioCols qcCols group)) row
  else <[f_status := CStr Retained]> row.

(** A row passes stage 1: its missing rate is not above 50, and it has
    fewer than two QC values or an RSD not above 30 with a mean other than
    [0]. *)
Definition passes_stage1 (bioCols qcCols : list string) (row : TableRow) : bool :=
  negb (num_gt (missingRate bioCols row) 50) &&
  (Nat.ltb (length (qcValues qcCols row)) 2 ||
   negb (PrimFloat.eqb (mean (qcValues qcCols row)) 0) &&
   negb (num_gt (rsd_of (qcValues qcCols row)) 30)).

(** A row as a file gives it: without the fields the engine adds. *)
Definition plain (row : TableRow) : Prop :=
  row !! f_status = None /\ row !! f_qc_rsd = None /\ row !! f_avg_intensity = None.
End DerepSpec.

(** ** The missing rate on counts *)

(** The rate computed for [n] biological columns of which [k] hold a
    number above [0]. *)
Definition missing_rate_of (n k : Z) : float :=
  ((PrimFloat.of_uint63 (Uint63.of_Z n) - PrimFloat.of_uint63 (Uint63.of_Z k)) /
   PrimFloat.of_uint63 (Uint63.of_Z n) * 100)%float.

(** [f] holds of the [fuel] integers from [z] on. *)
Fixpoint forall_from (fuel : nat) (z : Z) (f : Z -> bool) : bool :=
  match fuel with
  | O => true
  | S fuel' => f z && forall_from fuel' (z + 1)%Z f
  end.

(** For every [n] from [N] down to [0] and every [k] up to [n], the rate
    is above 50 exactly when [k] is less than half of [n]; [n] is [N] as an
    integer. *)
Fixpoint threshold_rows (N : nat) (n : Z) : bool :=
  forall_from (S N) 0%Z
    (fun k => Bool.eqb (num_gt (missing_rate_of n k) 50) (2 * k <? n)%Z) &&
  match N with
  | O => true
  | S N' => threshold_rows N' (n - 1)
  end.

(** The number of biological columns of a row that hold a number above
    [0]. *)
Definition present_count `{JSHost} (bioCols : list string) (row : TableRow) : nat :=
  length (List.filter (fun v => num_gt v 0) (bioValues bioCols row)).

(** ** Tables for the exclusion list and the explanation tool *)

Definition pasted_names_ex : list string := ["Caffeine"; "Glucose"; "PEG 400"].

(** A dereplicated table: two retained rows of two annotations, a removed
    row and a retained row without annotation. *)
Definition explained_table_ex : TableData :=
  mkTable ["ID"; "Final_Annotation"]
    [ {[ "ID" := CStr "1"; "Final_Annotation" := CStr "Caffeine ";
         "_derep_status" := CStr Retained ]};
      {[ "ID" := CStr "2"; "Final_Annotation" := CStr "Caffeine";
         "_derep_status" := CStr Removed ]};
      {[ "ID" := CStr "3"; "Final_Annotation" := CStr "Glucose";
         "_derep_status" := CStr Retained ]};
      {[ "ID" := CStr "4"; "Final_Annotation" := CNull;
         "_derep_status" := CStr Retained ]};
      {[ "ID" := CStr "5"; "Final_Annotation" := CStr " Caffeine";
         "_derep_status" := CStr Retained ]} ].

(** ** The answers of the service, as the table of the explanation shows
    them *)

(** The value an object holds under a key: that of the last field with
    this key. *)
Fixpoint field_of (fields : list (string * json)) (k : string) : option json :=
  match fields with
  | [] => None
  | (k', v) :: rest =>
      match field_of rest k with
      | Some later => Some later
      | None => if String.eqb k' k then Some v else None
      end
  end.

(** An answer given under a name: an object whose [englishName] is this
    text. *)
Definition answers (name : string) (res : json) : bool :=
  match res with
  | JObj fields =>
      match field_of fields "englishName" with
      | Some (JStr s) => String.eqb s name
      | _ => false
      end
  | _ => false
  end.

(** What the table shows for a key of the answer: its value, or the text
    of the failure when there is no answer, no such key, or the value is
    [null], [false], the empty text, [0] or [NaN]. *)
Definition shown (answer : option json) (k fallback : string) : json :=
  match answer with
  | Some (JObj fields) =>
      match field_of fields k with
      | Some (JStr s) => if String.eqb s EmptyString then JStr fallback else JStr s
      | Some (JNum x) =>
          if PrimFloat.eqb x 0 || negb (PrimFloat.eqb x x) then JStr fallback else JNum x
      | Some (JBool true) => JBool true
      | Some (JArr items) => JArr items
      | Some (JObj inner) => JObj inner
      | Some (JBool false) | Some JNull | None => JStr fallback
      end
  | _ => JStr fallback
  end.

(** Answers for three names: one name answered twice, one left without
    translation, one not answered; and a text that is not an object. *)
Definition results_ex : list json :=
  [ JObj [("englishName", JStr "Caffeine"); ("chineseTranslation", JStr "咖啡");
          ("classification", JStr "内源性代谢物")];
    JObj [("englishName", JStr "Glucose"); ("chineseTranslation", JStr EmptyString);
          ("classification", JStr "内源性代谢物")];
    JStr "Inosine";
    JObj [("englishName", JStr "Caffeine"); ("chineseTranslation", JStr "咖啡因");
          ("classification", JStr "植物/微生物代谢物")] ].

(** ** The invariant of the workflow *)

Section WorkflowSpec.
Context `{JSHost}.

(** The rows of the merged table stand, one for one, for the rows of the
    net table: same identifier and same mass at each place. *)
Definition aligned (net merged : TableData) : Prop :=
  Forall2 (fun n m : TableRow => m !! "ID" = n !! "ID" /\ m !! "MZ" = n !! "MZ")
    (rows net) (rows merged).

(** What holds of the variables of the workflow as long as no reset is
    confirmed while a file is being read. *)
Definition consistent (w : Workflow.state) : Prop :=
  Workflow.currentStep w <= 6 /\
  length (Workflow.dataHistory w) = Workflow.currentStep w /\
  Forall is_Some (Workflow.dataHistory w) /\
  match Workflow.currentStep w with
  | 0 => Workflow.netTable w = None /\ Workflow.mergedData w = None
  | S _ =>
      exists net merged,
        Workflow.netTable w = Some net /\ Workflow.mergedData w = Some merged /\
        head (Workflow.dataHistory w) = Some (Some net) /\
        last (Workflow.dataHistory w) = Some (Some merged) /\
        "ID" ∈ headers net /\ "MZ" ∈ headers net /\
        aligned net merged
  end /\
  (Workflow.MergeFailed BaseDataLost ∉ Workflow.reported w) /\
  (Workflow.AnnotateFailed NoDataToAnnotate ∉ Workflow.reported w) /\
  (forall cols, Workflow.ImportFailed (StillMissingColumns cols) ∉ Workflow.reported w).

(** What holds of the calls that wait: at most one call awaits the parser,
    the flag is up while it does, and a call of [handleFileProcess] that
    waits holds the variables as they still are. *)
Definition one_reader (w : Workflow.state) : Prop :=
  (Workflow.isLoading w = false -> Workflow.idle w = true) /\
  length (Workflow.awaiting w) + Workflow.loaders w <= 1 /\
  Forall (fun c => c = Workflow.mkClosure (Workflow.currentStep w) (Workflow.mergedData w)
                        (Workflow.netTable w) /\
                   (Workflow.c_currentStep c = 0 \/ Workflow.c_currentStep c = 2 \/
                    Workflow.c_currentStep c = 3 \/ Workflow.c_currentStep c = 4))
    (Workflow.awaiting w).
End WorkflowSpec.

(** Uploads for a session of the workflow on the table [mzmine_table_ex]. *)
Definition fbmn_upload_ex : TableData :=
  mkTable ["ID"; "Compound_Name"; "MQScore"; "LibraryQualityString"; "SharedPeaks";
           "MZErrorPPM"]
    [ {[ "ID" := CStr "12"; "Compound_Name" := CStr "Caffeine"; "MQScore" := CStr "0.95";
         "LibraryQualityString" := CStr "Gold"; "SharedPeaks" := CNum 12;
         "MZErrorPPM" := CStr "-1.5" ]};
      {[ "ID" := CStr "99"; "Compound_Name" := CStr "Inosine"; "MQScore" := CStr "0.5";
         "LibraryQualityString" := CStr "Bronze"; "SharedPeaks" := CNum 3;
         "MZErrorPPM" := CStr "7" ]} ].
Definition sirius_upload_ex : TableData :=
  mkTable ["ID"; "name"; "ConfidenceScoreExact"]
    [ {[ "ID" := CStr "12"; "name" := CStr "Theobromine";
         "ConfidenceScoreExact" := CStr "0.5" ]};
      {[ "ID" := CStr "13"; "name" := CStr "Glucose";
         "ConfidenceScoreExact" := CStr "0.9" ]} ].
Definition supplementary_upload_ex : TableData :=
  mkTable ["ionMass"; "InChI"]
    [ {[ "ionMass" := CNum 302.2504; "InChI" := CStr "InChI=1S/C6H12O6" ]} ].

(** A session: the import, the confirmation, a file of the wrong kind (it
    is refused), the three uploads with a file that cannot be parsed and the
    upload of a tool in between, a reset while nothing is being read
    followed by the same steps again, and the annotation. *)
Definition steps_ex : list Workflow.event :=
  [ Workflow.ChooseFile; Workflow.ParserSettles 0 (Some mzmine_table_ex);
    Workflow.Continue;
    Workflow.ChooseFile; Workflow.ParserSettles 0 (Some supplementary_upload_ex);
    Workflow.ChooseFile; Workflow.ParserSettles 0 (Some fbmn_upload_ex);
    Workflow.LoaderStarts; Workflow.ChooseFile; Workflow.LoaderSettles;
    Workflow.ChooseFile; Workflow.ParserSettles 0 (Some sirius_upload_ex);
    Workflow.ChooseFile; Workflow.ParserSettles 0 None;
    Workflow.ChooseFile; Workflow.ParserSettles 0 (Some supplementary_upload_ex);
    Workflow.GenerateAnnotation;
    Workflow.Continue ].
Definition session_ex : list Workflow.event :=
  [ Workflow.ChooseFile; Workflow.ParserSettles 0 (Some mzmine_table_ex);
    Workflow.Reset ] ++ steps_ex.

(** A session in which the reset is confirmed while the file of the third
    step is being read: the call goes on after the reset with the step and
    the tables of before. *)
Definition hasty_session_ex : list Workflow.event :=
  [ Workflow.ChooseFile; Workflow.ParserSettles 0 (Some mzmine_table_ex);
    Workflow.Continue;
    Workflow.ChooseFile;
    Workflow.Reset;
    Workflow.ParserSettles 0 (Some fbmn_upload_ex) ].

(** ** The invariant of the two tools *)

Section ToolsSpec.
Context `{JSHost}.

(** While an operation is applied, the table kept for undoing is the one
    it was applied to, and the table shown is its result; while the filter
    is not applied nothing is kept for it, and while dereplication is not
    applied the table kept, if any, is the table shown. *)
Definition tools_consistent (w : Tools.state) : Prop :=
  (if Tools.isDereplicated w then
     exists before result,
       Tools.dataBeforeDereplication w = Some before /\
       Tools.dereplicationData w = Some result /\
       handleDereplication (Some before) = Ok result
   else
     Tools.dataBeforeDereplication w = None \/
     Tools.dataBeforeDereplication w = Tools.dereplicationData w) /\
  (if Tools.isFiltered w then
     exists before names result,
       Tools.dataBeforeFilter w = Some before /\
       Tools.filterToolData w = Some result /\
       handleApplyFilter (Some before) (Some names) = Ok result
   else Tools.dataBeforeFilter w = None).
End ToolsSpec.

(** A session in the tools: a table is dereplicated, handed to the filter,
    filtered with a pasted list, and both operations are undone. *)
Definition tools_session_ex : list Tools.event :=
  [ Tools.UndoFilter;
    Tools.DereplicationFile (Some interleaved_table);
    Tools.Dereplicate;
    Tools.LoadDataForFiltering;
    Tools.PastedList "Glucose";
    Tools.ApplyFilter;
    Tools.ApplyFilter;
    Tools.UndoFilter;
    Tools.UndoDereplication ].
(** * Properties *)

(** ** The annotation arbiter *)

Section ArbiterFacts.
Context `{JSHost}.

Lemma name_text_read (v : option cell) : String_ (or_empty v) = name_text v.
Proof.
  unfold or_empty, truthy, isNaN.
  destruct v as [[s | x |] |]; cbn [String_ name_text]; try done.
  - by destruct (String.eqb_spec s EmptyString) as [-> | _].
  - by destruct (_ || _).
Qed.

Lemma score_text_read (v : option cell) : String_ v = score_text v.
Proof. by destruct v as [[s | x |] |]. Qed.

Lemma isFbmnStrong_strongA (row : TableRow) : isFbmnStrong row = strongA (sourceA_of row).
Proof.
  unfold isFbmnStrong, strongA, parses, sourceA_of, isNaN, num_gt, num_lt.
  cbn [mqScore libraryQuality sharedPeaks mzErrorPpm]. cbv zeta.
  rewrite name_text_read, (score_text_read (row !! "MQScore")),
    (score_text_read (row !! "SharedPeaks")), (score_text_read (row !! "MZErrorPPM")).
  destruct (PrimFloat.eqb (parseFloat (score_text (row !! "MQScore"))) _);
    destruct (PrimFloat.eqb (parseInt (score_text (row !! "SharedPeaks"))) _);
    destruct (PrimFloat.eqb (parseFloat (score_text (row !! "MZErrorPPM"))) _);
    cbn [negb andb]; try reflexivity;
    repeat (rewrite ?andb_false_r, ?andb_true_r, ?andb_false_l; cbn [andb]);
    try reflexivity.
Qed.

Lemma isSiriusStrong_strongB (row : TableRow) : isSiriusStrong row = strongB (sourceB_of row).
Proof.
  unfold isSiriusStrong, strongB, parses, sourceB_of, isNaN, num_gt.
  cbn [confidenceScore]. rewrite score_text_read.
  by destruct (PrimFloat.eqb _ _).
Qed.

(** C4: on every row the arbiter returns the label of the decision table
    applied to the inputs of the two sources, read from the row apart from
    the arbiter: the empty string when both names are empty, the one that
    is present when only one is, A's spelling when the two agree up to
    case, and otherwise B when both sources are strong, A when only A is,
    B when only B is, and A by default; [strongA] asks every numeric field
    to parse and to pass its threshold and the quality to be [Gold],
    [strongB] asks the confidence score to parse and to be above [0.8]. *)
Theorem determineFinalAnnotation_resolve (row : TableRow) :
  determineFinalAnnotation row = resolve (sourceA_of row) (sourceB_of row) /\
  isFbmnStrong row = strongA (sourceA_of row) /\
  isSiriusStrong row = strongB (sourceB_of row).
Proof.
  split; [| split; [apply isFbmnStrong_strongA | apply isSiriusStrong_strongB]].
  unfold determineFinalAnnotation, resolve, nonempty.
  rewrite isFbmnStrong_strongA, isSiriusStrong_strongB.
  unfold compoundName_of, siriusName_of. rewrite !name_text_read.
  change (compoundName (sourceA_of row)) with (trim (name_text (row !! "Compound_Name"))).
  change (siriusName (sourceB_of row)) with (trim (name_text (row !! "name"))).
  destruct (String.eqb (trim (name_text (row !! "Compound_Name"))) EmptyString);
    destruct (String.eqb (trim (name_text (row !! "name"))) EmptyString);
    cbn [negb andb]; try reflexivity.
  destruct (String.eqb _ _); [reflexivity |].
  destruct (strongA _), (strongB _); reflexivity.
Qed.
End ArbiterFacts.

(** The rules on rows: agreement up to case, each source alone, both
    strong, neither, and a score that does not parse. *)
Example arbiter_run :
  determineFinalAnnotation {[ "Compound_Name" := CStr "Caffeine"; "name" := CStr "CAFFEINE " ]}
    = "Caffeine" /\
  determineFinalAnnotation {[ "Compound_Name" := CNull; "name" := CStr "Theobromine" ]}
    = "Theobromine" /\
  determineFinalAnnotation {[ "Compound_Name" := CStr "  "; "MQScore" := CNum 1 ]} = EmptyString /\
  determineFinalAnnotation (arbiter_row "0.95" "0.5") = "Caffeine" /\
  determineFinalAnnotation (arbiter_row "0.95" "0.85") = "Theobromine" /\
  determineFinalAnnotation (arbiter_row "0.9" "0.85") = "Theobromine" /\
  determineFinalAnnotation (arbiter_row "0.9" "0.8") = "Caffeine" /\
  determineFinalAnnotation (arbiter_row "n/a" "0.85") = "Theobromine" /\
  isFbmnStrong (arbiter_row "n/a" "0.85") = false.
Proof. repeat split; vm_compute; reflexivity. Qed.

(** ** The contaminant filter *)

Section FilterFacts.
Context `{JSHost}.

Lemma filter_keep_missing (S : gset string) (row : TableRow) :
  annotation_missing row = true -> filter_keep S row = true.
Proof.
  unfold annotation_missing, filter_keep.
  destruct (not_nullish (row !! "Final_Annotation")); cbn [negb orb]; [| done].
  intros ->. done.
Qed.

Lemma filter_keep_contaminant (S : gset string) (row : TableRow) :
  EmptyString ∉ S -> filter_keep S row = negb (is_contaminant S row).
Proof.
  intros Hempty. unfold filter_keep, is_contaminant.
  destruct (not_nullish (row !! "Final_Annotation")); cbn [negb andb]; [| done].
  destruct (String.eqb_spec (trim (String_ (row !! "Final_Annotation"))) EmptyString) as [-> | _];
    [| done].
  by rewrite bool_decide_eq_false_2.
Qed.

Lemma filter_filter_same {A : Type} (p : A -> bool) (l : list A) :
  List.filter p (List.filter p l) = List.filter p l.
Proof.
  induction l as [| x l IH]; [done |]. cbn [List.filter].
  destruct (p x) eqn:Hp; [| done]. cbn [List.filter]. by rewrite Hp, IH.
Qed.

Lemma filter_ext_bool {A : Type} (p q : A -> bool) (l : list A) :
  (forall x, p x = q x) -> List.filter p l = List.filter q l.
Proof. intros Hpq. induction l as [| x l IH]; cbn; [done |]. by rewrite Hpq, IH. Qed.

Lemma filter_sublist {A : Type} (p : A -> bool) (l : list A) :
  sublist (List.filter p l) l.
Proof.
  induction l as [| x l IH]; cbn; [constructor |].
  destruct (p x); by constructor.
Qed.

(** The exclusion sets the two loaders build never hold the empty name. *)
Lemma contaminant_names_nonempty (data : TableData) : EmptyString ∉ contaminant_names data.
Proof.
  unfold contaminant_names, Set_of. rewrite elem_of_list_to_set, list_elem_of_In.
  intros [_ Hne]%filter_In. discriminate.
Qed.

(** C9: with an exclusion set [S] as the loaders build it (not empty,
    without the empty name), the filter succeeds on every table, removes
    exactly the rows whose trimmed annotation is in [S], in place and with
    their multiplicity, keeps every row whose annotation is empty or
    missing, and applied again with the same set returns the same table. *)
Theorem handleApplyFilter_exact_idempotent (T : TableData) (S : gset string)
    (Hsize : size S <> 0) (Hempty : EmptyString ∉ S) :
  exists T',
    handleApplyFilter (Some T) (Some S) = Ok T' /\
    headers T' = headers T /\
    rows T' = List.filter (fun row => negb (is_contaminant S row)) (rows T) /\
    (forall row, row ∈ rows T -> annotation_missing row = true -> row ∈ rows T') /\
    handleApplyFilter (Some T') (Some S) = Ok T'.
Proof.
  assert (Hguard : Nat.eqb (size S) 0 = false) by by apply Nat.eqb_neq.
  exists (mkTable (headers T) (List.filter (filter_keep S) (rows T))).
  unfold handleApplyFilter. rewrite Hguard. cbn [headers rows].
  split_and!; [done | done | | |].
  - apply filter_ext_bool. intros row. by apply filter_keep_contaminant.
  - intros row Hin Hmiss. rewrite list_elem_of_In, filter_In, <- list_elem_of_In.
    split; [done |]. by apply filter_keep_missing.
  - by rewrite filter_filter_same.
Qed.
End FilterFacts.


Lemma handleApplyFilter_witness :
  exists T',
    handleApplyFilter (Some filter_table_ex) (Some {[ "Caffeine" ]}) = Ok T' /\
    headers T' = headers filter_table_ex /\
    rows T' = List.filter (fun row => negb (is_contaminant {[ "Caffeine" ]} row))
                (rows filter_table_ex) /\
    (forall row, row ∈ rows filter_table_ex -> annotation_missing row = true ->
                 row ∈ rows T') /\
    handleApplyFilter (Some T') (Some {[ "Caffeine" ]}) = Ok T'.
Proof.
  apply (handleApplyFilter_exact_idempotent filter_table_ex {[ "Caffeine" ]}).
  - rewrite size_singleton. lia.
  - rewrite elem_of_singleton. discriminate.
Defined.

Example handleApplyFilter_run :
  handleApplyFilter (Some filter_table_ex) (Some {[ "Caffeine" ]}) =
  Ok (mkTable ["ID"; "Final_Annotation"]
        [ {[ "ID" := CStr "2"; "Final_Annotation" := CNull ]};
          {[ "ID" := CStr "3"; "Final_Annotation" := CStr "Glucose" ]};
          {[ "ID" := CStr "4"; "Final_Annotation" := CStr "  " ]} ]).
Proof. vm_compute. reflexivity. Qed.

(** ** The table merge *)

Section MergeFacts.
Context `{JSHost}.

Lemma Map_of_snoc {V : Type} (entries : list (string * V)) (k : string) (v : V) :
  Map_of (entries ++ [(k, v)]) = <[k := v]> (Map_of entries).
Proof. unfold Map_of. by rewrite fold_left_app. Qed.

(** Last write wins: the map holds, under each key, the value of the last
    entry with that key. *)
Lemma Map_of_lookup {V : Type} (entries : list (string * V)) (k : string) :
  Map_of entries !! k =
  last (map snd (List.filter (fun kv => String.eqb kv.1 k) entries)).
Proof.
  induction entries as [| [k' v] entries IH] using rev_ind; [done |].
  rewrite Map_of_snoc, List.filter_app, map_app. cbn [List.filter fst].
  destruct (String.eqb_spec k' k) as [-> | Hne].
  - cbn [map snd]. by rewrite lookup_insert_eq, last_snoc.
  - cbn [map]. rewrite app_nil_r, lookup_insert_ne; done.
Qed.

Lemma filter_map_comm {A B : Type} (f : A -> B) (p : B -> bool) (l : list A) :
  List.filter p (map f l) = map f (List.filter (fun x => p (f x)) l).
Proof.
  induction l as [| x l IH]; [done |]. cbn. destruct (p (f x)); cbn; by rewrite IH.
Qed.

Lemma filter_filter_and {A : Type} (p q : A -> bool) (l : list A) :
  List.filter q (List.filter p l) = List.filter (fun x => p x && q x) l.
Proof.
  induction l as [| x l IH]; [done |]. cbn.
  destruct (p x); cbn; [destruct (q x) |]; by rewrite IH.
Qed.

Lemma last_map {A B : Type} (f : A -> B) (l : list A) :
  last (map f l) = f <$> last l.
Proof.
  induction l as [| x l IH] using rev_ind; [done |].
  rewrite map_app. cbn [map]. by rewrite !last_snoc.
Qed.

(** The last element that passes a test: the one with none after it. *)
Lemma last_filter_Some {A : Type} (p : A -> bool) (l : list A) (m : A) :
  last (List.filter p l) = Some m <->
  exists before after, l = before ++ m :: after /\ p m = true /\
                       Forall (fun x => p x = false) after.
Proof.
  induction l as [| x l IH] using rev_ind.
  - split; [done |]. intros (before & after & Heq & _). by destruct before.
  - rewrite List.filter_app. cbn [List.filter]. destruct (p x) eqn:Hx.
    + rewrite last_snoc. split.
      * intros [= ->]. exists l, []. by split_and!.
      * intros (before & after & Heq & Hm & Hafter).
        destruct after as [| y after _] using rev_ind.
        -- apply (app_inj_tail l before x m) in Heq as [_ ->]. done.
        -- rewrite app_comm_cons, app_assoc in Heq.
           apply app_inj_tail in Heq as [_ ->].
           rewrite Forall_app, Forall_singleton in Hafter. destruct Hafter as [_ Hy].
           congruence.
    + rewrite app_nil_r, IH. split.
      * intros (before & after & -> & Hm & Hafter). exists before, (after ++ [x]).
        split_and!; [by rewrite <- app_assoc | done |].
        apply Forall_app. split; [done | by apply Forall_singleton].
      * intros (before & after & Heq & Hm & Hafter).
        destruct after as [| y after _] using rev_ind.
        -- apply (app_inj_tail l before x m) in Heq as [_ ->]. congruence.
        -- rewrite app_comm_cons, app_assoc in Heq.
           apply app_inj_tail in Heq as [-> ->].
           apply Forall_app in Hafter as [Hafter _]. by exists before, after.
Qed.

Lemma last_filter_None {A : Type} (p : A -> bool) (l : list A) :
  Forall (fun x => p x = false) l -> last (List.filter p l) = None.
Proof.
  induction 1 as [| x l Hx _ IH]; [done |]. cbn [List.filter]. by rewrite Hx.
Qed.

(** The key of the specification is the key the handler computes. *)
Lemma exact_key_read (row : TableRow) :
  exact_key row = if has_id_key row then Some (id_key row) else None.
Proof.
  unfold exact_key, has_id_key, id_key, nonempty.
  destruct (row !! "ID") as [[s | x |] |]; cbn [not_nullish String_ andb]; try done.
  - by destruct (String.eqb _ _).
  - by destruct (String.eqb _ _).
Qed.

Lemma exact_key_test (row : TableRow) (k : string) :
  has_id_key row && String.eqb (id_key row) k = bool_decide (exact_key row = Some k).
Proof.
  rewrite exact_key_read. destruct (has_id_key row); cbn [andb].
  - destruct (String.eqb_spec (id_key row) k) as [-> | Hne].
    + by rewrite bool_decide_eq_true_2.
    + rewrite bool_decide_eq_false_2; [done |]. by intros [=].
  - by rewrite bool_decide_eq_false_2.
Qed.

Lemma id_matchMap_lookup (incoming : list TableRow) (k : string) :
  id_matchMap incoming !! k =
  last (List.filter (fun r => bool_decide (exact_key r = Some k)) incoming).
Proof.
  unfold id_matchMap.
  rewrite Map_of_lookup, filter_map_comm, map_map, filter_filter_and.
  cbn [fst snd]. rewrite map_id. f_equal. apply List.filter_ext.
  intros row. apply exact_key_test.
Qed.

(** [v ?? null], case by case. *)
Lemma or_null_read (v : option cell) :
  or_null v =
  match v with
  | Some (CStr s) => CStr s
  | Some (CNum x) => CNum x
  | Some CNull | None => CNull
  end.
Proof. by destruct v as [[s | x |] |]. Qed.

Lemma newRowData_lookup (appendCols : list string) (m : TableRow) (col : string) :
  newRowData appendCols m !! col =
  if bool_decide (col ∈ appendCols) then Some (or_null (m !! col)) else None.
Proof.
  unfold newRowData.
  induction appendCols as [| c cols IH] using rev_ind; [done |].
  rewrite fold_left_app. cbn [fold_left].
  destruct (decide (c = col)) as [-> | Hne].
  - rewrite lookup_insert_eq, bool_decide_eq_true_2; [done |].
    rewrite elem_of_app, list_elem_of_singleton. by right.
  - rewrite lookup_insert_ne, IH by done.
    rewrite (bool_decide_ext (col ∈ cols ++ [c]) (col ∈ cols)); [done |].
    rewrite elem_of_app, list_elem_of_singleton. naive_solver.
Qed.

Lemma spread_lookup (baseRow extra : TableRow) (col : string) :
  spread baseRow extra !! col =
  match extra !! col with Some v => Some v | None => baseRow !! col end.
Proof.
  unfold spread. rewrite lookup_union.
  destruct (extra !! col), (baseRow !! col); done.
Qed.

Lemma merge_id_row_specified (appendCols : list string) (incoming : list TableRow)
    (baseRow : TableRow) :
  match exact_key baseRow with
  | None => merge_id_row appendCols (id_matchMap incoming) baseRow = baseRow
  | Some k =>
      (forall before m after,
         incoming = before ++ m :: after ->
         exact_key m = Some k ->
         Forall (fun r => exact_key r <> Some k) after ->
         forall col,
           merge_id_row appendCols (id_matchMap incoming) baseRow !! col =
           if bool_decide (col ∈ appendCols)
           then Some (match m !! col with
                      | Some (CStr s) => CStr s
                      | Some (CNum x) => CNum x
                      | Some CNull | None => CNull
                      end)
           else baseRow !! col) /\
      (Forall (fun r => exact_key r <> Some k) incoming ->
       merge_id_row appendCols (id_matchMap incoming) baseRow = baseRow)
  end.
Proof.
  unfold merge_id_row. rewrite exact_key_read.
  unfold has_id_key, id_key, nonempty.
  destruct (not_nullish (baseRow !! "ID")); cbn [negb orb andb]; [| done].
  destruct (String.eqb (trim (String_ (baseRow !! "ID"))) EmptyString); cbn [negb]; [done |].
  rewrite id_matchMap_lookup. split.
  - intros before m after Heq Hm Hafter.
    assert (Hlast : last (List.filter
                      (fun r => bool_decide (exact_key r = Some (trim (String_ (baseRow !! "ID")))))
                      incoming) = Some m).
    { apply last_filter_Some. exists before, after.
      split_and!; [done | by apply bool_decide_eq_true_2 |].
      eapply Forall_impl; [done |]. intros r Hr. by apply bool_decide_eq_false_2. }
    rewrite Hlast. intros col.
    rewrite spread_lookup, newRowData_lookup, or_null_read. by case_bool_decide.
  - intros Hnone. rewrite last_filter_None; [done |].
    eapply Forall_impl; [done |]. intros r Hr. by apply bool_decide_eq_false_2.
Qed.

Lemma required_present (required present : list string) :
  (forall col, col ∈ required -> col ∈ present) ->
  List.filter (fun col => negb (includes present col)) required = [].
Proof.
  intros Hall. induction required as [| c required IH]; [done |]. cbn.
  unfold includes at 1. rewrite bool_decide_eq_true_2 by (apply Hall; left).
  cbn. apply IH. intros col Hcol. apply Hall. by right.
Qed.

(** C5: the exact-key merge succeeds when the upload has the required
    columns, and every base row then becomes what the specification says.
    The key of a row is the trimmed text of its identifier, and a row whose
    identifier is null, absent or blank has none. A base row without key is
    never matched and is passed through as it is. A base row with a key
    is matched to the last row of the upload that carries this key: it
    receives, in each append column, the value of that row, or [null] where
    that row has none, and keeps its other columns. When no row of the
    upload carries the key, the base row is passed through as it is. *)
Theorem merge_exact_last_wins (stepConfig : ProcessingStep)
    (mergedData netTable data : TableData)
    (Hid : matchColumn stepConfig = "ID")
    (Hrequired : forall col, col ∈ requiredColumns stepConfig -> col ∈ headers data) :
  exists out unmatched,
    handleFileProcess stepConfig (Some mergedData) (Some netTable) data =
      Ok (out, unmatched) /\
    Forall2
      (fun baseRow outRow : TableRow =>
         match exact_key baseRow with
         | None => outRow = baseRow
         | Some k =>
             (forall before m after,
                rows data = before ++ m :: after ->
                exact_key m = Some k ->
                Forall (fun r => exact_key r <> Some k) after ->
                forall col,
                  outRow !! col =
                  if bool_decide (col ∈ appendColumns stepConfig)
                  then Some (match m !! col with
                             | Some (CStr s) => CStr s
                             | Some (CNum x) => CNum x
                             | Some CNull | None => CNull
                             end)
                  else baseRow !! col) /\
             (Forall (fun r => exact_key r <> Some k) (rows data) -> outRow = baseRow)
         end)
      (rows mergedData) (rows out).
Proof.
  unfold handleFileProcess. rewrite required_present by done. cbn [length Nat.eqb negb].
  rewrite Hid. cbn [String.eqb Ascii.eqb Bool.eqb]. eexists _, _. split; [done |].
  cbn [rows]. apply Forall2_fmap_r, Forall_Forall2_diag, Forall_forall.
  intros baseRow _. apply merge_id_row_specified.
Qed.
(** The unmatched keys of the exact-key merge have no duplicate and are the
    trimmed keys of the upload that are not in the key set of the base. *)
Lemma uniq_from_spec (seen : gset string) (l : list string) :
  NoDup (uniq_from seen l) /\
  forall x, x ∈ uniq_from seen l <-> x ∈ l /\ x ∉ seen.
Proof.
  revert seen. induction l as [| y l IH]; intros seen; cbn [uniq_from].
  - split; [constructor |]. intros x. rewrite elem_of_nil. naive_solver.
  - case_bool_decide as Hy.
    + destruct (IH seen) as [Hnd Hin]. split; [done |].
      intros x. rewrite Hin, elem_of_cons. naive_solver.
    + destruct (IH ({[y]} ∪ seen)) as [Hnd Hin]. split.
      * constructor; [| done]. rewrite Hin. set_solver.
      * intros x. rewrite elem_of_cons, Hin, elem_of_cons.
        destruct (decide (x = y)) as [-> | Hne]; set_solver.
Qed.

Lemma id_unmatched_spec (netRows incoming : list TableRow) :
  NoDup (id_unmatched netRows incoming) /\
  forall k, CStr k ∈ id_unmatched netRows incoming <->
    (exists row, row ∈ incoming /\ has_id_key row = true /\ id_key row = k) /\
    k ∉ baseIdSet netRows.
Proof.
  unfold id_unmatched, uniqueUploadedIds, uniq.
  set (keys := map (fun id => trim (String_ id)) (List.filter _ _)).
  destruct (uniq_from_spec ∅ keys) as [Hnd Hin].
  assert (Hkeys : forall k, k ∈ keys <->
            exists row, row ∈ incoming /\ has_id_key row = true /\ id_key row = k).
  { intros k. unfold keys. rewrite filter_map_comm, map_map.
    rewrite list_elem_of_In, in_map_iff. split.
    - intros (row & <- & [Hrow Hkey]%filter_In). exists row.
      by rewrite list_elem_of_In.
    - intros (row & Hrow & Hkey & <-). exists row. split; [done |].
      apply filter_In. by rewrite <- list_elem_of_In. }
  split.
  - assert (Inj (=) (=) CStr) by (by intros ?? [=]).
    apply (NoDup_fmap_2 CStr).
    clear -Hnd. induction Hnd as [| x l Hx Hnd IH]; cbn; [constructor |].
    destruct (negb _); [| done]. constructor; [| done].
    rewrite list_elem_of_In, filter_In, <- list_elem_of_In. naive_solver.
  - intros k. rewrite <- Hkeys. split.
    + intros (k' & [= <-] & Hk)%list_elem_of_fmap.
      apply list_elem_of_In, filter_In in Hk as [Hk Hbase].
      apply list_elem_of_In, Hin in Hk as [Hk _]. split; [done |].
      apply negb_true_iff, bool_decide_eq_false in Hbase. done.
    + intros [Hk Hbase]. apply list_elem_of_fmap. exists k. split; [done |].
      apply list_elem_of_In, filter_In. split.
      * apply list_elem_of_In, Hin. set_solver.
      * by apply negb_true_iff, bool_decide_eq_false.
Qed.
End MergeFacts.



Lemma merge_exact_witness :
  exists out unmatched,
    handleFileProcess step_fbmn (Some merge_base_ex) (Some merge_base_ex) merge_fbmn_ex =
      Ok (out, unmatched) /\
    Forall2
      (fun baseRow outRow : TableRow =>
         match exact_key baseRow with
         | None => outRow = baseRow
         | Some k =>
             (forall before m after,
                rows merge_fbmn_ex = before ++ m :: after ->
                exact_key m = Some k ->
                Forall (fun r => exact_key r <> Some k) after ->
                forall col,
                  outRow !! col =
                  if bool_decide (col ∈ appendColumns step_fbmn)
                  then Some (match m !! col with
                             | Some (CStr s) => CStr s
                             | Some (CNum x) => CNum x
                             | Some CNull | None => CNull
                             end)
                  else baseRow !! col) /\
             (Forall (fun r => exact_key r <> Some k) (rows merge_fbmn_ex) -> outRow = baseRow)
         end)
      (rows merge_base_ex) (rows out).
Proof.
  apply (merge_exact_last_wins step_fbmn merge_base_ex merge_base_ex merge_fbmn_ex).
  - reflexivity.
  - intros col ->%list_elem_of_singleton. left.
Defined.

(** The second base row is matched to the last upload row with key [2]; the
    first and the third are passed through; key [7] is reported. *)
Example merge_exact_run :
  handleFileProcess step_fbmn (Some merge_base_ex) (Some merge_base_ex) merge_fbmn_ex =
  Ok (mkTable
        ["ID"; "MZ"; "Compound_Name"; "NAME (中文翻译)"; "Adduct";
         "LibraryQualityString"; "MQScore"; "MZErrorPPM"; "SharedPeaks"]
        [ {[ "ID" := CStr "1"; "MZ" := CNum 100 ]};
          {[ "ID" := CStr " 2 "; "MZ" := CNum 180; "Compound_Name" := CStr "Y";
             "NAME (中文翻译)" := CNull; "Adduct" := CNull;
             "LibraryQualityString" := CNull; "MQScore" := CNull;
             "MZErrorPPM" := CNull; "SharedPeaks" := CNull ]};
          {[ "ID" := CNull; "MZ" := CNum 250 ]} ],
      [CStr "7"]).
Proof. vm_compute. reflexivity. Qed.


(** C3: on the tolerance merge the unmatched keys are not the deduplicated
    set of keys. Three rows of this upload carry the key [300.000], which no
    base row has: the merge reports the three raw masses, one of them twice,
    where the exact-key merge reports each trimmed key once
    ([id_unmatched_spec]). *)
Theorem merge_tolerance_unmatched_duplicates :
  snd <$> (match handleFileProcess step_supplementary (Some merge_base_ex)
                   (Some merge_base_ex) merge_mass_ex with
           | Ok r => Some r
           | Throw _ => None
           end) =
    Some [CNum 300.0001; CNum 300.0002; CNum 300.0001] /\
  map (fun row : TableRow => toFixed3 (Number (row !! "ionMass"))) (rows merge_mass_ex) =
    ["300.000"; "100.000"; "300.000"; "300.000"] /\
  ~ NoDup [CNum 300.0001; CNum 300.0002; CNum 300.0001].
Proof.
  split_and!; [by vm_compute | by vm_compute |].
  intros Hnd. apply NoDup_cons in Hnd as [Hnotin _]. apply Hnotin.
  apply list_elem_of_further, list_elem_of_here.
Qed.

(** The key set of the base is built from [String(row.ID)], which is
    ["null"] on a base row without identifier: an upload row with the key
    ["null"] is then not reported, although no base row is matched to it. *)
Example merge_exact_null_key :
  handleFileProcess step_fbmn
    (Some (mkTable ["ID"] [ {[ "ID" := CNull ]} ]))
    (Some (mkTable ["ID"] [ {[ "ID" := CNull ]} ]))
    (mkTable ["ID"; "Compound_Name"]
       [ {[ "ID" := CStr "null"; "Compound_Name" := CStr "X" ]} ]) =
  Ok (mkTable ["ID"; "Compound_Name"; "NAME (中文翻译)"; "Adduct";
               "LibraryQualityString"; "MQScore"; "MZErrorPPM"; "SharedPeaks"]
        [ {[ "ID" := CNull ]} ],
      []).
Proof. vm_compute. reflexivity. Qed.

(** ** The order of numbers

    [<] on numbers is the comparison of IEEE-754: a strict order on the
    numbers other than [NaN], total up to the two zeros. The facts below are
    read off [SFcompare], the specification of the primitive comparison. *)

Lemma SFcompare_antisym (a b : spec_float) :
  SFcompare b a = option_map CompOpp (SFcompare a b).
Proof.
  destruct a as [sa | sa | | sa ma ea], b as [sb | sb | | sb mb eb];
    try destruct sa; try destruct sb; cbn; try reflexivity.
  all: rewrite (Z.compare_antisym ea eb); destruct (Z.compare_spec ea eb); cbn;
    try reflexivity.
  all: fold (Pos.compare ma mb); fold (Pos.compare mb ma);
    rewrite (Pos.compare_antisym ma mb); destruct (Pos.compare ma mb); reflexivity.
Qed.

Ltac close_cmp :=
  intros; split; [reflexivity || discriminate
                 | intros [? | ?]; reflexivity || discriminate].

Lemma SFcompare_trans (a b c : spec_float) :
  cmp_le (SFcompare a b) = true -> cmp_le (SFcompare b c) = true ->
  cmp_le (SFcompare a c) = true /\
  (cmp_lt (SFcompare a b) = true \/ cmp_lt (SFcompare b c) = true ->
   cmp_lt (SFcompare a c) = true).
Proof.
  destruct a as [sa | sa | | sa ma ea], b as [sb | sb | | sb mb eb],
    c as [sc | sc | | sc mc ec];
    try destruct sa; try destruct sb; try destruct sc; cbn;
    try close_cmp; try discriminate.
  all: fold (Pos.compare ma mb); fold (Pos.compare mb mc); fold (Pos.compare ma mc).
  all: destruct (Z.compare_spec ea eb), (Z.compare_spec eb ec), (Z.compare_spec ea ec);
    try lia; cbn; try discriminate; try close_cmp.
  all: destruct (Pos.compare_spec ma mb), (Pos.compare_spec mb mc),
    (Pos.compare_spec ma mc); try lia; cbn; try discriminate; try close_cmp.
Qed.

Lemma SFcompare_total (a b : spec_float) :
  a <> S754_nan -> b <> S754_nan -> is_Some (SFcompare a b).
Proof. destruct a, b; cbn; try done; eauto. Qed.

Lemma num_lt_SF (x y : float) :
  num_lt x y = cmp_lt (SFcompare (Prim2SF x) (Prim2SF y)).
Proof.
  unfold num_lt. rewrite FloatAxioms.ltb_spec. unfold SFltb.
  by destruct (SFcompare _ _) as [[] |].
Qed.

Lemma num_gt_lt (x y : float) : num_gt x y = num_lt y x.
Proof. reflexivity. Qed.

Lemma num_le_SF (x y : float) :
  num_le x y = cmp_le (SFcompare (Prim2SF x) (Prim2SF y)).
Proof.
  unfold num_le. rewrite FloatAxioms.leb_spec. unfold SFleb.
  by destruct (SFcompare _ _) as [[] |].
Qed.

Lemma isNaN_SF (x : float) : isNaN x = false <-> Prim2SF x <> S754_nan.
Proof.
  unfold isNaN. rewrite FloatAxioms.eqb_spec. unfold SFeqb.
  destruct (Prim2SF x) as [s | s | | s m e]; cbn; try (destruct s); cbn;
    rewrite ?Z.compare_refl, ?Pos.compare_cont_refl; cbn; split; done.
Qed.

(** On numbers other than [NaN], what is not greater is less or equal. *)
Lemma num_not_lt_le (x y : float) :
  isNaN x = false -> isNaN y = false -> num_lt y x = false -> num_le x y = true.
Proof.
  rewrite !isNaN_SF, num_lt_SF, num_le_SF. intros Hx Hy.
  rewrite (SFcompare_antisym (Prim2SF x) (Prim2SF y)).
  destruct (SFcompare_total _ _ Hx Hy) as [c ->]. by destruct c.
Qed.

Lemma num_lt_le (x y : float) : num_lt x y = true -> num_le x y = true.
Proof. rewrite num_lt_SF, num_le_SF. by destruct (SFcompare _ _) as [[] |]. Qed.

Lemma num_le_lt_trans (x y z : float) :
  num_le x y = true -> num_lt y z = true -> num_lt x z = true.
Proof.
  rewrite num_le_SF, !num_lt_SF. intros Hxy Hyz.
  destruct (SFcompare_trans (Prim2SF x) (Prim2SF y) (Prim2SF z)) as [_ Hlt]; auto.
  by destruct (SFcompare (Prim2SF y) (Prim2SF z)) as [[] |].
Qed.

Lemma num_lt_le_trans (x y z : float) :
  num_lt x y = true -> num_le y z = true -> num_lt x z = true.
Proof.
  rewrite num_le_SF, !num_lt_SF. intros Hxy Hyz.
  destruct (SFcompare_trans (Prim2SF x) (Prim2SF y) (Prim2SF z)) as [_ Hlt]; auto.
  by destruct (SFcompare (Prim2SF x) (Prim2SF y)) as [[] |].
Qed.

Lemma num_lt_trans (x y z : float) :
  num_lt x y = true -> num_lt y z = true -> num_lt x z = true.
Proof. intros Hxy Hyz. eapply num_le_lt_trans; [by apply num_lt_le | done]. Qed.

Lemma num_le_trans (x y z : float) :
  num_le x y = true -> num_le y z = true -> num_le x z = true.
Proof.
  rewrite !num_le_SF. intros Hxy Hyz.
  by destruct (SFcompare_trans (Prim2SF x) (Prim2SF y) (Prim2SF z)) as [Hle _].
Qed.

Lemma num_le_not_lt (x y : float) : num_le x y = true -> num_lt y x = false.
Proof.
  rewrite num_le_SF, num_lt_SF, (SFcompare_antisym (Prim2SF x) (Prim2SF y)).
  by destruct (SFcompare _ _) as [[] |].
Qed.

Lemma num_lt_irrefl (x : float) : num_lt x x = false.
Proof.
  rewrite num_lt_SF.
  destruct (Prim2SF x) as [s | s | | s m e]; cbn; try (destruct s); cbn;
    rewrite ?Z.compare_refl, ?Pos.compare_cont_refl; done.
Qed.

Lemma num_le_refl (x : float) : isNaN x = false -> num_le x x = true.
Proof. intros Hx. apply num_not_lt_le; [done | done | apply num_lt_irrefl]. Qed.

Lemma num_lt_not_nan (x y : float) :
  num_lt x y = true -> isNaN x = false /\ isNaN y = false.
Proof.
  rewrite num_lt_SF, !isNaN_SF.
  destruct (Prim2SF x), (Prim2SF y); cbn; try done.
Qed.

(** ** Dereplication: the QC-stability stage *)

Section QcStage.
Context `{JSHost}.

Lemma has_status_insert_other (k : string) (v : cell) (row : TableRow) :
  k <> f_status -> has_status (<[k := v]> row) = has_status row.
Proof. intros Hk. unfold has_status. by rewrite lookup_insert_ne. Qed.

Lemma has_status_fresh (row : TableRow) : row !! f_status = None -> has_status row = false.
Proof.
  intros Hrow. unfold has_status. rewrite Hrow.
  by apply bool_decide_eq_false_2, is_Some_None.
Qed.

Lemma has_status_marked (s : string) (row : TableRow) :
  has_status (<[f_status := CStr s]> row) = true.
Proof. unfold has_status. rewrite lookup_insert_eq. by apply bool_decide_eq_true_2. Qed.

(** C6: a row that enters the QC-stability stage (not excluded for its
    missing rate, and carrying no status yet) is treated as follows. Its QC
    values are the numbers above [0] read in the QC columns. With fewer
    than two of them it passes, with RSD [0]. Otherwise, with [mean] their
    mean, it is marked [ExcludedUnstableQC] if [mean] is [0]; else, with
    the deviation taken over [n - 1] and [rsd] the deviation over the mean
    times [100], it is marked [ExcludedUnstableQC] exactly when [rsd > 30],
    and passes with that RSD when not. *)
Theorem qc_stage_spec (bioCols qcCols : list string) (row : TableRow)
    (Hfresh : row !! f_status = None)
    (Hmissing : num_gt (missingRate bioCols row) 50 = false) :
  let qc :=
    List.filter (fun v => negb (isNaN v) && num_gt v 0)
      (map (fun col => Number (row !! col)) qcCols) in
  let n := num_of_nat (length qc) in
  let mean := (sum qc / n)%float in
  let stddev :=
    PrimFloat.sqrt (sum (map (fun x => Math_pow (x - mean)%float 2) qc) / (n - 1))%float in
  let rsd := (stddev / mean * 100)%float in
  let candidate := candidate_of bioCols qcCols row in
  if Nat.ltb (length qc) 2 then
    candidate = <[f_qc_rsd := CNum 0]> row /\ has_status candidate = false
  else if PrimFloat.eqb mean 0 then
    candidate = <[f_status := CStr ExcludedUnstableQC]> row
  else
    (candidate !! f_status = Some (CStr ExcludedUnstableQC) <-> num_gt rsd 30 = true) /\
    (num_gt rsd 30 = false ->
     candidate = <[f_qc_rsd := CNum rsd]> row /\ has_status candidate = false).
Proof.
  intros qc n mean0 stddev rsd candidate.
  assert (Hpass : forall x, has_status (<[f_qc_rsd := CNum x]> row) = false).
  { intros x. rewrite has_status_insert_other by done. by apply has_status_fresh. }
  subst candidate. unfold candidate_of. rewrite Hmissing.
  fold qc. change (qcValues qcCols row) with qc.
  destruct (Nat.ltb (length qc) 2); [by split |].
  change (mean qc) with mean0.
  destruct (PrimFloat.eqb mean0 0); [done |].
  change (rsd_of qc) with rsd.
  destruct (num_gt rsd 30) eqn:Hrsd.
  - split; [| done]. by rewrite lookup_insert_eq.
  - split; [| by split].
    rewrite lookup_insert_ne, Hfresh by done. split; done.
Qed.
End QcStage.

Lemma qc_stage_witness :
  let row := qc_row_ex in
  let qc :=
    List.filter (fun v => negb (isNaN v) && num_gt v 0)
      (map (fun col => Number (row !! col)) ["QC-1"; "QC-2"; "QC-3"]) in
  let n := num_of_nat (length qc) in
  let mean := (sum qc / n)%float in
  let stddev :=
    PrimFloat.sqrt (sum (map (fun x => Math_pow (x - mean)%float 2) qc) / (n - 1))%float in
  let rsd := (stddev / mean * 100)%float in
  let candidate := candidate_of ["CON_1"; "HBO_1"] ["QC-1"; "QC-2"; "QC-3"] row in
  if Nat.ltb (length qc) 2 then
    candidate = <[f_qc_rsd := CNum 0]> row /\ has_status candidate = false
  else if PrimFloat.eqb mean 0 then
    candidate = <[f_status := CStr ExcludedUnstableQC]> row
  else
    (candidate !! f_status = Some (CStr ExcludedUnstableQC) <-> num_gt rsd 30 = true) /\
    (num_gt rsd 30 = false ->
     candidate = <[f_qc_rsd := CNum rsd]> row /\ has_status candidate = false).
Proof.
  apply (qc_stage_spec ["CON_1"; "HBO_1"] ["QC-1"; "QC-2"; "QC-3"] qc_row_ex).
  - reflexivity.
  - reflexivity.
Defined.

(** The row of the example passes with RSD [5]. *)
Example qc_stage_run :
  candidate_of ["CON_1"; "HBO_1"] ["QC-1"; "QC-2"; "QC-3"] qc_row_ex =
  <[f_qc_rsd := CNum 5]> qc_row_ex.
Proof. vm_compute. reflexivity. Qed.

(** ** Dereplication: the choice of the winner *)

Lemma num_le_antisym (x y : float) :
  num_le x y = true -> num_le y x = true -> PrimFloat.eqb x y = true.
Proof.
  rewrite !num_le_SF, FloatAxioms.eqb_spec. unfold SFeqb.
  rewrite (SFcompare_antisym (Prim2SF x) (Prim2SF y)).
  by destruct (SFcompare _ _) as [[] |].
Qed.

Lemma num_eqb_le (x y : float) :
  PrimFloat.eqb x y = true -> num_le x y = true /\ num_le y x = true.
Proof.
  rewrite FloatAxioms.eqb_spec, !num_le_SF. unfold SFeqb.
  rewrite (SFcompare_antisym (Prim2SF x) (Prim2SF y)).
  by destruct (SFcompare (Prim2SF x) (Prim2SF y)) as [[] |].
Qed.

Lemma num_eqb_common (x y w : float) :
  PrimFloat.eqb x w = true -> PrimFloat.eqb y w = true -> PrimFloat.eqb x y = true.
Proof.
  intros [Hxw Hwx]%num_eqb_le [Hyw Hwy]%num_eqb_le.
  apply num_le_antisym; by eapply num_le_trans.
Qed.

Lemma num_le_not_nan (x y : float) :
  num_le x y = true -> isNaN x = false /\ isNaN y = false.
Proof.
  rewrite num_le_SF, !isNaN_SF.
  destruct (Prim2SF x), (Prim2SF y); done.
Qed.

Lemma num_le_infinity (x : float) : isNaN x = false -> num_le x infinity = true.
Proof.
  rewrite isNaN_SF, num_le_SF. change (Prim2SF infinity) with (S754_infinity false).
  destruct (Prim2SF x) as [s | s | | s m e]; try destruct s; done.
Qed.

Lemma is_neg_zero_SF (x : float) : is_neg_zero x = true -> Prim2SF x = S754_zero true.
Proof.
  unfold is_neg_zero. rewrite classify_spec. unfold SF64classify, SFclassify.
  destruct (Prim2SF x) as [[] | [] | | [] m e]; try done; by destruct (Z.eqb _ _).
Qed.

Lemma is_pos_zero_SF (x : float) : is_pos_zero x = true -> Prim2SF x = S754_zero false.
Proof.
  unfold is_pos_zero. rewrite classify_spec. unfold SF64classify, SFclassify.
  destruct (Prim2SF x) as [[] | [] | | [] m e]; try done; by destruct (Z.eqb _ _).
Qed.

(** One step of [Math.min] keeps one of its two arguments, below both. *)
Lemma min_step_spec (lowest number : float) :
  isNaN lowest = false -> isNaN number = false ->
  (min_step lowest number = lowest \/ min_step lowest number = number) /\
  num_le (min_step lowest number) lowest = true /\
  num_le (min_step lowest number) number = true.
Proof.
  intros Hl Hn. unfold min_step.
  destruct (is_neg_zero number && is_pos_zero lowest) eqn:Hzero.
  - apply andb_true_iff in Hzero as [Hneg Hpos].
    split; [by right |]. split; [| by apply num_le_refl].
    rewrite num_le_SF, (is_neg_zero_SF _ Hneg), (is_pos_zero_SF _ Hpos). done.
  - destruct (num_lt number lowest) eqn:Hlt.
    + split; [by right |]. split; [by apply num_lt_le | by apply num_le_refl].
    + split; [by left |]. split; [by apply num_le_refl | by apply num_not_lt_le].
Qed.

Lemma fold_min_step_spec (l : list float) (acc : float) :
  isNaN acc = false -> Forall (fun x => isNaN x = false) l ->
  isNaN (fold_left min_step l acc) = false /\
  num_le (fold_left min_step l acc) acc = true /\
  Forall (fun x => num_le (fold_left min_step l acc) x = true) l /\
  (fold_left min_step l acc = acc \/ fold_left min_step l acc ∈ l).
Proof.
  revert acc. induction l as [| x l IH]; intros acc Hacc Hl; cbn [fold_left].
  - split_and!; [done | by apply num_le_refl | constructor | by left].
  - apply Forall_cons in Hl as [Hx Hl].
    destruct (min_step_spec acc x Hacc Hx) as (Hkeep & Hle_acc & Hle_x).
    assert (Hstep : isNaN (min_step acc x) = false) by (by destruct Hkeep as [-> | ->]).
    destruct (IH (min_step acc x) Hstep Hl) as (Hnan & Hle & Hall & Hmem).
    split_and!; [done | by eapply num_le_trans | |].
    + constructor; [by eapply num_le_trans | done].
    + destruct Hmem as [-> | Hin]; [| right; by right].
      destruct Hkeep as [-> | ->]; [by left | right; left].
Qed.

(** [Math.min] of numbers other than [NaN] is their minimum. *)
Lemma Math_min_spec (l : list float) :
  l <> [] -> Forall (fun x => isNaN x = false) l ->
  Exists (fun x => PrimFloat.eqb x (Math_min l) = true) l /\
  Forall (fun x => num_le (Math_min l) x = true) l.
Proof.
  intros Hne Hl. unfold Math_min.
  assert (Hex : existsb isNaN l = false).
  { apply not_true_is_false. intros (x & Hx & Hnan)%existsb_exists.
    rewrite Forall_forall in Hl. apply list_elem_of_In, Hl in Hx. congruence. }
  rewrite Hex.
  destruct (fold_min_step_spec l infinity eq_refl Hl) as (Hnan & _ & Hall & Hmem).
  split; [| done]. destruct Hmem as [Hinf | Hin].
  - destruct l as [| x l]; [done |]. apply Exists_cons_hd.
    apply Forall_cons in Hall as [Hx _]. apply Forall_cons in Hl as [Hxn _].
    apply num_le_antisym; [| done]. rewrite Hinf. by apply num_le_infinity.
  - apply Exists_exists. eexists. split; [done |].
    apply num_le_antisym; by apply num_le_refl.
Qed.

(** The elements of a list that pass a test, around one of them. *)
Lemma filter_app_inv {A : Type} (p : A -> bool) (l before after : list A) (w : A) :
  List.filter p l = before ++ w :: after ->
  exists l1 l2,
    l = l1 ++ w :: l2 /\ List.filter p l1 = before /\ List.filter p l2 = after /\
    p w = true.
Proof.
  revert before. induction l as [| x l IH]; intros before Heq.
  - by destruct before.
  - cbn [List.filter] in Heq. destruct (p x) eqn:Hx.
    + destruct before as [| y before]; cbn in Heq.
      * injection Heq as Hxw Heq. subst w. exists [], l. cbn. by rewrite Hx.
      * injection Heq as Hxy Heq. subst y.
        destruct (IH _ Heq) as (l1 & l2 & -> & <- & <- & Hw).
        exists (x :: l1), l2. cbn. by rewrite Hx.
    + destruct (IH _ Heq) as (l1 & l2 & -> & <- & <- & Hw).
      exists (x :: l1), l2. cbn. by rewrite Hx.
Qed.

Section Winner.
Context `{JSHost}.

Lemma qc_rsd_with_avg (bioCols : list string) (c : TableRow) :
  qc_rsd (with_avg bioCols c) = qc_rsd c.
Proof. unfold qc_rsd, with_avg. by rewrite lookup_insert_ne. Qed.

Lemma avg_or_zero_with_avg (bioCols : list string) (c : TableRow) :
  avg_or_zero (with_avg bioCols c) =
  if PrimFloat.eqb (avgIntensity bioCols c) 0 || isNaN (avgIntensity bioCols c)
  then 0%float else avgIntensity bioCols c.
Proof.
  unfold avg_or_zero, with_avg. rewrite lookup_insert_eq. cbn [truthy Number].
  by destruct (_ || _).
Qed.

Lemma avg_or_zero_not_nan (bioCols : list string) (c : TableRow) :
  isNaN (avg_or_zero (with_avg bioCols c)) = false.
Proof.
  rewrite avg_or_zero_with_avg.
  destruct (PrimFloat.eqb _ 0); cbn [orb]; [done |].
  by destruct (isNaN (avgIntensity bioCols c)) eqn:Hnan.
Qed.

(** The fold of [reduce] stops on the first row of greatest intensity:
    either the accumulator stays, and no row is above it, or the result
    is a row of the list, above the accumulator, above every row before it
    and not below any row after it. *)
Lemma max_intensity_spec (l : list TableRow) (acc : TableRow) :
  isNaN (avg_or_zero acc) = false ->
  Forall (fun c => isNaN (avg_or_zero c) = false) l ->
  (max_intensity acc l = acc /\
   Forall (fun c => num_gt (avg_or_zero c) (avg_or_zero acc) = false) l) \/
  (exists before after,
     l = before ++ max_intensity acc l :: after /\
     num_gt (avg_or_zero (max_intensity acc l)) (avg_or_zero acc) = true /\
     Forall (fun c => num_lt (avg_or_zero c) (avg_or_zero (max_intensity acc l)) = true)
       before /\
     Forall (fun c => num_gt (avg_or_zero c) (avg_or_zero (max_intensity acc l)) = false)
       after).
Proof.
  unfold max_intensity. revert acc.
  induction l as [| x l IH]; intros acc Hacc Hl; cbn [fold_left].
  - left. split; [done | constructor].
  - apply Forall_cons in Hl as [Hx Hl].
    destruct (num_gt (avg_or_zero x) (avg_or_zero acc)) eqn:Hgt.
    + right. destruct (IH x Hx Hl) as [[-> Hafter] | (b & a & Heq & Hw & Hb & Ha)].
      * exists [], l. split_and!; [done | done | constructor | done].
      * exists (x :: b), a. split_and!; [by rewrite Heq at 1 | | | done].
        -- rewrite num_gt_lt in *. by eapply num_lt_trans.
        -- constructor; [by rewrite num_gt_lt in Hw | done].
    + destruct (IH acc Hacc Hl) as [[-> Hafter] | (b & a & Heq & Hw & Hb & Ha)].
      * left. split; [done |]. by constructor.
      * right. exists (x :: b), a. split_and!; [by rewrite Heq at 1 | done | | done].
        constructor; [| done]. rewrite num_gt_lt in *.
        eapply num_le_lt_trans; [| done]. by apply num_not_lt_le.
Qed.

Lemma positive_filter (l : list float) :
  List.filter (fun v => negb (isNaN v) && num_gt v 0) l =
  List.filter (fun v => PrimFloat.ltb 0 v) l.
Proof.
  apply List.filter_ext. intros v. unfold num_gt.
  destruct (PrimFloat.ltb 0 v) eqn:Hv; [| by rewrite andb_false_r].
  apply (num_lt_not_nan 0 v) in Hv as [_ ->]. done.
Qed.

(** The intensity the engine computes is the mean of the positive values. *)
Lemma avgIntensity_read (bioCols : list string) (c : TableRow) :
  avgIntensity bioCols c = mean_of_positive bioCols c.
Proof.
  unfold avgIntensity, mean_of_positive. rewrite positive_filter.
  by destruct (List.filter _ _).
Qed.

(** The winner, in the window of the candidates with their intensities. *)
Lemma select_winner_window (bioCols : list string) (candidates : list TableRow) :
  2 <= length candidates ->
  let scored := map (with_avg bioCols) candidates in
  let minRsd := Math_min (map qc_rsd scored) in
  let window := List.filter (fun c => num_lt (qc_rsd c) (minRsd + 2)%float) scored in
  match select_winner bioCols candidates with
  | None => window = []
  | Some w =>
      exists before after,
        window = before ++ w :: after /\
        Forall (fun c => num_lt (avg_or_zero c) (avg_or_zero w) = true) before /\
        Forall (fun c => num_gt (avg_or_zero c) (avg_or_zero w) = false) after
  end.
Proof.
  intros Hmany scored minRsd window.
  destruct candidates as [| c1 [| c2 rest]]; [cbn in Hmany; lia .. |].
  unfold select_winner. fold scored. unfold finalCandidates_of.
  fold minRsd. fold window.
  assert (Hscored : Forall (fun c => isNaN (avg_or_zero c) = false) window).
  { apply Forall_forall. intros c [Hc _]%list_elem_of_In%filter_In.
    apply in_map_iff in Hc as (c0 & <- & _). apply avg_or_zero_not_nan. }
  destruct window as [| first others]; [done |].
  apply Forall_cons in Hscored as [Hfirst Hothers].
  change (max_intensity first (first :: others))
    with (max_intensity (if num_gt (avg_or_zero first) (avg_or_zero first)
                         then first else first) others).
  replace (if num_gt (avg_or_zero first) (avg_or_zero first) then first else first)
    with first by by destruct (num_gt _ _).
  destruct (max_intensity_spec others first Hfirst Hothers)
    as [[-> Hafter] | (b & a & Heq & Hw & Hb & Ha)].
  - by exists [], others.
  - exists (first :: b), a. split_and!; [by rewrite Heq at 1 | | done].
    constructor; [by rewrite num_gt_lt in Hw | done].
Qed.

(** A row that leaves stage 1 without status carries an RSD. *)
Lemma candidates_of_rsd (bioCols qcCols : list string) (groupRows : list TableRow) :
  Forall (fun c : TableRow => exists rsd, c !! "_qc_rsd" = Some (CNum rsd))
    (candidates_of bioCols qcCols groupRows).
Proof.
  apply Forall_forall. intros c [Hc Hfree]%list_elem_of_In%filter_In.
  apply in_map_iff in Hc as (row & <- & _). apply negb_true_iff in Hfree.
  unfold candidate_of in *.
  destruct (num_gt (missingRate bioCols row) 50); [by rewrite has_status_marked in Hfree |].
  destruct (Nat.ltb _ 2); [eexists; apply lookup_insert_eq |].
  destruct (PrimFloat.eqb _ 0); [by rewrite has_status_marked in Hfree |].
  destruct (num_gt (rsd_of _) 30); [by rewrite has_status_marked in Hfree |].
  eexists. apply lookup_insert_eq.
Qed.

End Winner.

(** The window holds the first, second and fourth candidates; the first two
    have the greatest intensity and the first one wins. *)
Example select_winner_run :
  select_winner ["CON_1"] candidates_ex =
  Some {[ "ID" := CStr "a"; "CON_1" := CNum 80; "_qc_rsd" := CNum 5;
          "_avg_intensity" := CNum 80 ]}.
Proof. vm_compute. reflexivity. Qed.

(** The window can be empty: when the QC values of a row add up to
    [Infinity], its RSD is [NaN], the row passes the QC stage ([NaN > 30] is
    false), [Math.min] is [NaN], no RSD is below it, and the group has no
    winner. *)
Example overflow_no_winner :
  map qc_rsd (candidates_of ["CON_1"] ["QC-1"; "QC-2"] (rows overflow_table)) = [nan; nan] /\
  select_winner ["CON_1"] (candidates_of ["CON_1"] ["QC-1"; "QC-2"] (rows overflow_table)) =
    None /\
  result_map statuses (handleDereplication (Some overflow_table)) =
    Ok [Some (CStr Removed); Some (CStr Removed)].
Proof. repeat split; vm_compute; reflexivity. Qed.
(** ** Dereplication: a group of three rows *)

Section Scenario.
Context `{JSHost}.

Lemma measured_read (bioCols qcCols : list string) (row : TableRow) (rsd avg : float) :
  measured bioCols qcCols row rsd avg ->
  row !! f_status = None /\
  num_gt (missingRate bioCols row) 50 = false /\
  Nat.ltb (length (qcValues qcCols row)) 2 = false /\
  PrimFloat.eqb (mean (qcValues qcCols row)) 0 = false /\
  rsd_of (qcValues qcCols row) = rsd /\
  avgIntensity bioCols row = avg.
Proof.
  unfold measured, qcValues. rewrite positive_filter, avgIntensity_read.
  intros (Hfresh & Hmiss & Hlen & Hmean & Hrsd & Havg).
  split_and!; try done. by apply Nat.ltb_ge.
Qed.

Lemma candidate_of_stable (bioCols qcCols : list string) (row : TableRow) (rsd avg : float) :
  measured bioCols qcCols row rsd avg -> num_gt rsd 30 = false ->
  candidate_of bioCols qcCols row = <[f_qc_rsd := CNum rsd]> row.
Proof.
  intros (_ & Hmiss & Hlen & Hmean & <- & _)%measured_read Hrsd. unfold candidate_of.
  by rewrite Hmiss, Hlen, Hmean, Hrsd.
Qed.

Lemma candidate_of_unstable (bioCols qcCols : list string) (row : TableRow) (rsd avg : float) :
  measured bioCols qcCols row rsd avg -> num_gt rsd 30 = true ->
  candidate_of bioCols qcCols row = <[f_status := CStr ExcludedUnstableQC]> row.
Proof.
  intros (_ & Hmiss & Hlen & Hmean & <- & _)%measured_read Hrsd. unfold candidate_of.
  by rewrite Hmiss, Hlen, Hmean, Hrsd.
Qed.

Lemma avgIntensity_insert (bioCols : list string) (k : string) (v : cell) (row : TableRow) :
  k ∉ bioCols -> avgIntensity bioCols (<[k := v]> row) = avgIntensity bioCols row.
Proof.
  intros Hk. unfold avgIntensity.
  replace (map (fun col => Number (<[k := v]> row !! col)) bioCols)
    with (map (fun col => Number (row !! col)) bioCols); [done |].
  apply map_ext_in. intros col Hcol. rewrite lookup_insert_ne; [done |].
  intros ->. by apply Hk, list_elem_of_In.
Qed.

(** C1: what the engine does on a group of three rows with QC RSDs 5, 6
    and 40 and average intensities 50, 80 and 10, the first and the third
    with an identifier other than that of the second. The QC stage marks
    the third row [ExcludedUnstableQC] (40 is above 30) and it leaves the
    candidates; the two others survive with their RSD; the least RSD is 5
    and both survivors are below 7; the second row, of intensity 80, wins.
    The statuses written on the three rows are [Removed], [Retained],
    [Removed]: the mark of the QC stage stays on the discarded candidate,
    and the third row, like every row of the group that is not the winner,
    leaves with [Removed]. *)
Theorem scenario_C_statuses (bioCols qcCols : list string) (r1 r2 r3 : TableRow)
    (Hr1 : measured bioCols qcCols r1 5 50)
    (Hr2 : measured bioCols qcCols r2 6 80)
    (Hr3 : measured bioCols qcCols r3 40 10)
    (Hreserved : "_qc_rsd" ∉ bioCols)
    (Hid12 : strict_eq (r1 !! "ID") (r2 !! "ID") = false)
    (Hid22 : strict_eq (r2 !! "ID") (r2 !! "ID") = true)
    (Hid32 : strict_eq (r3 !! "ID") (r2 !! "ID") = false) :
  let survivors := [<["_qc_rsd" := CNum 5]> r1; <["_qc_rsd" := CNum 6]> r2] in
  let scored :=
    [<["_avg_intensity" := CNum 50]> (<["_qc_rsd" := CNum 5]> r1);
     <["_avg_intensity" := CNum 80]> (<["_qc_rsd" := CNum 6]> r2)] in
  candidate_of bioCols qcCols r3 = <["_derep_status" := CStr ExcludedUnstableQC]> r3 /\
  candidates_of bioCols qcCols [r1; r2; r3] = survivors /\
  map (with_avg bioCols) survivors = scored /\
  Math_min (map (fun c : TableRow => Number (c !! "_qc_rsd")) scored) = 5%float /\
  finalCandidates_of scored = scored /\
  select_winner bioCols survivors =
    Some (<["_avg_intensity" := CNum 80]> (<["_qc_rsd" := CNum 6]> r2)) /\
  process_group bioCols qcCols [r1; r2; r3] =
    [<["_derep_status" := CStr Removed]> r1; <["_derep_status" := CStr Retained]> r2;
     <["_derep_status" := CStr Removed]> r3].
Proof.
  intros survivors scored.
  assert (Hc1 := candidate_of_stable _ _ _ _ _ Hr1 eq_refl).
  assert (Hc2 := candidate_of_stable _ _ _ _ _ Hr2 eq_refl).
  assert (Hc3 := candidate_of_unstable _ _ _ _ _ Hr3 eq_refl).
  apply measured_read in Hr1 as (Hf1 & _ & _ & _ & _ & Ha1).
  apply measured_read in Hr2 as (Hf2 & _ & _ & _ & _ & Ha2).
  assert (Hcands : candidates_of bioCols qcCols [r1; r2; r3] = survivors).
  { unfold candidates_of. cbn [map List.filter]. rewrite Hc1, Hc2, Hc3.
    rewrite !has_status_insert_other, !has_status_fresh, has_status_marked by done.
    done. }
  assert (Hscored : map (with_avg bioCols) survivors = scored).
  { unfold survivors, scored, with_avg. cbn [map].
    change "_qc_rsd" with f_qc_rsd in Hreserved |- *.
    by rewrite !avgIntensity_insert, Ha1, Ha2 by done. }
  assert (Hrsds : map (fun c : TableRow => Number (c !! "_qc_rsd")) scored =
                  [5%float; 6%float]).
  { unfold scored. cbn [map].
    rewrite !(lookup_insert_ne _ "_avg_intensity"), !lookup_insert_eq by done. done. }
  assert (Hfinal : finalCandidates_of scored = scored).
  { unfold finalCandidates_of.
    change (map qc_rsd scored) with (map (fun c : TableRow => Number (c !! "_qc_rsd")) scored).
    rewrite Hrsds. unfold scored. cbn [List.filter]. unfold qc_rsd, f_qc_rsd.
    rewrite !(lookup_insert_ne _ "_avg_intensity"), !lookup_insert_eq by done. done. }
  assert (Hwin : select_winner bioCols survivors =
            Some (<["_avg_intensity" := CNum 80]> (<["_qc_rsd" := CNum 6]> r2))).
  { unfold select_winner, survivors. fold survivors. rewrite Hscored, Hfinal.
    unfold scored, max_intensity. cbn [fold_left]. unfold avg_or_zero, f_avg_intensity.
    rewrite !lookup_insert_eq. done. }
  split_and!; [done | done | done | by rewrite Hrsds | done | done |].
  unfold process_group. cbn [length Nat.leb]. rewrite Hcands, Hwin.
  cbn [map mark]. rewrite !lookup_insert_ne by done.
  by rewrite Hid12, Hid22, Hid32.
Qed.
End Scenario.

Lemma scenario_C_group_run :
  let bioCols := scenario_bioCols in
  let qcCols := scenario_qcCols in
  let r1 := scenario_row1 in
  let r2 := scenario_row2 in
  let r3 := scenario_row3 in
  let survivors := [<["_qc_rsd" := CNum 5]> r1; <["_qc_rsd" := CNum 6]> r2] in
  let scored :=
    [<["_avg_intensity" := CNum 50]> (<["_qc_rsd" := CNum 5]> r1);
     <["_avg_intensity" := CNum 80]> (<["_qc_rsd" := CNum 6]> r2)] in
  candidate_of bioCols qcCols r3 = <["_derep_status" := CStr ExcludedUnstableQC]> r3 /\
  candidates_of bioCols qcCols [r1; r2; r3] = survivors /\
  map (with_avg bioCols) survivors = scored /\
  Math_min (map (fun c : TableRow => Number (c !! "_qc_rsd")) scored) = 5%float /\
  finalCandidates_of scored = scored /\
  select_winner bioCols survivors =
    Some (<["_avg_intensity" := CNum 80]> (<["_qc_rsd" := CNum 6]> r2)) /\
  process_group bioCols qcCols [r1; r2; r3] =
    [<["_derep_status" := CStr Removed]> r1; <["_derep_status" := CStr Retained]> r2;
     <["_derep_status" := CStr Removed]> r3].
Proof.
  apply (scenario_C_statuses scenario_bioCols scenario_qcCols
           scenario_row1 scenario_row2 scenario_row3).
  - split_and!; vm_compute; first [reflexivity | lia].
  - split_and!; vm_compute; first [reflexivity | lia].
  - split_and!; vm_compute; first [reflexivity | lia].
  - unfold scenario_bioCols. rewrite !elem_of_cons, elem_of_nil.
    intros [[=] | [[=] | []]].
  - reflexivity.
  - reflexivity.
  - reflexivity.
Defined.

(** On the table of scenario C the three rows are measured as the scenario
    says (QC RSDs 5, 6 and 40, average intensities 50, 80 and 10), and the
    statuses the engine returns are [Removed], [Retained], [Removed]: the
    third row does not end with [ExcludedUnstableQC]. *)
Lemma scenario_C_third_row_is_removed :
  measured scenario_bioCols scenario_qcCols scenario_row1 5 50 /\
  measured scenario_bioCols scenario_qcCols scenario_row2 6 80 /\
  measured scenario_bioCols scenario_qcCols scenario_row3 40 10 /\
  result_map statuses (handleDereplication (Some scenario_table)) =
    Ok [Some (CStr Removed); Some (CStr Retained); Some (CStr Removed)] /\
  result_map statuses (handleDereplication (Some scenario_table)) <>
    Ok [Some (CStr Removed); Some (CStr Retained); Some (CStr ExcludedUnstableQC)].
Proof.
  split_and!.
  - split_and!; vm_compute; first [reflexivity | lia].
  - split_and!; vm_compute; first [reflexivity | lia].
  - split_and!; vm_compute; first [reflexivity | lia].
  - vm_compute. reflexivity.
  - vm_compute. discriminate.
Qed.

(** ** The final sort *)

Lemma order_gt_trans (a b c : option nat) :
  order_gt a b = true -> order_gt b c = true -> order_gt a c = true.
Proof.
  destruct a, b, c; cbn -[Nat.ltb]; try done. rewrite !Nat.ltb_lt. lia.
Qed.

Lemma order_gt_asym (a b : option nat) : order_gt a b = true -> order_gt b a = false.
Proof.
  destruct a, b; cbn -[Nat.ltb]; try done. rewrite Nat.ltb_lt, Nat.ltb_ge. lia.
Qed.

Lemma order_gt_total (a b : option nat) :
  a <> b -> order_gt a b = false -> order_gt b a = true.
Proof.
  destruct a as [i |], b as [j |]; cbn -[Nat.ltb]; try done.
  rewrite Nat.ltb_lt, Nat.ltb_ge. intros Hne Hle.
  destruct (decide (i = j)) as [-> | ?]; [done | lia].
Qed.

(** [a <= b < c] gives [a < c]. *)
Lemma order_le_gt_trans (a b c : option nat) :
  order_gt a b = false -> order_gt c b = true -> order_gt c a = true.
Proof.
  destruct a, b, c; cbn -[Nat.ltb]; try done. rewrite Nat.ltb_ge, !Nat.ltb_lt. lia.
Qed.

Section Sort.
Context {A : Type} (key : A -> option nat).

Lemma insert_by_perm (x : A) (l : list A) : insert_by key x l ≡ₚ x :: l.
Proof.
  induction l as [| y l IH]; cbn [insert_by]; [done |].
  destruct (order_gt _ _); [| done]. rewrite IH. apply Permutation_swap.
Qed.

Lemma sort_by_perm (l : list A) : sort_by key l ≡ₚ l.
Proof.
  induction l as [| x l IH]; cbn [sort_by]; [done |].
  by rewrite insert_by_perm, IH.
Qed.

(** Two insertions commute when the keys differ. *)
Lemma insert_by_comm (x y : A) (l : list A) :
  key x <> key y ->
  insert_by key x (insert_by key y l) = insert_by key y (insert_by key x l).
Proof.
  intros Hne. induction l as [| z l IH]; cbn [insert_by].
  - destruct (order_gt (key x) (key y)) eqn:Hxy.
    + by rewrite (order_gt_asym _ _ Hxy).
    + by rewrite (order_gt_total _ _ Hne Hxy).
  - destruct (order_gt (key y) (key z)) eqn:Hyz,
      (order_gt (key x) (key z)) eqn:Hxz; cbn [insert_by];
      rewrite ?Hyz, ?Hxz.
    + by rewrite IH.
    + by rewrite (order_le_gt_trans _ _ _ Hxz Hyz).
    + by rewrite (order_le_gt_trans _ _ _ Hyz Hxz).
    + destruct (order_gt (key x) (key y)) eqn:Hxy.
      * by rewrite ?Hxz, (order_gt_asym _ _ Hxy).
      * by rewrite (order_gt_total _ _ Hne Hxy), ?Hyz.
Qed.

(** With distinct keys the sorted list does not depend on the order of the
    input. *)
Lemma sort_by_Permutation (l l' : list A) :
  l ≡ₚ l' -> NoDup (map key l) -> sort_by key l = sort_by key l'.
Proof.
  induction 1 as [| x l l' Hperm IH | x y l | l l' l'' H1 IH1 H2 IH2]; intros Hnd.
  - done.
  - cbn [sort_by]. rewrite IH; [done |]. cbn in Hnd. by apply NoDup_cons in Hnd as [_ ?].
  - cbn [sort_by]. apply insert_by_comm. cbn in Hnd.
    apply NoDup_cons in Hnd as [Hy _]. intros Heq. apply Hy. rewrite Heq. left.
  - rewrite IH1 by done. apply IH2.
    assert (Hp : map key l ≡ₚ map key l') by by apply Permutation_map.
    by rewrite <- Hp.
Qed.

(** A list in the order of its keys is left as it is. *)
Lemma sort_by_sorted (l : list A) :
  Sorted (fun a b => order_gt (key a) (key b) = false) l -> sort_by key l = l.
Proof.
  induction 1 as [| x l Hsorted IH Hhd]; cbn [sort_by]; [done |].
  rewrite IH. destruct Hhd as [| y l Hxy]; cbn [insert_by]; [done |]. by rewrite Hxy.
Qed.

(** The sorted list is in the order of the keys. *)
Lemma insert_by_HdRel (x y : A) (l : list A) :
  order_gt (key y) (key x) = false ->
  HdRel (fun a b => order_gt (key a) (key b) = false) y l ->
  HdRel (fun a b => order_gt (key a) (key b) = false) y (insert_by key x l).
Proof.
  intros Hyx Hhd. destruct l as [| z l]; cbn [insert_by]; [by constructor |].
  destruct (order_gt (key x) (key z)); constructor; [by inversion Hhd | done].
Qed.

Lemma insert_by_Sorted (x : A) (l : list A) :
  Sorted (fun a b => order_gt (key a) (key b) = false) l ->
  Sorted (fun a b => order_gt (key a) (key b) = false) (insert_by key x l).
Proof.
  induction 1 as [| y l Hsorted IH Hhd]; cbn [insert_by].
  - by repeat constructor.
  - destruct (order_gt (key x) (key y)) eqn:Hxy.
    + constructor; [done |]. apply insert_by_HdRel; [by apply order_gt_asym | done].
    + constructor; [by constructor |]. by constructor.
Qed.

Lemma sort_by_Sorted (l : list A) :
  Sorted (fun a b => order_gt (key a) (key b) = false) (sort_by key l).
Proof.
  induction l as [| x l IH]; cbn [sort_by]; [constructor |].
  by apply insert_by_Sorted.
Qed.

(** The rows whose key is not found come last. *)
Lemma insert_by_found_first (x : A) (found missing : list A) :
  Forall (fun a => is_Some (key a)) found ->
  Forall (fun a => key a = None) missing ->
  exists found' missing',
    insert_by key x (found ++ missing) = found' ++ missing' /\
    Forall (fun a => is_Some (key a)) found' /\
    Forall (fun a => key a = None) missing'.
Proof.
  intros Hfound Hmissing. induction Hfound as [| y found Hy Hfound IH]; cbn [app].
  - destruct (key x) as [i |] eqn:Hx.
    + exists [x], missing. split_and!; [| by repeat constructor | done].
      destruct Hmissing as [| z missing Hz Hmissing]; cbn [insert_by]; [done |].
      by rewrite Hx, Hz.
    + exists [], (insert_by key x missing). split_and!; [done | constructor |].
      rewrite insert_by_perm. by constructor.
  - cbn [insert_by]. destruct (order_gt (key x) (key y)) eqn:Hxy.
    + destruct IH as (found' & missing' & -> & Hf & Hm).
      exists (y :: found'), missing'. split_and!; [done | by constructor | done].
    + exists (x :: y :: found), missing. split_and!; [done | | done].
      constructor; [| by constructor].
      destruct Hy as [j Hj]. rewrite Hj in Hxy. by destruct (key x).
Qed.

Lemma sort_by_found_first (l : list A) :
  exists found missing,
    sort_by key l = found ++ missing /\
    Forall (fun a => is_Some (key a)) found /\
    Forall (fun a => key a = None) missing.
Proof.
  induction l as [| x l IH]; cbn [sort_by].
  - exists [], []. by split_and!.
  - destruct IH as (found & missing & -> & Hf & Hm). by apply insert_by_found_first.
Qed.
End Sort.

(** Sorting two lists related element by element, with the same keys,
    gives two lists related element by element. *)
Lemma insert_by_Forall2 {A B : Type} (R : A -> B -> Prop)
    (keyA : A -> option nat) (keyB : B -> option nat) (x : A) (y : B)
    (l1 : list A) (l2 : list B) :
  (forall a b, R a b -> keyA a = keyB b) ->
  R x y -> Forall2 R l1 l2 ->
  Forall2 R (insert_by keyA x l1) (insert_by keyB y l2).
Proof.
  intros Hkey Hxy Hl. induction Hl as [| a b l1 l2 Hab Hl IH]; cbn [insert_by].
  - by repeat constructor.
  - rewrite <- (Hkey _ _ Hxy), <- (Hkey _ _ Hab).
    destruct (order_gt _ _); by repeat constructor.
Qed.

Lemma sort_by_Forall2 {A B : Type} (R : A -> B -> Prop)
    (keyA : A -> option nat) (keyB : B -> option nat) (l1 : list A) (l2 : list B) :
  (forall a b, R a b -> keyA a = keyB b) ->
  Forall2 R l1 l2 -> Forall2 R (sort_by keyA l1) (sort_by keyB l2).
Proof.
  intros Hkey Hl. induction Hl; cbn [sort_by]; [constructor |].
  by apply insert_by_Forall2.
Qed.

(** ** Dereplication: grouping and reassembly *)

Lemma same_value_zero_refl (a : option cell) : same_value_zero a a = true.
Proof.
  destruct a as [[s | x |] |]; cbn; try done.
  - apply String.eqb_refl.
  - unfold isNaN. by destruct (PrimFloat.eqb x x).
Qed.

Lemma Map_get_snoc {V : Type} (entries : list (option cell * V))
    (k : option cell) (v : V) (key : option cell) :
  Map_get (entries ++ [(k, v)]) key =
  if same_value_zero k key then Some v else Map_get entries key.
Proof. unfold Map_get. by rewrite fold_left_app. Qed.

Section Reassembly.
Context `{JSHost}.

Lemma rowOrderMap_snoc (rows : list TableRow) (row : TableRow) :
  rowOrderMap (rows ++ [row]) = rowOrderMap rows ++ [(row !! "ID", length rows)].
Proof. unfold rowOrderMap. rewrite imap_app. cbn. by rewrite Nat.add_0_r. Qed.

Lemma distinct_ids_app_l (rows more : list TableRow) :
  distinct_ids (rows ++ more) -> distinct_ids rows.
Proof.
  intros Hd i j ri rj Hi Hj. apply Hd; by apply lookup_app_l_Some.
Qed.

(** With distinct identifiers, the order map sends the identifier of a row
    to the position of the row. *)
Lemma order_key_position (rows : list TableRow) (i : nat) (row : TableRow) :
  distinct_ids rows -> rows !! i = Some row -> order_key rows row = Some i.
Proof.
  unfold order_key. revert i row.
  induction rows as [| last rows IH] using rev_ind; intros i row Hd Hi; [done |].
  rewrite rowOrderMap_snoc, Map_get_snoc.
  destruct (same_value_zero (last !! "ID") (row !! "ID")) eqn:Hsame.
  - f_equal. eapply (Hd (length rows) i last row); [| done | done].
    by rewrite lookup_app_r, Nat.sub_diag.
  - apply lookup_app_Some in Hi as [Hi | [_ Hi]].
    + apply IH; [by eapply distinct_ids_app_l | done].
    + destruct (i - length rows) as [| n]; [| done]. injection Hi as <-.
      by rewrite same_value_zero_refl in Hsame.
Qed.

Lemma order_key_same_id (rows : list TableRow) (row out : TableRow) :
  out !! "ID" = row !! "ID" -> order_key rows out = order_key rows row.
Proof. unfold order_key. by intros ->. Qed.

Lemma finished_id (status : string) (row : TableRow) :
  finished status row !! "ID" = row !! "ID".
Proof.
  unfold finished, drop_metrics.
  by rewrite !lookup_delete_ne, lookup_insert_ne.
Qed.

Lemma derived_from_key (rows : list TableRow) (row out : TableRow) :
  derived_from row out -> order_key rows row = order_key rows out.
Proof. intros [-> | ->]; symmetry; apply order_key_same_id, finished_id. Qed.

(** The rows of the input, in their order, have increasing keys. *)
Lemma order_keys_positions (rows : list TableRow) :
  distinct_ids rows -> map (order_key rows) rows = map Some (seq 0 (length rows)).
Proof.
  intros Hd. apply list_eq. intros i.
  change (map (order_key rows) rows) with (order_key rows <$> rows).
  change (map Some (seq 0 (length rows))) with (Some <$> seq 0 (length rows)).
  rewrite !list_lookup_fmap.
  destruct (rows !! i) as [row |] eqn:Hi; cbn.
  - rewrite (order_key_position rows i row) by done.
    rewrite lookup_seq_lt; [done |]. by eapply lookup_lt_Some.
  - rewrite lookup_seq_ge; [done |]. by apply lookup_ge_None.
Qed.

Lemma sorted_positions (start : nat) (n : nat) :
  Sorted (fun a b => order_gt a b = false) (map Some (seq start n)).
Proof.
  revert start. induction n as [| n IH]; intros start; cbn; [constructor |].
  constructor; [apply IH |]. destruct n; cbn; constructor.
  cbn -[Nat.ltb]. apply Nat.ltb_ge. lia.
Qed.

Lemma Sorted_map_key {A : Type} (key : A -> option nat) (l : list A) :
  Sorted (fun a b => order_gt a b = false) (map key l) ->
  Sorted (fun a b => order_gt (key a) (key b) = false) l.
Proof.
  induction l as [| x l IH]; cbn; [constructor |].
  intros [Hs Hhd]%Sorted_inv. constructor; [by apply IH |].
  destruct l; cbn in *; constructor. by inversion Hhd.
Qed.

Lemma NoDup_positions (start n : nat) : NoDup (map Some (seq start n)).
Proof.
  change (map Some (seq start n)) with (Some <$> seq start n).
  apply NoDup_fmap_2; [apply _ | apply NoDup_seq].
Qed.

(** Sorting any rearrangement of the input restores the input. *)
Lemma sort_by_restores (rows rearranged : list TableRow) :
  distinct_ids rows -> rearranged ≡ₚ rows ->
  sort_by (order_key rows) rearranged = rows.
Proof.
  intros Hd Hperm.
  rewrite (sort_by_Permutation _ rearranged rows Hperm).
  - apply sort_by_sorted, Sorted_map_key.
    rewrite order_keys_positions by done. apply sorted_positions.
  - assert (Hp : map (order_key rows) rearranged ≡ₚ map (order_key rows) rows)
      by by apply Permutation_map.
    rewrite Hp, order_keys_positions by done. apply NoDup_positions.
Qed.

(** *** Grouping *)

Lemma group_push_perm (key : string) (row : TableRow)
    (groups : list (string * list TableRow)) :
  concat (map snd (group_push key row groups)) ≡ₚ concat (map snd groups) ++ [row].
Proof.
  induction groups as [| [k g] groups IH]; cbn [group_push]; [by cbn |].
  destruct (String.eqb k key); cbn [map snd concat].
  - rewrite <- !app_assoc. apply Permutation_app_head, Permutation_app_comm.
  - by rewrite IH, app_assoc.
Qed.

Lemma group_push_nonempty (key : string) (row : TableRow)
    (groups : list (string * list TableRow)) :
  Forall (fun g => g.2 <> []) groups ->
  Forall (fun g => g.2 <> []) (group_push key row groups).
Proof.
  induction 1 as [| [k g] groups Hg Hgroups IH]; cbn [group_push].
  - constructor; [done | constructor].
  - destruct (String.eqb k key); constructor; try done.
    cbn. by destruct g.
Qed.

Lemma group_fold_inv (rows : list TableRow)
    (groups : list (string * list TableRow)) (unknowns : list TableRow) :
  Forall (fun g => g.2 <> []) groups ->
  concat (map snd (fold_left group_step rows (groups, unknowns)).1) ++
    (fold_left group_step rows (groups, unknowns)).2
    ≡ₚ (concat (map snd groups) ++ unknowns) ++ rows /\
  Forall (fun g => g.2 <> []) (fold_left group_step rows (groups, unknowns)).1.
Proof.
  revert groups unknowns. induction rows as [| row rows IH]; intros groups unknowns Hne.
  - cbn. by rewrite app_nil_r.
  - cbn [fold_left]. unfold group_step at 2 4 6.
    destruct (has_annotation row).
    + destruct (IH (group_push (trim (String_ (row !! "Final_Annotation"))) row groups)
                  unknowns) as [Hperm Hnonempty]; [by apply group_push_nonempty |].
      split; [| done]. rewrite Hperm, group_push_perm.
      rewrite <- !app_assoc. apply Permutation_app_head.
      rewrite (app_assoc [row]), (Permutation_app_comm [row] unknowns).
      by rewrite <- app_assoc.
    + destruct (IH groups (unknowns ++ [row])) as [Hperm Hnonempty]; [done |].
      split; [| done]. rewrite Hperm. by rewrite <- !app_assoc.
Qed.

Lemma group_rows_inv (rows : list TableRow) :
  concat (map snd (group_rows rows).1) ++ (group_rows rows).2 ≡ₚ rows /\
  Forall (fun g => g.2 <> []) (group_rows rows).1.
Proof.
  destruct (group_fold_inv rows [] []) as [Hperm Hne]; [constructor |].
  split; [| done]. apply Hperm.
Qed.

(** *** The rows written for a group *)

Lemma mark_marked (winner : option TableRow) (row : TableRow) :
  marked row (mark winner row).
Proof.
  unfold marked, mark. destruct winner as [w |]; [| by right].
  destruct (strict_eq _ _); [by left | by right].
Qed.

Lemma process_group_marked (bioCols qcCols : list string) (groupRows : list TableRow) :
  groupRows <> [] ->
  Forall2 marked groupRows (process_group bioCols qcCols groupRows).
Proof.
  intros Hne. unfold process_group.
  destruct groupRows as [| r1 [| r2 rest]]; [done | |].
  - cbn. constructor; [by left | constructor].
  - cbn [length Nat.leb]. apply Forall2_fmap_r, Forall_Forall2_diag, Forall_forall.
    intros row _. apply mark_marked.
Qed.

Lemma processed_marked (bioCols qcCols : list string)
    (groups : list (string * list TableRow)) :
  Forall (fun g => g.2 <> []) groups ->
  Forall2 marked (concat (map snd groups))
    (flat_map (fun g => process_group bioCols qcCols g.2) groups).
Proof.
  induction 1 as [| [k g] groups Hg Hgroups IH]; cbn; [constructor |].
  apply Forall2_app; [by apply process_group_marked | done].
Qed.

(** Before the sort, the final rows are the grouped input rows, each with
    its status and without the metrics. *)
Lemma finalRows_derived (bioCols qcCols : list string) (rows : list TableRow) :
  exists rearranged unsorted,
    finalRows_of bioCols qcCols rows = sort_by (order_key rows) unsorted /\
    rearranged ≡ₚ rows /\
    Forall2 derived_from rearranged unsorted.
Proof.
  unfold finalRows_of.
  destruct (group_rows_inv rows) as [Hperm Hne].
  destruct (group_rows rows) as [groups unknowns]. cbn [fst snd] in *.
  eexists _, _. split_and!; [done | exact Hperm |].
  rewrite map_app. apply Forall2_app.
  - apply Forall2_fmap_r.
    eapply Forall2_impl; [by apply processed_marked |].
    intros row out [-> | ->]; [by left | by right].
  - rewrite map_map. apply Forall2_fmap_r, Forall_Forall2_diag, Forall_forall.
    intros row _. by left.
Qed.
End Reassembly.

(** ** Dereplication: what the output table holds *)

Section Frame.
Context `{JSHost}.

Lemma finished_fields (status : string) (row : TableRow) :
  finished status row !! f_status = Some (CStr status) /\
  finished status row !! f_qc_rsd = None /\
  finished status row !! f_avg_intensity = None.
Proof.
  unfold finished, drop_metrics. split_and!.
  - by rewrite !lookup_delete_ne, lookup_insert_eq.
  - by rewrite lookup_delete_ne, lookup_delete_eq.
  - by rewrite lookup_delete_eq.
Qed.

Lemma Forall2_derived_in (l1 l2 : list TableRow) :
  Forall2 derived_from l1 l2 ->
  Forall (fun out => exists row, row ∈ l1 /\ derived_from row out) l2.
Proof.
  induction 1 as [| row out l1 l2 Hd Hl IH]; constructor.
  - exists row. split; [left | done].
  - eapply Forall_impl; [done |]. intros o (r & Hr & Hro). exists r. split; [by right | done].
Qed.

Lemma handleDereplication_ok (T : TableData) :
  List.filter is_bioCol (headers T) <> [] ->
  List.filter is_qcCol (headers T) <> [] ->
  "ID" ∈ headers T ->
  handleDereplication (Some T) =
  Ok (mkTable (headers T)
        (finalRows_of (List.filter is_bioCol (headers T))
           (List.filter is_qcCol (headers T)) (rows T))).
Proof.
  intros Hbio Hqc Hid. unfold handleDereplication.
  destruct (List.filter is_bioCol (headers T)) as [| b bio]; [done |].
  destruct (List.filter is_qcCol (headers T)) as [| q qc]; [done |].
  cbn [length Nat.eqb]. unfold includes. by rewrite bool_decide_eq_true_2.
Qed.

(** C2: on every table that has biological, QC and identifier columns,
    dereplication returns a table with the header list of the input,
    unchanged, and as many rows; each output row is an input row with one
    more field, its status [Retained] or [Removed], and carries neither the
    QC RSD nor the average intensity; the table handed to the exporter has the
    same header list and its rows carry no status (and no metric), so each
    exported line has one cell per input header. *)
Theorem dereplication_frame (T : TableData)
    (Hbio : List.filter is_bioCol (headers T) <> [])
    (Hqc : List.filter is_qcCol (headers T) <> [])
    (Hid : "ID" ∈ headers T) :
  exists T',
    handleDereplication (Some T) = Ok T' /\
    headers T' = headers T /\
    length (rows T') = length (rows T) /\
    Forall (fun out => exists row, row ∈ rows T /\ derived_from row out) (rows T') /\
    Forall (fun out : TableRow =>
              (out !! f_status = Some (CStr Retained) \/
               out !! f_status = Some (CStr Removed)) /\
              out !! f_qc_rsd = None /\ out !! f_avg_intensity = None) (rows T') /\
    headers (dataToDownload T') = headers T /\
    Forall (fun out : TableRow =>
              out !! f_status = None /\
              out !! f_qc_rsd = None /\ out !! f_avg_intensity = None)
      (rows (dataToDownload T')) /\
    Forall (fun line => length line = length (headers T))
      (dataToExport (dataToDownload T')).2.
Proof.
  eexists. split; [by apply handleDereplication_ok |]. cbn [headers rows].
  destruct (finalRows_derived (List.filter is_bioCol (headers T))
              (List.filter is_qcCol (headers T)) (rows T))
    as (rearranged & unsorted & -> & Hperm & Hderived).
  assert (Hin : Forall (fun out => exists row, row ∈ rows T /\ derived_from row out)
                  (sort_by (order_key (rows T)) unsorted)).
  { rewrite sort_by_perm. eapply Forall_impl; [by apply Forall2_derived_in |].
    intros out (row & Hrow & Hout). exists row. by rewrite <- Hperm. }
  assert (Hfields : Forall (fun out : TableRow =>
              (out !! f_status = Some (CStr Retained) \/
               out !! f_status = Some (CStr Removed)) /\
              out !! f_qc_rsd = None /\ out !! f_avg_intensity = None)
            (sort_by (order_key (rows T)) unsorted)).
  { eapply Forall_impl; [exact Hin |]. intros out (row & _ & [-> | ->]).
    - destruct (finished_fields Retained row) as (? & ? & ?). by split_and!; [left | |].
    - destruct (finished_fields Removed row) as (? & ? & ?). by split_and!; [right | |]. }
  split_and!; [done | | done | done | done | |].
  - rewrite sort_by_perm. apply Forall2_length in Hderived.
    by rewrite <- Hderived, Hperm.
  - unfold dataToDownload. cbn [rows]. apply Forall_forall.
    intros out (r & -> & Hr)%list_elem_of_fmap.
    apply list_elem_of_In, filter_In in Hr as [Hr _]. apply list_elem_of_In in Hr.
    rewrite Forall_forall in Hfields. destruct (Hfields r Hr) as (_ & Hq & Ha).
    split_and!; [by rewrite lookup_delete_eq | |]; by rewrite lookup_delete_ne.
  - unfold dataToExport, dataToDownload. cbn [snd rows headers]. apply Forall_forall.
    intros line (r & -> & _)%list_elem_of_fmap. by rewrite length_map.
Qed.
End Frame.

Lemma dereplication_frame_witness :
  exists T',
    handleDereplication (Some scenario_table) = Ok T' /\
    headers T' = headers scenario_table /\
    length (rows T') = length (rows scenario_table) /\
    Forall (fun out => exists row, row ∈ rows scenario_table /\ derived_from row out)
      (rows T') /\
    Forall (fun out : TableRow =>
              (out !! f_status = Some (CStr Retained) \/
               out !! f_status = Some (CStr Removed)) /\
              out !! f_qc_rsd = None /\ out !! f_avg_intensity = None) (rows T') /\
    headers (dataToDownload T') = headers scenario_table /\
    Forall (fun out : TableRow =>
              out !! f_status = None /\
              out !! f_qc_rsd = None /\ out !! f_avg_intensity = None)
      (rows (dataToDownload T')) /\
    Forall (fun line => length line = length (headers scenario_table))
      (dataToExport (dataToDownload T')).2.
Proof.
  apply (dereplication_frame scenario_table).
  - vm_compute. discriminate.
  - vm_compute. discriminate.
  - vm_compute. left.
Defined.

(** The table of scenario C after dereplication, and what is exported. *)
Example dereplication_run :
  handleDereplication (Some scenario_table) =
  Ok (mkTable ["ID"; "Final_Annotation"; "CON_1"; "HBO_1"; "QC-1"; "QC-2"; "QC-3"]
        [ <[f_status := CStr Removed]> scenario_row1;
          <[f_status := CStr Retained]> scenario_row2;
          <[f_status := CStr Removed]> scenario_row3 ]) /\
  result_map dataToExport (result_map dataToDownload (handleDereplication (Some scenario_table))) =
  Ok (["ID"; "Final_Annotation"; "CON_1"; "HBO_1"; "QC-1"; "QC-2"; "QC-3"],
      [[Some (CStr "2"); Some (CStr "Caffeine"); Some (CNum 80); Some (CNum 80);
        Some (CNum 94); Some (CNum 100); Some (CNum 106)]]).
Proof. split; vm_compute; reflexivity. Qed.

(** ** Row order *)

Section RowOrder.
Context `{JSHost}.

Lemma spread_outside (appendCols : list string) (baseRow matched : TableRow) (col : string) :
  col ∉ appendCols ->
  spread baseRow (newRowData appendCols matched) !! col = baseRow !! col.
Proof.
  intros Hcol. rewrite spread_lookup, newRowData_lookup.
  by rewrite bool_decide_eq_false_2.
Qed.

Lemma merge_id_row_outside (appendCols : list string) (matchMap : gmap string TableRow)
    (baseRow : TableRow) (col : string) :
  col ∉ appendCols -> merge_id_row appendCols matchMap baseRow !! col = baseRow !! col.
Proof.
  intros Hcol. unfold merge_id_row. destruct (_ || _); [done |].
  destruct (matchMap !! _); [by apply spread_outside | done].
Qed.

Lemma merge_mass_row_outside (appendCols : list string) (netRows : list TableRow)
    (baseMzKey : string) (matchMap : gmap string TableRow) (index : nat)
    (baseRow : TableRow) (col : string) :
  col ∉ appendCols ->
  merge_mass_row appendCols netRows baseMzKey matchMap index baseRow !! col =
  baseRow !! col.
Proof.
  intros Hcol. unfold merge_mass_row. destruct (_ || _); [done |].
  destruct (matchMap !! _); [by apply spread_outside | done].
Qed.

Lemma Forall2_imap {A B : Type} (P : A -> B -> Prop) (f : nat -> A -> B) (l : list A) :
  (forall i x, P x (f i x)) -> Forall2 P l (imap f l).
Proof.
  revert f. induction l as [| x l IH]; intros f Hf; cbn; constructor; [done |].
  apply IH. intros i y. apply Hf.
Qed.

(** The transforms that are not documented as reordering keep the
    rows in place: after either merge the output has one row per base row,
    in order, each equal to its base row outside the append columns; after
    the contaminant filter the output rows are the input rows that remain,
    in order. Dereplication, which regroups the rows, sorts them back by the
    position of their identifier in its input: when the identifiers are
    pairwise distinct the output has one row per input row, in the order of
    the input, each the input row with its status; and in the sort, rows
    whose identifier is not found come after all those whose identifier
    is. *)
Theorem row_order_preserved :
  (forall (stepConfig : ProcessingStep) (mergedData netTable data out : TableData)
          (unmatched : list cell),
     handleFileProcess stepConfig (Some mergedData) (Some netTable) data =
       Ok (out, unmatched) ->
     matchColumn stepConfig = "ID" \/
     (matchColumn stepConfig = "ionMass" /\
      exists baseMzKey, matchColumnBase stepConfig = Some baseMzKey /\ baseMzKey <> EmptyString) ->
     Forall2 (fun baseRow outRow : TableRow =>
                forall col, col ∉ appendColumns stepConfig ->
                            outRow !! col = baseRow !! col)
       (rows mergedData) (rows out)) /\
  (forall (T T' : TableData) (S : gset string),
     handleApplyFilter (Some T) (Some S) = Ok T' -> sublist (rows T') (rows T)) /\
  (forall T T' : TableData,
     handleDereplication (Some T) = Ok T' ->
     Sorted (fun a b => order_gt (order_key (rows T) a) (order_key (rows T) b) = false)
       (rows T') /\
     (distinct_ids (rows T) -> Forall2 derived_from (rows T) (rows T'))) /\
  (forall rows finalRows : list TableRow,
     exists found missing,
       sort_by (order_key rows) finalRows = found ++ missing /\
       Forall (fun row => is_Some (order_key rows row)) found /\
       Forall (fun row => order_key rows row = None) missing).
Proof.
  split_and!.
  - intros stepConfig mergedData netTable data out unmatched Hok Hkind.
    unfold handleFileProcess in Hok.
    destruct (negb (Nat.eqb (length _) 0)); [done |].
    destruct Hkind as [Hid | (Hmass & baseMzKey & Hbase & Hkey)].
    + rewrite Hid, String.eqb_refl in Hok. injection Hok as <- <-. cbn [rows].
      apply Forall2_fmap_r, Forall_Forall2_diag, Forall_forall.
      intros baseRow _ col Hcol. by apply merge_id_row_outside.
    + rewrite Hmass, Hbase, String.eqb_refl in Hok.
      change (String.eqb "ionMass" "ID") with false in Hok.
      assert (Hne : nonempty baseMzKey = true).
      { unfold nonempty. by destruct (String.eqb_spec baseMzKey EmptyString). }
      rewrite Hne in Hok. injection Hok as <- <-. cbn [rows].
      apply Forall2_imap. intros i baseRow col Hcol. by apply merge_mass_row_outside.
  - intros T T' S Hok. unfold handleApplyFilter in Hok.
    destruct (Nat.eqb (size S) 0); [done |]. injection Hok as <-.
    apply filter_sublist.
  - intros T T' Hok. unfold handleDereplication in Hok.
    destruct (Nat.eqb (length (List.filter is_bioCol _)) 0); [done |].
    destruct (Nat.eqb (length (List.filter is_qcCol _)) 0); [done |].
    destruct (negb _); [done |]. injection Hok as <-. cbn [rows].
    destruct (finalRows_derived (List.filter is_bioCol (headers T))
                (List.filter is_qcCol (headers T)) (rows T))
      as (rearranged & unsorted & -> & Hperm & Hderived).
    split; [apply sort_by_Sorted |]. intros Hdistinct.
    rewrite <- (sort_by_restores (rows T) rearranged Hdistinct Hperm) at 1.
    apply sort_by_Forall2; [| done]. intros row out. apply derived_from_key.
  - intros rows finalRows. apply sort_by_found_first.
Qed.
End RowOrder.

Lemma num_eqb_sym (x y : float) : PrimFloat.eqb x y = PrimFloat.eqb y x.
Proof.
  rewrite !FloatAxioms.eqb_spec. unfold SFeqb.
  rewrite (SFcompare_antisym (Prim2SF x) (Prim2SF y)).
  by destruct (SFcompare _ _) as [[] |].
Qed.

Lemma same_value_zero_sym (a b : option cell) :
  same_value_zero a b = same_value_zero b a.
Proof.
  destruct a as [[s | x |] |], b as [[t | y |] |]; cbn; try done.
  - apply String.eqb_sym.
  - by rewrite num_eqb_sym, (andb_comm (isNaN x)).
Qed.

Lemma distinct_ids_checked (rows : list TableRow) :
  distinct_ids_check rows = true -> distinct_ids rows.
Proof.
  induction rows as [| row rows IH]; intros Hcheck i j ri rj Hi Hj Hsame; [done |].
  cbn [distinct_ids_check] in Hcheck. apply andb_true_iff in Hcheck as [Hrow Hrest].
  rewrite forallb_forall in Hrow.
  destruct i as [| i], j as [| j]; cbn in Hi, Hj.
  - done.
  - injection Hi as <-. apply list_elem_of_lookup_2, list_elem_of_In, Hrow in Hj.
    by rewrite Hsame in Hj.
  - injection Hj as <-. apply list_elem_of_lookup_2, list_elem_of_In, Hrow in Hi.
    by rewrite same_value_zero_sym, Hsame in Hi.
  - f_equal. by eapply IH.
Qed.

(** The four parts on tables: both merges and the filter keep the rows in
    place, and on a table whose groups are interleaved the rows come back
    from dereplication in the order of the input, each with its status. *)
Lemma row_order_witness :
  (exists out unmatched,
     handleFileProcess step_fbmn (Some merge_base_ex) (Some merge_base_ex) merge_fbmn_ex =
       Ok (out, unmatched) /\
     Forall2 (fun baseRow outRow : TableRow =>
                forall col, col ∉ appendColumns step_fbmn -> outRow !! col = baseRow !! col)
       (rows merge_base_ex) (rows out)) /\
  (exists out unmatched,
     handleFileProcess step_supplementary (Some merge_base_ex) (Some merge_base_ex)
       merge_mass_ex = Ok (out, unmatched) /\
     Forall2 (fun baseRow outRow : TableRow =>
                forall col, col ∉ appendColumns step_supplementary ->
                            outRow !! col = baseRow !! col)
       (rows merge_base_ex) (rows out)) /\
  (exists T',
     handleApplyFilter (Some filter_table_ex) (Some {[ "Caffeine" ]}) = Ok T' /\
     sublist (rows T') (rows filter_table_ex)) /\
  (exists T',
     handleDereplication (Some interleaved_table) = Ok T' /\
     Forall2 derived_from (rows interleaved_table) (rows T') /\
     statuses T' =
       [Some (CStr Removed); Some (CStr Retained); Some (CStr Retained);
        Some (CStr Retained); Some (CStr Removed)]).
Proof.
  destruct (row_order_preserved (H := ascii_host)) as (Hmerge & Hfilter & Horder & _).
  split_and!.
  - eexists _, _. split; [vm_compute; reflexivity |].
    eapply (Hmerge step_fbmn merge_base_ex merge_base_ex merge_fbmn_ex);
      [vm_compute; reflexivity | by left].
  - eexists _, _. split; [vm_compute; reflexivity |].
    eapply (Hmerge step_supplementary merge_base_ex merge_base_ex merge_mass_ex);
      [vm_compute; reflexivity |].
    right. split; [done |]. by exists "MZ".
  - eexists. split; [vm_compute; reflexivity |].
    eapply (Hfilter filter_table_ex _ {[ "Caffeine" ]}). vm_compute. reflexivity.
  - eexists. split; [vm_compute; reflexivity |]. split.
    + apply (Horder interleaved_table); [vm_compute; reflexivity |].
      by apply distinct_ids_checked.
    + vm_compute. reflexivity.
Defined.

(** Without distinct identifiers the sort does not restore the input
    order: the order map keeps the last position of an identifier, so the
    two rows with identifier [1] below are both sent to position [2], after
    the row with identifier [2]. *)
Example duplicate_ids_reorder :
  result_map (fun T => map (fun row : TableRow => row !! "Final_Annotation") (rows T))
    (handleDereplication (Some duplicate_ids_table)) =
  Ok [Some (CStr "B"); Some (CStr "A"); Some (CStr "C")].
Proof. vm_compute. reflexivity. Qed.

(** C8: dereplication does not restore the original row order on a table
    in which an identifier is repeated. The rows below are what the import
    step writes for three file names of which the first and the third do
    not have the form [id/mass/time]: their identifier is [null]. The order
    map, keyed by identifier, keeps for [null] the position of the third
    row, so both rows are sorted to position [2] and the second row, at
    position [1], comes back first: the output order is second, first,
    third. *)
Theorem dereplication_reorders_null_ids :
  map (fun row : TableRow => row !! "ID")
    (map filename_fields
       [ {[ "Filename" := CStr "blank_1" ]};
         {[ "Filename" := CStr "13/302.25mz/0.7min" ]};
         {[ "Filename" := CStr "blank_2" ]} ]) =
    map (fun row : TableRow => row !! "ID") (rows null_ids_table) /\
  map (fun row : TableRow => row !! "ID") (rows null_ids_table) =
    [Some CNull; Some (CStr "13"); Some CNull] /\
  map (fun row : TableRow => row !! "Filename") (rows null_ids_table) =
    [Some (CStr "blank_1"); Some (CStr "13/302.25mz/0.7min"); Some (CStr "blank_2")] /\
  map (order_key (rows null_ids_table)) (rows null_ids_table) = [Some 2; Some 1; Some 2] /\
  result_map (fun T => map (fun row : TableRow => row !! "Filename") (rows T))
    (handleDereplication (Some null_ids_table)) =
    Ok [Some (CStr "13/302.25mz/0.7min"); Some (CStr "blank_1"); Some (CStr "blank_2")].
Proof. split_and!; vm_compute; reflexivity. Qed.

(** A row whose identifier is not in the order map is sorted last. *)
Example not_found_last :
  sort_by (order_key [scenario_row1; scenario_row2])
    [scenario_row3; scenario_row2; scenario_row1] =
  [scenario_row1; scenario_row2; scenario_row3].
Proof. vm_compute. reflexivity. Qed.

(** ** Numbers: sums and quotients of positive numbers

    The smallest positive number is [2^-1074], one unit. The facts below are
    read off [SFadd] and [SFdiv], the specifications of the primitive
    sum and quotient: a sum of [n] positive numbers is at least [n] units,
    and its quotient by [n] is at least one unit, so it is not [0]. *)

Section NumberBounds.
Local Open Scope Z_scope.

Lemma digits2_pos_bounds (m : positive) :
  2 ^ (Z.pos (digits2_pos m) - 1) <= Z.pos m < 2 ^ Z.pos (digits2_pos m).
Proof.
  induction m as [m IH | m IH |]; cbn [digits2_pos].
  - rewrite Pos2Z.inj_succ, Z.pow_succ_r by lia.
    replace (Z.succ (Z.pos (digits2_pos m)) - 1) with (Z.succ (Z.pos (digits2_pos m) - 1)) by lia.
    rewrite Z.pow_succ_r by lia. lia.
  - rewrite Pos2Z.inj_succ, Z.pow_succ_r by lia.
    replace (Z.succ (Z.pos (digits2_pos m)) - 1) with (Z.succ (Z.pos (digits2_pos m) - 1)) by lia.
    rewrite Z.pow_succ_r by lia. lia.
  - cbn. lia.
Qed.

Lemma shr_1_m (mrs : shr_record) :
  0 <= shr_m mrs -> shr_m (shr_1 mrs) = shr_m mrs / 2.
Proof.
  destruct mrs as [m r s]. cbn [shr_m shr_1]. intros Hm.
  destruct m as [| [p | p |] | p]; cbn [shr_m]; try lia.
  - reflexivity.
  - rewrite Pos2Z.inj_xI. apply Z.div_unique with 1; lia.
  - rewrite Pos2Z.inj_xO. apply Z.div_unique with 0; lia.
  - reflexivity.
Qed.

Lemma iter_shr_1_m (p : positive) (mrs : shr_record) :
  0 <= shr_m mrs -> shr_m (SpecFloat.iter_pos shr_1 p mrs) = shr_m mrs / 2 ^ Z.pos p.
Proof.
  revert mrs. induction p as [p IH | p IH |]; intros mrs Hm; cbn [SpecFloat.iter_pos].
  - assert (H1 : 0 <= shr_m (shr_1 mrs)) by (rewrite shr_1_m by done; apply Z.div_pos; lia).
    assert (H2 : 0 <= shr_m (SpecFloat.iter_pos shr_1 p (shr_1 mrs)))
      by (rewrite IH by done; apply Z.div_pos; lia).
    rewrite IH, IH, shr_1_m by done.
    rewrite !Z.div_div by lia. f_equal.
    replace (Z.pos p~1) with (1 + Z.pos p + Z.pos p) by lia.
    rewrite !Z.pow_add_r by lia. lia.
  - assert (H2 : 0 <= shr_m (SpecFloat.iter_pos shr_1 p mrs))
      by (rewrite IH by done; apply Z.div_pos; lia).
    rewrite IH, IH by done. rewrite Z.div_div by lia. f_equal.
    replace (Z.pos p~0) with (Z.pos p + Z.pos p) by lia.
    rewrite !Z.pow_add_r by lia. lia.
  - by apply shr_1_m.
Qed.

Lemma shr_record_of_loc_m (m : Z) (l : location) : shr_m (shr_record_of_loc m l) = m.
Proof. by destruct l as [| []]. Qed.

Lemma fexp_64 (x : Z) : fexp prec emax x = Z.max (x - 53) (-1074).
Proof. reflexivity. Qed.

(** Shifting a mantissa to its format either leaves it as it is or leaves at least 53 bits of it. *)
Lemma shr_fexp_cases (m : positive) (e : Z) (l : location) :
  -1074 <= e ->
  (shr_fexp prec emax (Z.pos m) e l).2 = e /\
    shr_m (shr_fexp prec emax (Z.pos m) e l).1 = Z.pos m \/
  e < (shr_fexp prec emax (Z.pos m) e l).2 /\
    2 ^ 52 <= shr_m (shr_fexp prec emax (Z.pos m) e l).1.
Proof.
  intros He. unfold shr_fexp, shr. rewrite fexp_64. cbn [Zdigits2].
  pose proof (digits2_pos_bounds m) as [Hlo Hhi].
  set (d := Z.pos (digits2_pos m)) in *.
  destruct (Z.max (d + e - 53) (-1074) - e) as [| n | n] eqn:Hn; cbn [fst snd].
  - left. by rewrite shr_record_of_loc_m.
  - right. split; [lia |].
    rewrite iter_shr_1_m by (rewrite shr_record_of_loc_m; lia).
    rewrite shr_record_of_loc_m.
    assert (Hd : Z.pos n = d - 53) by lia.
    apply Z.div_le_lower_bound; [lia |].
    rewrite <- Z.pow_add_r by lia. etrans; [| exact Hlo].
    apply Z.pow_le_mono_r; lia.
  - left. by rewrite shr_record_of_loc_m.
Qed.

Lemma round_nearest_even_ge (m : Z) (l : location) : m <= round_nearest_even m l.
Proof. destruct l as [| []]; cbn; try lia. destruct (Z.even m); lia. Qed.

Lemma binary_round_aux_above (m : positive) (e : Z) (l : location) :
  -1074 <= e ->
  above (Z.min (Z.pos m * 2 ^ (e + 1074)) (2 ^ 53))
    (binary_round_aux prec emax false (Z.pos m) e l).
Proof.
  intros He. unfold binary_round_aux.
  pose proof (shr_fexp_cases m e l He) as H1.
  destruct (shr_fexp prec emax (Z.pos m) e l) as [mrs1 e1]. cbn [fst snd] in H1.
  pose proof (round_nearest_even_ge (shr_m mrs1) (loc_of_shr_record mrs1)) as Hround.
  set (m2 := round_nearest_even (shr_m mrs1) (loc_of_shr_record mrs1)) in *.
  assert (Hm2 : 0 < m2) by (destruct H1 as [[_ ?] | [_ ?]]; lia).
  destruct m2 as [| p2 | p2] eqn:Hp2; try lia.
  assert (He1 : -1074 <= e1) by (destruct H1 as [[? _] | [? _]]; lia).
  pose proof (shr_fexp_cases p2 e1 loc_Exact He1) as H2.
  destruct (shr_fexp prec emax (Z.pos p2) e1 loc_Exact) as [mrs2 e2]. cbn [fst snd] in H2.
  assert (Hm3 : 0 < shr_m mrs2) by (destruct H2 as [[_ ?] | [_ ?]]; lia).
  destruct (shr_m mrs2) as [| p3 | p3] eqn:Hp3; try lia.
  destruct (Z.leb e2 (emax - prec)); [| by left].
  right. exists p3, e2. split; [done |].
  assert (He2 : -1074 <= e2) by (destruct H2 as [[? _] | [? _]]; lia).
  split; [done |].
  assert (Hbig : forall (q : Z) (x : Z), 2 ^ 52 <= q -> -1074 < x -> 2 ^ 53 <= q * 2 ^ (x + 1074)).
  { intros q x Hq Hx. change (2 ^ 53) with (2 ^ 52 * 2 ^ 1).
    apply Z.mul_le_mono_nonneg; [lia | done | lia |]. apply Z.pow_le_mono_r; lia. }
  destruct H2 as [[-> H2] | [H2e H2m]].
  - rewrite H2. destruct H1 as [[-> H1] | [H1e H1m]].
    + rewrite H1 in Hround. etrans; [apply Z.le_min_l |].
      apply Z.mul_le_mono_nonneg_r; [apply Z.pow_nonneg |]; lia.
    + etrans; [apply Z.le_min_r |]. apply Hbig; lia.
  - etrans; [apply Z.le_min_r |]. apply Hbig; lia.
Qed.

Lemma above_mono (j k : Z) (x : spec_float) : j <= k -> above k x -> above j x.
Proof.
  intros Hjk [-> | (m & e & -> & He & Hk)]; [by left |].
  right. exists m, e. split_and!; [done | done | lia].
Qed.

Lemma Pos_iter_xO (m d : positive) : Z.pos (Pos.iter xO m d) = Z.pos m * 2 ^ Z.pos d.
Proof.
  induction d as [| d IH] using Pos.peano_ind.
  - cbn. lia.
  - rewrite Pos.iter_succ, Pos2Z.inj_succ, Z.pow_succ_r by lia.
    change (Z.pos (Pos.iter xO m d)~0) with (2 * Z.pos (Pos.iter xO m d)). lia.
Qed.

(** Aligning a mantissa on a lower exponent keeps its value. *)
Lemma shl_align_spec (mx : positive) (ex ez : Z) :
  (shl_align mx ex ez).2 = Z.min ex ez /\
  Z.pos (shl_align mx ex ez).1 = Z.pos mx * 2 ^ (ex - Z.min ex ez).
Proof.
  unfold shl_align. destruct (ez - ex) as [| d | d] eqn:Hd; cbn [fst snd].
  - replace (Z.min ex ez) with ex by lia. rewrite Z.sub_diag. lia.
  - replace (Z.min ex ez) with ex by lia. rewrite Z.sub_diag. lia.
  - replace (Z.min ex ez) with ez by lia. split; [done |].
    rewrite Pos_iter_xO. f_equal. f_equal. lia.
Qed.

Lemma pow_split (a b : Z) : 0 <= a -> 0 <= b -> 2 ^ (a + b) = 2 ^ a * 2 ^ b.
Proof. intros. by apply Z.pow_add_r. Qed.

Lemma binary_round_above (m : positive) (e : Z) :
  -1074 <= e ->
  above (Z.min (Z.pos m * 2 ^ (e + 1074)) (2 ^ 53)) (binary_round prec emax false m e).
Proof.
  intros He. unfold binary_round.
  pose proof (shl_align_spec m e (fexp prec emax (Z.pos (digits2_pos m) + e))) as [He' Hm'].
  destruct (shl_align m e _) as [mz ez]. cbn [fst snd] in *.
  rewrite fexp_64 in He', Hm'.
  assert (Hez : -1074 <= ez) by lia.
  eapply above_mono; [| by apply binary_round_aux_above].
  apply Z.min_le_compat_r. rewrite Hm', <- He'.
  rewrite <- Z.mul_assoc, <- pow_split by lia.
  replace (e - ez + (ez + 1074)) with (e + 1074) by lia. lia.
Qed.

(** The sum of two numbers that are at least [j] and [k] units is at
    least [j + k] units, as long as [j + k] is a mantissa. *)
Lemma SFadd_above (j k : Z) (x y : spec_float) :
  above j x -> above k y -> j + k <= 2 ^ 53 -> above (j + k) (SF64add x y).
Proof.
  intros [-> | (mx & ex & -> & Hex & Hx)] [-> | (my & ey & -> & Hey & Hy)] Hjk;
    try (by left).
  unfold SF64add, SFadd. cbn [cond_Zopp].
  pose proof (shl_align_spec mx ex (Z.min ex ey)) as [_ Hmx].
  pose proof (shl_align_spec my ey (Z.min ex ey)) as [_ Hmy].
  set (ax := (shl_align mx ex (Z.min ex ey)).1) in *.
  set (ay := (shl_align my ey (Z.min ex ey)).1) in *.
  set (ez := Z.min ex ey) in *.
  replace (Z.min ex ez) with ez in Hmx by lia.
  replace (Z.min ey ez) with ez in Hmy by lia.
  change (Z.pos ax + Z.pos ay) with (Z.pos (ax + ay)). cbn [binary_normalize].
  eapply above_mono; [| apply binary_round_above; lia].
  apply Z.min_glb; [| done].
  rewrite Pos2Z.inj_add, Z.mul_add_distr_r, Hmx, Hmy.
  rewrite <- !Z.mul_assoc, <- !pow_split by lia.
  replace (ex - ez + (ez + 1074)) with (ex + 1074) by lia.
  replace (ey - ez + (ez + 1074)) with (ey + 1074) by lia. lia.
Qed.

(** A number above [0] is at least one unit. *)
Lemma positive_above (v : float) : PrimFloat.ltb 0 v = true -> above 1 (Prim2SF v).
Proof.
  rewrite FloatAxioms.ltb_spec. change (Prim2SF 0) with (S754_zero false).
  pose proof (Prim2SF_valid v) as Hvalid.
  destruct (Prim2SF v) as [s | [] | | [] m e]; try done; [by left |].
  intros _. right. exists m, e. split; [done |].
  cbn in Hvalid. apply andb_true_iff in Hvalid as [Hcanon _].
  unfold canonical_mantissa in Hcanon. apply Z.eqb_eq in Hcanon. rewrite fexp_64 in Hcanon.
  split; [lia |].
  assert (1 <= 2 ^ (e + 1074)) by (apply (Z.pow_le_mono_r 2 0); lia). nia.
Qed.

Lemma digits2_pos_unique (m : positive) (k : Z) :
  2 ^ (k - 1) <= Z.pos m < 2 ^ k -> Z.pos (digits2_pos m) = k.
Proof.
  intros [Hlo Hhi]. pose proof (digits2_pos_bounds m) as [Dlo Dhi].
  set (d := Z.pos (digits2_pos m)) in *.
  assert (Hk : 0 < k).
  { destruct (Z.lt_ge_cases 0 k) as [? | Hk]; [done |].
    assert (2 ^ k <= 2 ^ 0) by (apply Z.pow_le_mono_r; lia). lia. }
  destruct (Z.lt_trichotomy d k) as [Hlt | [Heq | Hgt]]; [| done |].
  - assert (2 ^ d <= 2 ^ (k - 1)) by (apply Z.pow_le_mono_r; lia). lia.
  - assert (2 ^ k <= 2 ^ (d - 1)) by (apply Z.pow_le_mono_r; lia). lia.
Qed.

(** The number of an integer below [2^53] is exact. *)
Lemma binary_round_int (p : positive) :
  Z.pos p < 2 ^ 53 ->
  exists my ey,
    binary_round prec emax false p 0 = S754_finite false my ey /\
    -1074 <= ey <= 0 /\ Z.pos my = Z.pos p * 2 ^ (- ey).
Proof.
  intros Hp. unfold binary_round.
  pose proof (digits2_pos_bounds p) as [Dlo Dhi].
  set (d := Z.pos (digits2_pos p)) in *.
  assert (Hd : 1 <= d <= 53).
  { split; [subst d; lia |].
    destruct (Z.le_gt_cases d 53) as [? | Hgt]; [done |].
    assert (2 ^ 53 <= 2 ^ (d - 1)) by (apply Z.pow_le_mono_r; lia). lia. }
  pose proof (shl_align_spec p 0 (fexp prec emax (d + 0))) as [He' Hm'].
  destruct (shl_align p 0 _) as [mz ez]. cbn [fst snd] in *.
  rewrite fexp_64 in He', Hm'.
  assert (Hez : ez = d - 53) by lia.
  replace (0 - Z.min 0 (Z.max (d + 0 - 53) (-1074))) with (53 - d) in Hm' by lia.
  assert (Hdigits : Z.pos (digits2_pos mz) = 53).
  { apply digits2_pos_unique. rewrite Hm'. split.
    - replace (53 - 1) with ((d - 1) + (53 - d)) by lia. rewrite pow_split by lia.
      apply Z.mul_le_mono_nonneg_r; [apply Z.pow_nonneg; lia | done].
    - replace 53 with (d + (53 - d)) at 2 by lia. rewrite pow_split by lia.
      apply Z.mul_lt_mono_pos_r; [apply Z.pow_pos_nonneg; lia | done]. }
  exists mz, ez. split_and!; [| lia | lia | rewrite Hm'; f_equal; f_equal; lia].
  unfold binary_round_aux, shr_fexp. cbn [Zdigits2]. rewrite Hdigits, fexp_64.
  replace (Z.max (53 + ez - 53) (-1074) - ez) with 0 by lia.
  cbn [shr shr_record_of_loc shr_m loc_of_shr_record round_nearest_even Zdigits2].
  rewrite Hdigits, fexp_64.
  replace (Z.max (53 + ez - 53) (-1074) - ez) with 0 by lia.
  cbn [shr shr_record_of_loc shr_m].
  replace (Z.leb ez (emax - prec)) with true; [done |].
  symmetry. apply Z.leb_le. change (emax - prec) with 971. lia.
Qed.

(** A quotient does not underflow when the dividend is at least as many
    units as the divisor is. *)
Lemma SFdiv_above (n : Z) (x : spec_float) (my : positive) (ey : Z) :
  above n x -> -1074 <= ey <= 0 -> Z.pos my = n * 2 ^ (- ey) ->
  above 1 (SF64div x (S754_finite false my ey)).
Proof.
  intros [-> | (mx & ex & -> & Hex & Hx)] Hey Hmy; [by left |].
  unfold SF64div, SFdiv, SFdiv_core_binary. cbn [xorb Zdigits2].
  pose proof (digits2_pos_bounds mx) as [D1lo D1hi].
  pose proof (digits2_pos_bounds my) as [D2lo D2hi].
  set (d1 := Z.pos (digits2_pos mx)) in *.
  set (d2 := Z.pos (digits2_pos my)) in *.
  rewrite fexp_64.
  set (e' := Z.min (Z.max (d1 + ex - (d2 + ey) - 53) (-1074)) (ex - ey)).
  set (s := ex - ey - e').
  assert (Hs : 0 <= s) by (subst s e'; lia).
  assert (He' : -1074 <= e') by (subst e'; lia).
  set (m' := match s with Z.pos _ => Z.shiftl (Z.pos mx) s | 0 => Z.pos mx | Z.neg _ => 0 end).
  assert (Hm' : m' = Z.pos mx * 2 ^ s).
  { subst m'. destruct s as [| ps | ps] eqn:Hps; [lia | | lia].
    by rewrite Z.shiftl_mul_pow2. }
  assert (Hge : Z.pos my <= m').
  { rewrite Hm'. assert (Hcase : e' = -1074 \/ d2 <= d1 - 1 + s) by (subst s e'; lia).
    destruct Hcase as [He | Hd].
    - replace s with ((ex + 1074) + (- ey)) by (subst s; lia).
      rewrite pow_split, Z.mul_assoc, Hmy by lia.
      apply Z.mul_le_mono_nonneg_r; [apply Z.pow_nonneg; lia | done].
    - assert (2 ^ d2 <= 2 ^ (d1 - 1 + s)) by (apply Z.pow_le_mono_r; lia).
      assert (2 ^ (d1 - 1 + s) <= Z.pos mx * 2 ^ s).
      { rewrite pow_split by (subst d1; lia).
        apply Z.mul_le_mono_nonneg_r; [apply Z.pow_nonneg; lia | done]. }
      lia. }
  assert (Hq : 1 <= m' / Z.pos my) by (apply Z.div_le_lower_bound; lia).
  change (Z.div_eucl m' (Z.pos my)) with (Z.div_eucl m' (Z.pos my)).
  pose proof (Z.div_eucl_eq m' (Z.pos my) ltac:(lia)) as Heucl.
  unfold Z.div in Hq.
  destruct (Z.div_eucl m' (Z.pos my)) as [q r]. cbn [fst] in Hq.
  destruct q as [| pq | pq]; try lia.
  eapply above_mono; [| by apply binary_round_aux_above].
  apply Z.min_glb; [| lia].
  assert (1 <= 2 ^ (e' + 1074)) by (apply (Z.pow_le_mono_r 2 0); lia). nia.
Qed.

Lemma SFadd_zero_l (x : spec_float) :
  above 1 x -> SF64add (S754_zero false) x = x.
Proof. by intros [-> | (m & e & -> & _)]. Qed.

(** The sum of [n] numbers above [0] is at least [n] units. *)
Lemma fold_add_above (l : list float) (acc : float) (k : Z) :
  Forall (fun v => PrimFloat.ltb 0 v = true) l ->
  above k (Prim2SF acc) -> k + Z.of_nat (length l) <= 2 ^ 53 ->
  above (k + Z.of_nat (length l)) (Prim2SF (fold_left PrimFloat.add l acc)).
Proof.
  revert acc k. induction l as [| v l IH]; intros acc k Hl Hacc Hk; cbn [fold_left length].
  - by rewrite Z.add_0_r.
  - apply Forall_cons in Hl as [Hv Hl]. cbn [length] in Hk. rewrite Nat2Z.inj_succ in *.
    replace (k + Z.succ (Z.of_nat (length l))) with ((k + 1) + Z.of_nat (length l)) by lia.
    apply IH; [done | | lia].
    rewrite FloatAxioms.add_spec. apply SFadd_above; [done | by apply positive_above | lia].
Qed.

Lemma sum_above (l : list float) :
  l <> [] -> Forall (fun v => PrimFloat.ltb 0 v = true) l ->
  Z.of_nat (length l) <= 2 ^ 53 ->
  above (Z.of_nat (length l)) (Prim2SF (fold_left PrimFloat.add l 0%float)).
Proof.
  intros Hne Hl Hlen. destruct l as [| v l]; [done |].
  apply Forall_cons in Hl as [Hv Hl]. cbn [fold_left length] in *.
  rewrite Nat2Z.inj_succ in *.
  replace (Z.succ (Z.of_nat (length l))) with (1 + Z.of_nat (length l)) by lia.
  apply fold_add_above; [done | | lia].
  rewrite FloatAxioms.add_spec. change (Prim2SF 0) with (S754_zero false).
  rewrite SFadd_zero_l; by apply positive_above.
Qed.

Lemma above_positive (x : float) :
  above 1 (Prim2SF x) -> PrimFloat.ltb 0 x = true /\ PrimFloat.eqb x 0 = false.
Proof.
  rewrite FloatAxioms.ltb_spec, FloatAxioms.eqb_spec. change (Prim2SF 0) with (S754_zero false).
  by intros [-> | (m & e & -> & _)].
Qed.

Lemma Prim2SF_of_nat (n : nat) :
  (0 < n)%nat -> Z.of_nat n < 2 ^ 53 ->
  exists my ey,
    Prim2SF (PrimFloat.of_uint63 (Uint63.of_Z (Z.of_nat n))) = S754_finite false my ey /\
    -1074 <= ey <= 0 /\ Z.pos my = Z.of_nat n * 2 ^ (- ey).
Proof.
  intros Hpos Hn. rewrite FloatAxioms.of_uint63_spec, Uint63.of_Z_spec.
  rewrite Z.mod_small by (change wB with (2 ^ 63); lia).
  destruct (Z.of_nat n) as [| p | p] eqn:Hp; [lia | | lia].
  cbn [binary_normalize]. by apply binary_round_int.
Qed.

End NumberBounds.

(** ** Dereplication: the mean of the QC values *)

Section QcMean.
Context `{JSHost}.

Lemma qcValues_positive (qcCols : list string) (row : TableRow) :
  Forall (fun v => PrimFloat.ltb 0 v = true) (qcValues qcCols row).
Proof.
  apply Forall_forall. intros v [_ Hv]%list_elem_of_In%filter_In.
  by apply andb_true_iff in Hv as [_ Hv].
Qed.

Lemma filter_length_le {A : Type} (p : A -> bool) (l : list A) :
  length (List.filter p l) <= length l.
Proof. induction l as [| x l IH]; cbn; [lia |]. destruct (p x); cbn; lia. Qed.

Lemma qcValues_length (qcCols : list string) (row : TableRow) :
  length (qcValues qcCols row) <= length qcCols.
Proof. unfold qcValues. etrans; [apply filter_length_le |]. by rewrite length_map. Qed.

(** C10: the QC values of a row are above [0], and the mean is computed
    only of two or more of them; it is then above [0] itself (the QC
    columns being the elements of an array, there are fewer than [2^32] of
    them, and [2^53] is enough), so the test [mean === 0] that marks the row
    [ExcludedUnstableQC] never succeeds. *)
Theorem qc_mean_positive (qcCols : list string) (row : TableRow)
    (Hcols : (Z.of_nat (length qcCols) < 2 ^ 53)%Z)
    (Hmany : Nat.ltb (length (qcValues qcCols row)) 2 = false) :
  num_gt (mean (qcValues qcCols row)) 0 = true /\
  PrimFloat.eqb (mean (qcValues qcCols row)) 0 = false.
Proof.
  apply Nat.ltb_ge in Hmany.
  pose proof (qcValues_length qcCols row) as Hlen.
  pose proof (qcValues_positive qcCols row) as Hpos.
  set (qc := qcValues qcCols row) in *.
  apply above_positive. unfold mean, sum, num_of_nat. rewrite FloatAxioms.div_spec.
  destruct (Prim2SF_of_nat (length qc)) as (my & ey & -> & Hey & Hmy); [lia | lia |].
  eapply SFdiv_above; [| done | done].
  apply sum_above; [by destruct qc | done | lia].
Qed.
End QcMean.

Lemma qc_mean_positive_witness :
  num_gt (mean (qcValues scenario_qcCols scenario_row1)) 0 = true /\
  PrimFloat.eqb (mean (qcValues scenario_qcCols scenario_row1)) 0 = false.
Proof.
  apply (qc_mean_positive scenario_qcCols scenario_row1).
  - cbn. lia.
  - reflexivity.
Defined.

(** ** Dereplication: the winner, as specified *)

(** The mean of positive numbers is positive. *)
Lemma mean_above (l : list float) :
  l <> [] -> Forall (fun v => PrimFloat.ltb 0 v = true) l ->
  (Z.of_nat (length l) < 2 ^ 53)%Z ->
  PrimFloat.ltb 0 (mean l) = true /\ PrimFloat.eqb (mean l) 0 = false.
Proof.
  intros Hne Hpos Hlen.
  apply above_positive. unfold mean, sum, num_of_nat. rewrite FloatAxioms.div_spec.
  destruct (Prim2SF_of_nat (length l)) as (my & ey & -> & Hey & Hmy);
    [destruct l; [done | cbn [length]; lia] | lia |].
  eapply SFdiv_above; [| done | done].
  apply sum_above; [done | done | lia].
Qed.

(** Numbers that are equal give the same sum with [2]: the two zeros, which
    are equal, both give [2]. *)
Lemma eqb_add_2 (x y : float) :
  PrimFloat.eqb x y = true -> (x + 2)%float = (y + 2)%float.
Proof.
  rewrite FloatAxioms.eqb_spec. intros Heq. apply Prim2SF_inj.
  rewrite !FloatAxioms.add_spec. unfold SFeqb in Heq.
  destruct (Prim2SF x) as [sx | sx | | sx mx ex] eqn:Hx,
           (Prim2SF y) as [sy | sy | | sy my ey] eqn:Hy;
    try destruct sx; try destruct sy; try done.
  - cbn [SFcompare] in Heq. destruct (Z.compare_spec ex ey) as [-> | |]; try done.
    change (Pos.compare_cont Eq mx my) with (Pos.compare mx my) in Heq.
    destruct (Pos.compare_spec mx my) as [-> | |]; done.
  - cbn [SFcompare] in Heq. destruct (Z.compare_spec ex ey) as [-> | |]; try done.
    change (Pos.compare_cont Eq mx my) with (Pos.compare mx my) in Heq.
    destruct (Pos.compare_spec mx my) as [-> | |]; done.
Qed.

Section WinnerFacts.
Context `{JSHost}.

(** The intensity that the fold compares, [_avg_intensity || 0], is this
    mean: it is above [0] or is [0]. *)
Lemma avg_or_zero_read (bioCols : list string) (c : TableRow) :
  (Z.of_nat (length bioCols) < 2 ^ 53)%Z ->
  avg_or_zero (with_avg bioCols c) = mean_of_positive bioCols c.
Proof.
  intros Hcols. rewrite avg_or_zero_with_avg, avgIntensity_read.
  unfold mean_of_positive.
  set (values := List.filter _ _).
  assert (Hlen : length values <= length bioCols).
  { unfold values. etrans; [apply filter_length_le |]. by rewrite length_map. }
  assert (Hpos : Forall (fun v => PrimFloat.ltb 0 v = true) values).
  { apply Forall_forall. by intros v [_ Hv]%list_elem_of_In%filter_In. }
  clearbody values. destruct values as [| v others]; [done |].
  destruct (mean_above (v :: others)) as [Hgt Hne]; [done | done | lia |].
  unfold mean in Hgt, Hne. rewrite Hne.
  apply (num_lt_not_nan 0) in Hgt as [_ ->]. done.
Qed.

(** C7: two or more candidates that survived stage 1 each carry an RSD
    (a row that passed with fewer than two QC values carries the RSD [0]).
    With [minRsd] the least of these RSDs and [avg] the mean of the
    positive values of a candidate in the biological columns ([0] when
    none is positive), the winner is a candidate of the window, those whose
    RSD is below [minRsd + 2], and it is returned with its [avg]. No
    candidate of the window has a greater [avg], and every candidate of
    the window placed before the winner has a strictly lower one: of two
    candidates of identical [avg], the earlier one is selected. There is no
    winner only when the window is empty. *)
Theorem select_winner_first_max (bioCols : list string) (candidates : list TableRow)
    (minRsd : float)
    (Hcols : (Z.of_nat (length bioCols) < 2 ^ 53)%Z)
    (Hmany : 2 <= length candidates)
    (Hmin : exists c : TableRow, c ∈ candidates /\ c !! "_qc_rsd" = Some (CNum minRsd))
    (Hleast : Forall (fun c : TableRow =>
                        exists rsd, c !! "_qc_rsd" = Some (CNum rsd) /\
                                    PrimFloat.leb minRsd rsd = true) candidates) :
  let avg := mean_of_positive bioCols in
  let in_window (c : TableRow) :=
    exists rsd, c !! "_qc_rsd" = Some (CNum rsd) /\
                PrimFloat.ltb rsd (minRsd + 2) = true in
  (forall (qcCols : list string) (groupRows : list TableRow),
     Forall (fun c : TableRow => exists rsd, c !! "_qc_rsd" = Some (CNum rsd))
       (candidates_of bioCols qcCols groupRows)) /\
  (forall (qcCols : list string) (row : TableRow),
     num_gt (missingRate bioCols row) 50 = false ->
     length (List.filter (fun v => negb (isNaN v) && num_gt v 0)
               (map (fun col => Number (row !! col)) qcCols)) < 2 ->
     candidate_of bioCols qcCols row !! "_qc_rsd" = Some (CNum 0)) /\
  match select_winner bioCols candidates with
  | None => Forall (fun c => ~ in_window c) candidates
  | Some winner =>
      exists before c after,
        candidates = before ++ c :: after /\
        winner = <["_avg_intensity" := CNum (avg c)]> c /\
        in_window c /\
        Forall (fun c' => in_window c' -> PrimFloat.ltb (avg c') (avg c) = true) before /\
        Forall (fun c' => in_window c' -> PrimFloat.ltb (avg c) (avg c') = false) after
  end.
Proof.
  intros avg in_window. split_and!.
  - apply candidates_of_rsd.
  - intros qcCols row Hmiss Hfew. unfold candidate_of.
    rewrite Hmiss. apply Nat.ltb_lt in Hfew. unfold qcValues. rewrite Hfew.
    apply lookup_insert_eq.
  - pose proof (select_winner_window bioCols candidates Hmany) as Hwin.
    cbv zeta in Hwin.
    set (scored := map (with_avg bioCols) candidates) in *.
    assert (Hread : forall (c : TableRow) rsd,
              c !! "_qc_rsd" = Some (CNum rsd) -> qc_rsd (with_avg bioCols c) = rsd).
    { intros c rsd Hc. rewrite qc_rsd_with_avg. unfold qc_rsd, f_qc_rsd. by rewrite Hc. }
    assert (Hrsds : Forall (fun x => isNaN x = false /\ num_le minRsd x = true)
                      (map qc_rsd scored)).
    { unfold scored. rewrite map_map. apply Forall_fmap.
      eapply Forall_impl; [done |]. intros c (rsd & Hc & Hle).
      change (isNaN (qc_rsd (with_avg bioCols c)) = false /\
              num_le minRsd (qc_rsd (with_avg bioCols c)) = true).
      rewrite (Hread c rsd Hc). split; [| done]. by apply num_le_not_nan in Hle as [_ ?]. }
    assert (Hne : map qc_rsd scored <> []).
    { unfold scored. destruct candidates; [cbn in Hmany; lia | done]. }
    destruct (Math_min_spec (map qc_rsd scored) Hne) as [Hex Hall].
    { eapply Forall_impl; [done |]. by intros x [? _]. }
    assert (Hsame : PrimFloat.eqb (Math_min (map qc_rsd scored)) minRsd = true).
    { apply num_le_antisym.
      - destruct Hmin as (c & Hc & Hcrsd). rewrite Forall_forall in Hall. apply Hall.
        unfold scored. rewrite map_map. apply list_elem_of_fmap. exists c.
        split; [| done]. by rewrite (Hread c minRsd Hcrsd).
      - apply Exists_exists in Hex as (x & Hx & Heq).
        rewrite Forall_forall in Hrsds. destruct (Hrsds x Hx) as [_ Hle].
        apply num_eqb_le in Heq as [Heq _]. by eapply num_le_trans. }
    rewrite (eqb_add_2 _ _ Hsame) in Hwin.
    set (passes := fun c : TableRow => num_lt (qc_rsd c) (minRsd + 2)%float) in *.
    assert (Hpass : forall c : TableRow, c ∈ candidates ->
              (passes (with_avg bioCols c) = true <-> in_window c)).
    { intros c Hc. rewrite Forall_forall in Hleast.
      destruct (Hleast c Hc) as (rsd & Hcrsd & _). unfold passes, in_window.
      rewrite (Hread c rsd Hcrsd). split.
      - intros Hlt. by exists rsd.
      - intros (rsd' & Hcrsd' & Hlt). rewrite Hcrsd in Hcrsd'.
        injection Hcrsd' as ->. done. }
    destruct (select_winner bioCols candidates) as [w |].
    + destruct Hwin as (b & a & Hwindow & Hb & Ha).
      apply filter_app_inv in Hwindow as (l1 & l2 & Hscored & Hl1 & Hl2 & Hw).
      unfold scored in Hscored.
      apply fmap_app_inv in Hscored as (before & rest & -> & Hrest & Hcands).
      symmetry in Hrest. apply fmap_cons_inv in Hrest as (c & after & -> & -> & ->).
      exists before, c, after. subst candidates.
      assert (Hc : c ∈ before ++ c :: after).
      { apply elem_of_app. right. left. }
      split_and!.
      * done.
      * unfold with_avg, f_avg_intensity, avg. by rewrite avgIntensity_read.
      * by apply Hpass.
      * apply Forall_forall. intros c' Hc' Hin. rewrite Forall_forall in Hb.
        assert (Hb' : with_avg bioCols c' ∈ b).
        { rewrite <- Hl1. apply list_elem_of_In, filter_In. split.
          - apply list_elem_of_In, list_elem_of_fmap. by exists c'.
          - apply Hpass; [| done]. apply elem_of_app. by left. }
        specialize (Hb _ Hb'). cbn beta in Hb.
        by rewrite !avg_or_zero_read in Hb.
      * apply Forall_forall. intros c' Hc' Hin. rewrite Forall_forall in Ha.
        assert (Ha' : with_avg bioCols c' ∈ a).
        { rewrite <- Hl2. apply list_elem_of_In, filter_In. split.
          - apply list_elem_of_In, list_elem_of_fmap. by exists c'.
          - apply Hpass; [| done]. apply elem_of_app. right. by right. }
        specialize (Ha _ Ha'). cbn beta in Ha.
        by rewrite !avg_or_zero_read in Ha.
    + apply Forall_forall. intros c Hc Hin. apply (Hpass c Hc) in Hin.
      assert (Hw : with_avg bioCols c ∈ List.filter passes scored).
      { apply list_elem_of_In, filter_In. split; [| done].
        apply list_elem_of_In, list_elem_of_fmap. by exists c. }
      rewrite Hwin in Hw. by apply elem_of_nil in Hw.
Qed.
End WinnerFacts.

Lemma select_winner_witness :
  let bioCols := ["CON_1"] in
  let candidates := candidates_ex in
  let minRsd := 5%float in
  let avg := mean_of_positive bioCols in
  let in_window (c : TableRow) :=
    exists rsd, c !! "_qc_rsd" = Some (CNum rsd) /\
                PrimFloat.ltb rsd (minRsd + 2) = true in
  (forall (qcCols : list string) (groupRows : list TableRow),
     Forall (fun c : TableRow => exists rsd, c !! "_qc_rsd" = Some (CNum rsd))
       (candidates_of bioCols qcCols groupRows)) /\
  (forall (qcCols : list string) (row : TableRow),
     num_gt (missingRate bioCols row) 50 = false ->
     length (List.filter (fun v => negb (isNaN v) && num_gt v 0)
               (map (fun col => Number (row !! col)) qcCols)) < 2 ->
     candidate_of bioCols qcCols row !! "_qc_rsd" = Some (CNum 0)) /\
  match select_winner bioCols candidates with
  | None => Forall (fun c => ~ in_window c) candidates
  | Some winner =>
      exists before c after,
        candidates = before ++ c :: after /\
        winner = <["_avg_intensity" := CNum (avg c)]> c /\
        in_window c /\
        Forall (fun c' => in_window c' -> PrimFloat.ltb (avg c') (avg c) = true) before /\
        Forall (fun c' => in_window c' -> PrimFloat.ltb (avg c) (avg c') = false) after
  end.
Proof.
  apply (select_winner_first_max ["CON_1"] candidates_ex 5%float).
  - cbn. lia.
  - cbn. lia.
  - eexists. split; [apply list_elem_of_here | reflexivity].
  - unfold candidates_ex. repeat constructor; eexists; (split; [reflexivity | reflexivity]).
Defined.

(** ** The import step *)

Lemma append_nil_l (s : string) : EmptyString +:+ s = s.
Proof. reflexivity. Qed.

Lemma append_cons (c : ascii) (a s : string) : String c a +:+ s = String c (a +:+ s).
Proof. reflexivity. Qed.

Lemma append_empty_r (s : string) : s +:+ EmptyString = s.
Proof. induction s as [| c s IH]; [done |]. by rewrite append_cons, IH. Qed.

Lemma split_on_length (sep : ascii) (s : string) :
  length (split_on sep s) = S (count_char sep s).
Proof.
  induction s as [| c s IH]; cbn [split_on count_char]; [done |].
  destruct (Ascii.eqb c sep); cbn [length]; [by rewrite IH |].
  destruct (split_on sep s) as [| part parts]; [done |]. cbn [length] in *. lia.
Qed.

Lemma split_on_nonempty (sep : ascii) (s : string) : split_on sep s <> [].
Proof.
  intros Hnil. pose proof (split_on_length sep s) as Hlen. by rewrite Hnil in Hlen.
Qed.

(** A text without the separator is one part. *)
Lemma split_on_none (sep : ascii) (s : string) :
  count_char sep s = 0 -> split_on sep s = [s].
Proof.
  induction s as [| c s IH]; cbn [split_on count_char]; [done |].
  destruct (Ascii.eqb c sep); [done |]. intros Hs. by rewrite IH.
Qed.

(** The first part ends at the first separator. *)
Lemma split_on_app (sep : ascii) (a rest : string) :
  count_char sep a = 0 ->
  split_on sep (a +:+ String sep rest) = a :: split_on sep rest.
Proof.
  induction a as [| c a IH]; intros Ha.
  - rewrite append_nil_l. cbn [split_on]. by rewrite Ascii.eqb_refl.
  - rewrite append_cons. cbn [split_on count_char] in *.
    destruct (Ascii.eqb c sep); [done |]. by rewrite IH.
Qed.

Lemma count_char_app (c : ascii) (a b : string) :
  count_char c (a +:+ b) = count_char c a + count_char c b.
Proof.
  induction a as [| x a IH]; [done |].
  rewrite append_cons. cbn [count_char]. rewrite IH. lia.
Qed.

Lemma match_head_same (p u s : string) :
  same_letters p u = true -> match_head p (u +:+ s) = Some s.
Proof.
  revert u. induction p as [| a p IH]; intros [| c u]; cbn [same_letters]; try done.
  intros [Hc Hu]%andb_prop. rewrite append_cons. cbn [match_head]. rewrite Hc. by apply IH.
Qed.

(** The first match is not looked for before a text without the first
    letter of the pattern. *)
Lemma remove_first_skip (c : ascii) (p a s : string) :
  has_letter c a = false ->
  remove_first (String c p) (a +:+ s) = a +:+ remove_first (String c p) s.
Proof.
  induction a as [| x a IH]; [done |].
  cbn [has_letter]. intros [Hx Ha]%orb_false_iff.
  rewrite !append_cons. cbn [remove_first match_head]. rewrite Hx.
  fold remove_first. by rewrite IH.
Qed.

Lemma remove_first_found (c : ascii) (p a u s : string) :
  has_letter c a = false -> same_letters (String c p) u = true ->
  remove_first (String c p) (a +:+ u +:+ s) = a +:+ s.
Proof.
  intros Ha Hu. rewrite remove_first_skip by done. f_equal.
  pose proof (match_head_same _ _ s Hu) as Hhead.
  destruct (u +:+ s) eqn:Hs; unfold remove_first; fold remove_first; by rewrite Hhead.
Qed.

(** A text that does not hold the first letter of the pattern is left as
    it is. *)
Lemma remove_first_absent (c : ascii) (p a : string) :
  has_letter c a = false -> remove_first (String c p) a = a.
Proof.
  induction a as [| x a IH]; cbn [has_letter]; [done |].
  intros [Hx Ha]%orb_false_iff.
  cbn [remove_first match_head]. rewrite Hx. fold remove_first. by rewrite IH.
Qed.

Lemma uniq_elem_of (l : list string) (x : string) : x ∈ uniq l <-> x ∈ l.
Proof.
  unfold uniq. destruct (uniq_from_spec ∅ l) as [_ Hin]. rewrite Hin. set_solver.
Qed.

Lemma uniq_NoDup_id_from (seen : gset string) (l : list string) :
  NoDup l -> (forall x, x ∈ l -> x ∉ seen) -> uniq_from seen l = l.
Proof.
  intros Hnd. revert seen. induction Hnd as [| x l Hx Hnd IH]; intros seen Hseen; [done |].
  cbn [uniq_from]. rewrite bool_decide_eq_false_2 by (apply Hseen; left).
  f_equal. apply IH. intros y Hy. rewrite elem_of_union, elem_of_singleton.
  intros [-> | Hin]; [done |]. by apply (Hseen y); [right |].
Qed.

(** A list without duplicates is its own list of distinct elements. *)
Lemma uniq_NoDup_id (l : list string) : NoDup l -> uniq l = l.
Proof. intros Hnd. apply uniq_NoDup_id_from; [done |]. set_solver. Qed.

Lemma NoDup_List_filter {A : Type} (p : A -> bool) (l : list A) :
  NoDup l -> NoDup (List.filter p l).
Proof.
  induction 1 as [| x l Hx Hnd IH]; cbn [List.filter]; [constructor |].
  destruct (p x); [| done]. constructor; [| done].
  rewrite list_elem_of_In, filter_In, <- list_elem_of_In. tauto.
Qed.

Lemma includes_true (l : list string) (s : string) : includes l s = true <-> s ∈ l.
Proof. unfold includes. apply bool_decide_eq_true. Qed.

Lemma includes_false (l : list string) (s : string) : includes l s = false <-> s ∉ l.
Proof. unfold includes. apply bool_decide_eq_false. Qed.

Lemma indexOf_Some (l : list string) (s : string) (i : nat) :
  indexOf l s = Some i ->
  exists before after, l = before ++ s :: after /\ length before = i /\ s ∉ before.
Proof.
  revert i. induction l as [| x l IH]; intros i; cbn [indexOf]; [done |].
  destruct (String.eqb x s) eqn:Hx.
  - apply String.eqb_eq in Hx as ->. intros [= <-].
    exists [], l. split_and!; [done | done | apply not_elem_of_nil].
  - destruct (indexOf l s) as [j |]; [| done]. cbn. intros [= <-].
    destruct (IH j eq_refl) as (before & after & -> & Hlen & Hnot).
    exists (x :: before), after. split_and!; [done | by cbn; rewrite Hlen |].
    apply not_elem_of_cons. split; [| done].
    intros ->. by rewrite String.eqb_refl in Hx.
Qed.

Lemma indexOf_first (before after : list string) (s : string) :
  s ∉ before -> indexOf (before ++ s :: after) s = Some (length before).
Proof.
  induction before as [| x before IH]; cbn [app indexOf length].
  - by rewrite String.eqb_refl.
  - intros [Hx Hnot]%not_elem_of_cons.
    destruct (String.eqb x s) eqn:Heq; [by apply String.eqb_eq in Heq as -> |].
    by rewrite IH.
Qed.

Lemma indexOf_None (l : list string) (s : string) : indexOf l s = None -> s ∉ l.
Proof.
  induction l as [| x l IH]; cbn [indexOf]; [intros _; apply not_elem_of_nil |].
  destruct (String.eqb x s) eqn:Hx; [done |].
  destruct (indexOf l s); [done |]. intros _.
  apply not_elem_of_cons. split; [| by apply IH].
  intros ->. by rewrite String.eqb_refl in Hx.
Qed.

Lemma key_fields_lookup (id mz rt : cell) (row : TableRow) :
  let out := <["RT" := rt]> (<["MZ" := mz]> (<["ID" := id]> row)) in
  out !! "ID" = Some id /\ out !! "MZ" = Some mz /\ out !! "RT" = Some rt.
Proof.
  intros out. unfold out. split_and!.
  - rewrite !lookup_insert_ne by done. apply lookup_insert_eq.
  - rewrite lookup_insert_ne by done. apply lookup_insert_eq.
  - apply lookup_insert_eq.
Qed.

Lemma key_fields_outside (id mz rt : cell) (row : TableRow) (col : string) :
  col ∉ ["ID"; "MZ"; "RT"] ->
  <["RT" := rt]> (<["MZ" := mz]> (<["ID" := id]> row)) !! col = row !! col.
Proof.
  rewrite !elem_of_cons, elem_of_nil. intros Hcol.
  rewrite !lookup_insert_ne; [done | naive_solver ..].
Qed.

Section ImportFacts.
Context `{JSHost}.

Lemma import_headers_elem_of (headers : list string) (h : string) :
  h ∈ import_headers headers <->
  h ∈ headers \/ (h ∈ ["ID"; "MZ"; "RT"] /\ h ∉ headers).
Proof.
  unfold import_headers. rewrite uniq_elem_of.
  assert (Hnew : h ∈ List.filter (fun h => negb (includes headers h)) ["ID"; "MZ"; "RT"] <->
                 h ∈ ["ID"; "MZ"; "RT"] /\ h ∉ headers).
  { rewrite list_elem_of_In, filter_In, <- list_elem_of_In.
    by rewrite negb_true_iff, includes_false. }
  destruct (indexOf headers "Filename") as [i |].
  - rewrite !elem_of_app, Hnew.
    rewrite <- (take_drop (i + 1) headers) at 4. rewrite elem_of_app. tauto.
  - rewrite elem_of_app, Hnew. tauto.
Qed.

Lemma import_headers_all (headers : list string) (h : string) :
  h ∈ ["ID"; "MZ"; "RT"] -> h ∈ import_headers headers.
Proof.
  intros Hh. apply import_headers_elem_of.
  destruct (decide (h ∈ headers)); [by left | by right].
Qed.

Lemma import_from_filename (data : TableData) :
  ~ ("ID" ∈ headers data /\ "MZ" ∈ headers data /\ "RT" ∈ headers data) ->
  "Filename" ∈ headers data ->
  handleFileProcess_import data =
  inr (mkTable (import_headers (headers data)) (map filename_fields (rows data))).
Proof.
  intros Hnot Hfile. unfold handleFileProcess_import.
  destruct (includes (headers data) "ID" && includes (headers data) "MZ" &&
            includes (headers data) "RT") eqn:Hall.
  { apply andb_prop in Hall as [[Hid Hmz]%andb_prop Hrt].
    apply includes_true in Hid, Hmz, Hrt. by destruct Hnot. }
  apply includes_true in Hfile. rewrite Hfile. cbn [headers].
  assert (Hid : includes (import_headers (headers data)) "ID" = true).
  { apply includes_true, import_headers_all. set_solver. }
  assert (Hmz : includes (import_headers (headers data)) "MZ" = true).
  { apply includes_true, import_headers_all. set_solver. }
  cbn [List.filter]. by rewrite Hid, Hmz.
Qed.

(** X1: the import either refuses the file, exactly when its headers
    hold neither [ID], [MZ] and [RT] together nor [Filename], or returns a
    table whose headers hold [ID], [MZ] and [RT], every header of the file,
    and no other; it has one row per row of the file. The error raised by
    the check made after processing never occurs. *)
Theorem import_outcome (data : TableData) :
  match handleFileProcess_import data with
  | inl e =>
      e = NeedsKeyColumnsOrFilename /\
      ("Filename" ∉ headers data) /\
      ~ ("ID" ∈ headers data /\ "MZ" ∈ headers data /\ "RT" ∈ headers data)
  | inr netTable =>
      ("Filename" ∈ headers data \/
       ("ID" ∈ headers data /\ "MZ" ∈ headers data /\ "RT" ∈ headers data)) /\
      (forall h, h ∈ headers netTable <-> h ∈ headers data \/ h ∈ ["ID"; "MZ"; "RT"]) /\
      length (rows netTable) = length (rows data)
  end.
Proof.
  destruct (decide ("ID" ∈ headers data /\ "MZ" ∈ headers data /\ "RT" ∈ headers data))
    as [(Hid & Hmz & Hrt) | Hnot].
  - unfold handleFileProcess_import.
    pose proof Hid as Hid'. pose proof Hmz as Hmz'. pose proof Hrt as Hrt'.
    apply includes_true in Hid', Hmz', Hrt'. rewrite Hid', Hmz', Hrt'.
    cbn [andb List.filter]. rewrite Hid', Hmz'. cbn.
    split_and!; [by right | | done].
    intros h. split; [by left |]. intros [Hh | Hh]; [done |].
    rewrite !elem_of_cons, elem_of_nil in Hh. naive_solver.
  - destruct (decide ("Filename" ∈ headers data)) as [Hfile | Hfile].
    + rewrite import_from_filename by done. cbn [headers rows].
      split_and!; [by left | | by rewrite length_map].
      intros h. rewrite import_headers_elem_of.
      destruct (decide (h ∈ headers data)); tauto.
    + unfold handleFileProcess_import.
      destruct (includes (headers data) "ID" && includes (headers data) "MZ" &&
                includes (headers data) "RT") eqn:Hall.
      { apply andb_prop in Hall as [[Hid Hmz]%andb_prop Hrt].
        apply includes_true in Hid, Hmz, Hrt. by destruct Hnot. }
      pose proof Hfile as Hfile'. apply includes_false in Hfile'. by rewrite Hfile'.
Qed.

(** X2: a [Filename] made of an identifier, a mass and a retention
    time separated by [/], the mass with the unit [mz] and the time with
    the unit [min], in any case of the letters, written before, after or
    inside the number, is read back: [ID], [MZ] and [RT] are the three
    texts, units taken out, and trimmed. Parts after the third are
    ignored. *)
Theorem filename_fields_read (row : TableRow) (id a mzUnit b c minUnit d more : string)
    (Hname : row !! "Filename" =
             Some (CStr (id +:+ "/" +:+ (a +:+ mzUnit +:+ b) +:+ "/" +:+
                         (c +:+ minUnit +:+ d) +:+ more)))
    (Hmz : same_letters "mz" mzUnit = true)
    (Hmin : same_letters "min" minUnit = true)
    (Hid : count_char "/" id = 0)
    (Hmass : count_char "/" (a +:+ mzUnit +:+ b) = 0)
    (Htime : count_char "/" (c +:+ minUnit +:+ d) = 0)
    (Hmore : more = EmptyString \/ exists rest, more = String "/" rest)
    (Ha : has_letter "m" a = false)
    (Hc : has_letter "m" c = false) :
  filename_fields row =
    <["RT" := CStr (trim (c +:+ d))]>
      (<["MZ" := CStr (trim (a +:+ b))]> (<["ID" := CStr (trim id)]> row)).
Proof.
  unfold filename_fields. rewrite Hname.
  set (mass := a +:+ mzUnit +:+ b) in *. set (time := c +:+ minUnit +:+ d) in *.
  assert (Htruthy : or_empty (Some (CStr (id +:+ "/" +:+ mass +:+ "/" +:+ time +:+ more))) =
                    Some (CStr (id +:+ "/" +:+ mass +:+ "/" +:+ time +:+ more))).
  { unfold or_empty, truthy. by destruct id. }
  rewrite Htruthy. cbn [String_].
  change (id +:+ "/" +:+ mass +:+ "/" +:+ time +:+ more)
    with (id +:+ String "/" (mass +:+ String "/" (time +:+ more))).
  rewrite split_on_app by done. rewrite split_on_app by done.
  assert (Hparts : exists others, split_on "/" (time +:+ more) = time :: others).
  { destruct Hmore as [-> | [rest ->]].
    - exists []. rewrite append_empty_r. by apply split_on_none.
    - eexists. by apply split_on_app. }
  destruct Hparts as [others ->].
  unfold mass, time. by rewrite !remove_first_found.
Qed.

(** X3: the import writes [null] in [ID], [MZ] and [RT] of a row
    exactly when the text of its [Filename] (the empty text for a missing
    or empty one) has fewer than two separators, and texts otherwise; no
    other field of the row is touched. *)
Theorem filename_fields_short (row : TableRow) :
  let slashes := count_char "/" (String_ (or_empty (row !! "Filename"))) in
  (slashes < 2 ->
   filename_fields row !! "ID" = Some CNull /\
   filename_fields row !! "MZ" = Some CNull /\
   filename_fields row !! "RT" = Some CNull) /\
  (2 <= slashes ->
   exists id mz rt,
     filename_fields row !! "ID" = Some (CStr id) /\
     filename_fields row !! "MZ" = Some (CStr mz) /\
     filename_fields row !! "RT" = Some (CStr rt)) /\
  (forall col, col ∉ ["ID"; "MZ"; "RT"] -> filename_fields row !! col = row !! col).
Proof.
  intros slashes. unfold filename_fields.
  pose proof (split_on_length "/" (String_ (or_empty (row !! "Filename")))) as Hlen.
  fold slashes in Hlen.
  destruct (split_on "/" (String_ (or_empty (row !! "Filename"))))
    as [| part0 [| part1 [| part2 parts]]]; cbn [length] in Hlen.
  all: split_and!; [| | intros col Hcol; by apply key_fields_outside].
  all: try (intros; lia).
  all: intros _; try (do 3 eexists); apply key_fields_lookup.
Qed.

(** X4: when the headers of the file are distinct and [Filename] is one
    of them, the new headers ([ID], [MZ], [RT], those the file lacks, in
    this order) are placed right after [Filename], and the headers of the
    file keep their order around them. *)
Theorem import_headers_placed (data : TableData) (before after : list string)
    (Hheaders : headers data = before ++ "Filename" :: after)
    (Hdistinct : NoDup (headers data))
    (Hneeded : ~ ("ID" ∈ headers data /\ "MZ" ∈ headers data /\ "RT" ∈ headers data)) :
  exists netTable,
    handleFileProcess_import data = inr netTable /\
    headers netTable =
      before ++ "Filename" ::
      List.filter (fun h => negb (includes (headers data) h)) ["ID"; "MZ"; "RT"] ++ after.
Proof.
  assert (Hfile : "Filename" ∈ headers data) by (rewrite Hheaders; set_solver).
  eexists. split; [by apply import_from_filename |]. cbn [headers].
  unfold import_headers.
  set (newHeaders := List.filter _ _).
  assert (Hbefore : "Filename" ∉ before).
  { rewrite Hheaders in Hdistinct. apply NoDup_app in Hdistinct as (_ & Hdis & _).
    intros Hin. apply (Hdis _ Hin). left. }
  assert (Hindex : indexOf (headers data) "Filename" = Some (length before)).
  { rewrite Hheaders. by apply indexOf_first. }
  rewrite Hindex.
  assert (Htake : take (length before + 1) (headers data) = before ++ ["Filename"]).
  { rewrite Hheaders, cons_middle, app_assoc.
    apply take_app_length'. rewrite length_app. cbn. lia. }
  assert (Hdrop : drop (length before + 1) (headers data) = after).
  { rewrite Hheaders, cons_middle, app_assoc.
    apply drop_app_length'. rewrite length_app. cbn. lia. }
  rewrite Htake, Hdrop, <- app_assoc. cbn [app].
  apply uniq_NoDup_id.
  assert (Hnew : NoDup newHeaders /\ forall h, h ∈ newHeaders -> h ∉ headers data).
  { split.
    - unfold newHeaders. apply NoDup_List_filter.
      by apply (bool_decide_unpack (NoDup ["ID"; "MZ"; "RT"])).
    - intros h. unfold newHeaders.
      rewrite list_elem_of_In, filter_In, negb_true_iff, includes_false. tauto. }
  destruct Hnew as [Hnd Hfresh].
  assert (Hperm : before ++ "Filename" :: newHeaders ++ after ≡ₚ
                  newHeaders ++ headers data).
  { rewrite Hheaders.
    rewrite (cons_middle "Filename" before (newHeaders ++ after)).
    rewrite (cons_middle "Filename" before after).
    rewrite (app_assoc before ["Filename"] (newHeaders ++ after)).
    rewrite (app_assoc before ["Filename"] after).
    rewrite (app_assoc (before ++ ["Filename"]) newHeaders after).
    rewrite (app_assoc newHeaders (before ++ ["Filename"]) after).
    apply Permutation_app_tail, Permutation_app_comm. }
  rewrite Hperm. apply NoDup_app. split_and!; [done | | done].
  intros h Hh. by apply Hfresh.
Qed.
End ImportFacts.

Lemma filename_fields_read_witness :
  filename_fields {[ "Filename" := CStr "13/302.25MZ/0.7Min/extra"; "CON_1" := CNum 80 ]} =
    <["RT" := CStr (trim ("0.7" +:+ EmptyString))]>
      (<["MZ" := CStr (trim ("302.25" +:+ EmptyString))]>
         (<["ID" := CStr (trim "13")]>
            {[ "Filename" := CStr "13/302.25MZ/0.7Min/extra"; "CON_1" := CNum 80 ]})).
Proof.
  apply (filename_fields_read
           {[ "Filename" := CStr "13/302.25MZ/0.7Min/extra"; "CON_1" := CNum 80 ]}
           "13" "302.25" "MZ" EmptyString "0.7" "Min" EmptyString "/extra").
  - vm_compute. reflexivity.
  - reflexivity.
  - reflexivity.
  - reflexivity.
  - reflexivity.
  - reflexivity.
  - right. by exists "extra".
  - reflexivity.
  - reflexivity.
Defined.

Lemma import_headers_placed_witness :
  exists netTable,
    handleFileProcess_import mzmine_table_ex = inr netTable /\
    headers netTable =
      [] ++ "Filename" ::
      List.filter (fun h => negb (includes (headers mzmine_table_ex) h)) ["ID"; "MZ"; "RT"] ++
      ["CON_1"].
Proof.
  apply (import_headers_placed mzmine_table_ex [] ["CON_1"]).
  - reflexivity.
  - by apply (bool_decide_unpack (NoDup (headers mzmine_table_ex))).
  - intros (Hid & _). by apply includes_true in Hid.
Defined.

(** The three rows of the example: a name with the units before the
    numbers, one with the units after them and a fourth part, and one
    without separators. *)
Example import_run :
  handleFileProcess_import mzmine_table_ex =
  inr (mkTable ["Filename"; "ID"; "MZ"; "RT"; "CON_1"]
         [ {[ "Filename" := CStr "12/mz 301.1/5.2 min"; "CON_1" := CNum 50;
              "ID" := CStr "12"; "MZ" := CStr "301.1"; "RT" := CStr "5.2" ]};
           {[ "Filename" := CStr "13/302.25MZ/0.7Min/extra"; "CON_1" := CNum 80;
              "ID" := CStr "13"; "MZ" := CStr "302.25"; "RT" := CStr "0.7" ]};
           {[ "Filename" := CStr "blank"; "CON_1" := CNum 10;
              "ID" := CNull; "MZ" := CNull; "RT" := CNull ]} ]).
Proof. vm_compute. reflexivity. Qed.

(** ** The annotation step *)

Section AnnotateFacts.
Context `{JSHost}.

(** The arbiter reads the seven required columns of a row and nothing
    else. *)
Lemma determineFinalAnnotation_frame (row row' : TableRow) :
  (forall col, col ∈ annotation_requiredCols -> row' !! col = row !! col) ->
  determineFinalAnnotation row' = determineFinalAnnotation row.
Proof.
  intros Hsame.
  assert (Hin : forall col, bool_decide (col ∈ annotation_requiredCols) = true ->
                            row' !! col = row !! col).
  { intros col Hcol. apply Hsame. by apply bool_decide_eq_true in Hcol. }
  unfold determineFinalAnnotation, compoundName_of, siriusName_of,
    isFbmnStrong, isSiriusStrong.
  by rewrite !Hin by reflexivity.
Qed.

Lemma annotated_row_frame (row : TableRow) (v : cell) :
  determineFinalAnnotation (<["Final_Annotation" := v]> row) = determineFinalAnnotation row.
Proof.
  apply determineFinalAnnotation_frame. intros col Hcol.
  apply lookup_insert_ne. intros <-.
  by apply (bool_decide_pack _) in Hcol.
Qed.

Lemma required_filter_nil (present required : list string) :
  List.filter (fun col => negb (includes present col)) required = [] <->
  forall col, col ∈ required -> col ∈ present.
Proof.
  induction required as [| c required IH]; cbn [List.filter].
  - split; [| done]. intros _ col Hcol. by apply elem_of_nil in Hcol.
  - destruct (includes present c) eqn:Hc; cbn [negb].
    + rewrite IH. apply includes_true in Hc. split.
      * intros Hall col [-> | Hcol]%elem_of_cons; [done | by apply Hall].
      * intros Hall col Hcol. apply Hall. by right.
    + apply includes_false in Hc. split; [done |].
      intros Hall. destruct Hc. apply Hall. left.
Qed.

(** X5: the annotation step fails exactly when one of the seven columns
    the arbiter reads is not a header, and reports those that are not.
    Otherwise it adds the header [Final_Annotation] unless the table has
    it, writes in every row the label the arbiter gives for that row and
    leaves the other fields; and run on its own result it returns that
    result: the label does not depend on an annotation already there. *)
Theorem handleGenerateAnnotation_again (mergedData : TableData) :
  match handleGenerateAnnotation (Some mergedData) with
  | inl e =>
      e = MissingAnnotationColumns
            (List.filter (fun col => negb (includes (headers mergedData) col))
               annotation_requiredCols) /\
      exists col, col ∈ annotation_requiredCols /\ col ∉ headers mergedData
  | inr out =>
      (forall col, col ∈ annotation_requiredCols -> col ∈ headers mergedData) /\
      headers out =
        (if bool_decide ("Final_Annotation" ∈ headers mergedData) then headers mergedData
         else headers mergedData ++ ["Final_Annotation"]) /\
      Forall2 (fun row outRow : TableRow =>
                 outRow !! "Final_Annotation" = Some (CStr (determineFinalAnnotation row)) /\
                 forall col, col <> "Final_Annotation" -> outRow !! col = row !! col)
        (rows mergedData) (rows out) /\
      handleGenerateAnnotation (Some out) = inr out
  end.
Proof.
  unfold handleGenerateAnnotation at 1.
  set (missingCols := List.filter _ annotation_requiredCols).
  destruct missingCols as [| c missing] eqn:Hmissing; cbn [length Nat.eqb negb].
  - unfold missingCols in Hmissing.
    pose proof (proj1 (required_filter_nil _ _) Hmissing) as Hall. clear Hmissing.
    split_and!; [done | | |].
    + cbn [headers]. unfold includes. by destruct (bool_decide _).
    + cbn [rows]. apply Forall2_fmap_r, Forall_Forall2_diag, Forall_forall.
      intros row _. split; [apply lookup_insert_eq |].
      intros col Hcol. by apply lookup_insert_ne.
    + unfold handleGenerateAnnotation. cbn [headers rows].
      set (newHeaders :=
             if negb (includes (headers mergedData) "Final_Annotation")
             then headers mergedData ++ ["Final_Annotation"] else headers mergedData).
      assert (Hkept : forall col, col ∈ headers mergedData -> col ∈ newHeaders).
      { intros col Hcol. unfold newHeaders. destruct (negb _); [| done].
        apply elem_of_app. by left. }
      assert (Hfinal : includes newHeaders "Final_Annotation" = true).
      { apply includes_true. unfold newHeaders.
        destruct (includes (headers mergedData) "Final_Annotation") eqn:Hfa; cbn [negb].
        - by apply includes_true.
        - apply elem_of_app. right. left. }
      assert (Hnone : List.filter (fun col => negb (includes newHeaders col))
                        annotation_requiredCols = []).
      { apply required_filter_nil. intros col Hcol. by apply Hkept, Hall. }
      rewrite Hnone, Hfinal. cbn [length Nat.eqb negb]. do 2 f_equal.
      rewrite map_map. apply map_ext. intros row.
      rewrite annotated_row_frame. apply insert_insert_eq.
  - split; [done |]. exists c. 
    assert (Hc : c ∈ List.filter (fun col => negb (includes (headers mergedData) col))
                   annotation_requiredCols).
    { fold missingCols. rewrite Hmissing. left. }
    clear Hmissing.
    rewrite list_elem_of_In, filter_In, <- list_elem_of_In in Hc.
    by rewrite negb_true_iff, includes_false in Hc.
Qed.
End AnnotateFacts.

(** The first row has a strong library match only, the second two strong
    sources, the third no name. *)
Example handleGenerateAnnotation_run :
  match handleGenerateAnnotation (Some annotate_table_ex) with
  | inr out =>
      headers out = headers annotate_table_ex ++ ["Final_Annotation"] /\
      map (fun row : TableRow => row !! "Final_Annotation") (rows out) =
        [Some (CStr "Caffeine"); Some (CStr "Theobromine"); Some (CStr EmptyString)]
  | inl _ => False
  end.
Proof. vm_compute. split; reflexivity. Qed.

(** ** The table merge: the tolerance path, the unmatched keys, the headers *)

Section MergeFacts2.
Context `{JSHost}.

Lemma mass_matchMap_lookup (incoming : list TableRow) (k : string) :
  mass_matchMap incoming !! k = last_with_mass incoming k.
Proof.
  unfold mass_matchMap, last_with_mass, mass_key.
  rewrite Map_of_lookup, filter_map_comm, map_map, filter_filter_and.
  cbn [fst snd]. rewrite map_id. reflexivity.
Qed.

Lemma merge_mass_row_specified (appendCols : list string) (netRows incoming : list TableRow)
    (baseMzKey : string) (index : nat) (baseRow : TableRow) :
  merged_with appendCols (mass_matched_row netRows incoming baseMzKey index) baseRow
    (merge_mass_row appendCols netRows baseMzKey (mass_matchMap incoming) index baseRow).
Proof.
  unfold merged_with, mass_matched_row, merge_mass_row, has_base_mass, nonempty, mass_key.
  change (match netRows !! index with
          | Some netRow => netRow !! baseMzKey
          | None => None
          end) with (mzToMatch netRows baseMzKey index).
  destruct (not_nullish (mzToMatch netRows baseMzKey index)); cbn [negb orb andb]; [| done].
  destruct (String.eqb (trim (String_ (mzToMatch netRows baseMzKey index))) EmptyString);
    cbn [negb orb andb]; [done |].
  destruct (isNaN (Number (mzToMatch netRows baseMzKey index))); cbn [negb]; [done |].
  rewrite mass_matchMap_lookup. unfold mass_key.
  destruct (last_with_mass incoming _) as [m |]; [| done].
  intros col. rewrite spread_lookup, newRowData_lookup, or_null_read. by case_bool_decide.
Qed.

Lemma handleFileProcess_mass (stepConfig : ProcessingStep)
    (mergedData netTable data : TableData) (baseMzKey : string) :
  matchColumn stepConfig = "ionMass" ->
  matchColumnBase stepConfig = Some baseMzKey -> baseMzKey <> EmptyString ->
  (forall col, col ∈ requiredColumns stepConfig -> col ∈ headers data) ->
  handleFileProcess stepConfig (Some mergedData) (Some netTable) data =
  Ok (mkTable
        (headers mergedData ++
         List.filter (fun col => negb (includes (headers mergedData) col))
           (appendColumns stepConfig))
        (imap (merge_mass_row (appendColumns stepConfig) (rows netTable) baseMzKey
                 (mass_matchMap (rows data))) (rows mergedData)),
      mass_unmatched (rows netTable) (rows data) baseMzKey).
Proof.
  intros Hmass Hbase Hne Hrequired.
  unfold handleFileProcess. rewrite required_present by done. cbn [length Nat.eqb negb].
  rewrite Hmass, Hbase. cbn [String.eqb Ascii.eqb Bool.eqb andb].
  unfold nonempty. destruct (String.eqb_spec baseMzKey EmptyString) as [-> | _]; done.
Qed.

Lemma handleFileProcess_id (stepConfig : ProcessingStep)
    (mergedData netTable data : TableData) :
  matchColumn stepConfig = "ID" ->
  (forall col, col ∈ requiredColumns stepConfig -> col ∈ headers data) ->
  handleFileProcess stepConfig (Some mergedData) (Some netTable) data =
  Ok (mkTable
        (headers mergedData ++
         List.filter (fun col => negb (includes (headers mergedData) col))
           (appendColumns stepConfig))
        (map (merge_id_row (appendColumns stepConfig) (id_matchMap (rows data)))
           (rows mergedData)),
      id_unmatched (rows netTable) (rows data)).
Proof.
  intros Hid Hrequired.
  unfold handleFileProcess. rewrite required_present by done. cbn [length Nat.eqb negb].
  rewrite Hid. done.
Qed.

(** X6: the tolerance merge succeeds when the upload has the required
    columns, and keeps one row per base row. The base row at an index is
    matched through the mass that the net table holds at that index: when
    this mass is not null, not blank and a number, to the last upload row
    whose mass is a number with the same three decimals, and to none
    otherwise. A matched row receives the append columns of its match, an
    absent value as [null], and keeps its other columns; an unmatched row
    is passed through as it is. *)
Theorem merge_tolerance_last_wins (stepConfig : ProcessingStep)
    (mergedData netTable data : TableData) (baseMzKey : string)
    (Hmass : matchColumn stepConfig = "ionMass")
    (Hbase : matchColumnBase stepConfig = Some baseMzKey)
    (Hkey : baseMzKey <> EmptyString)
    (Hrequired : forall col, col ∈ requiredColumns stepConfig -> col ∈ headers data) :
  exists out unmatched,
    handleFileProcess stepConfig (Some mergedData) (Some netTable) data =
      Ok (out, unmatched) /\
    length (rows out) = length (rows mergedData) /\
    forall (index : nat) (baseRow : TableRow),
      rows mergedData !! index = Some baseRow ->
      exists outRow,
        rows out !! index = Some outRow /\
        merged_with (appendColumns stepConfig)
          (mass_matched_row (rows netTable) (rows data) baseMzKey index) baseRow outRow.
Proof.
  rewrite (handleFileProcess_mass stepConfig mergedData netTable data baseMzKey) by done.
  eexists _, _. split; [done |]. cbn [rows]. split; [by rewrite length_imap |].
  intros index baseRow Hrow. eexists. split.
  - rewrite list_lookup_imap, Hrow. done.
  - apply merge_mass_row_specified.
Qed.

Lemma baseMzSet_elem_of (netRows : list TableRow) (baseMzKey k : string) :
  k ∈ baseMzSet netRows baseMzKey <->
  exists base : TableRow,
    base ∈ netRows /\
    not_nullish (base !! baseMzKey) && negb (isNaN (Number (base !! baseMzKey))) = true /\
    mass_key (base !! baseMzKey) = k.
Proof.
  unfold baseMzSet, Set_of, mass_key. rewrite elem_of_list_to_set, list_elem_of_omap.
  split.
  - intros (base & Hbase & Hk). exists base. split; [done |].
    destruct (_ && _); [| done]. by injection Hk.
  - intros (base & Hbase & Hnum & Hk). exists base. split; [done |].
    by rewrite Hnum, Hk.
Qed.

(** X7: the tolerance merge reports the masses of the upload, as they
    are written there, in the order of the upload and as many times as
    they occur: those that are numbers and whose three-decimal key is the
    key of no numeric mass of the net table. *)
Theorem merge_tolerance_unmatched (stepConfig : ProcessingStep)
    (mergedData netTable data : TableData) (baseMzKey : string)
    (Hmass : matchColumn stepConfig = "ionMass")
    (Hbase : matchColumnBase stepConfig = Some baseMzKey)
    (Hkey : baseMzKey <> EmptyString)
    (Hrequired : forall col, col ∈ requiredColumns stepConfig -> col ∈ headers data) :
  exists out unmatched,
    handleFileProcess stepConfig (Some mergedData) (Some netTable) data =
      Ok (out, unmatched) /\
    Some <$> unmatched =
      List.filter
        (fun mass =>
           not_nullish mass && negb (isNaN (Number mass)) &&
           forallb (fun base : TableRow =>
                      negb (not_nullish (base !! baseMzKey) &&
                            negb (isNaN (Number (base !! baseMzKey))) &&
                            String.eqb (mass_key (base !! baseMzKey)) (mass_key mass)))
             (rows netTable))
        (map (fun row : TableRow => row !! "ionMass") (rows data)).
Proof.
  rewrite (handleFileProcess_mass stepConfig mergedData netTable data baseMzKey) by done.
  eexists _, _. split; [done |]. unfold mass_unmatched.
  induction (map (fun row : TableRow => row !! "ionMass") (rows data)) as [| mass l IH];
    [done |].
  cbn [List.filter].
  assert (Hsame :
    negb (bool_decide (toFixed3 (Number mass) ∈ baseMzSet (rows netTable) baseMzKey)) =
    forallb (fun base : TableRow =>
               negb (not_nullish (base !! baseMzKey) &&
                     negb (isNaN (Number (base !! baseMzKey))) &&
                     String.eqb (mass_key (base !! baseMzKey)) (mass_key mass)))
      (rows netTable)).
  { apply eq_true_iff_eq. rewrite negb_true_iff, bool_decide_eq_false, forallb_forall.
    rewrite baseMzSet_elem_of. split.
    - intros Hnone base Hin. apply negb_true_iff, not_true_is_false.
      intros [Hnum Hk]%andb_prop. apply Hnone. exists base.
      apply String.eqb_eq in Hk. by rewrite list_elem_of_In.
    - intros Hall (base & Hin & Hnum & Hk). apply list_elem_of_In, Hall in Hin.
      apply negb_true_iff in Hin. rewrite Hnum in Hin. cbn [andb] in Hin.
      unfold mass_key in Hin at 2. by rewrite Hk, String.eqb_refl in Hin. }
  rewrite <- Hsame.
  destruct (not_nullish mass && negb (isNaN (Number mass)) && _) eqn:Hkeep; [| done].
  destruct mass as [c |]; [| done]. cbn [omap id fmap list_fmap]. cbn. by rewrite <- IH.
Qed.

Lemma baseIdSet_elem_of (netRows : list TableRow) (k : string) :
  k ∈ baseIdSet netRows <-> k <> EmptyString /\ exists base, base ∈ netRows /\ id_key base = k.
Proof.
  unfold baseIdSet, Set_of. rewrite elem_of_list_to_set, list_elem_of_In, filter_In.
  rewrite in_map_iff. unfold nonempty. rewrite negb_true_iff, String.eqb_neq.
  split.
  - intros [(base & Hk & Hin) Hne]. split; [done |]. exists base.
    by rewrite list_elem_of_In.
  - intros [Hne (base & Hin & Hk)]. split; [| done]. exists base.
    by rewrite <- list_elem_of_In.
Qed.

(** X8: the exact-key merge reports each unmatched key once: the list
    has no duplicate and holds exactly the trimmed keys of the upload rows
    (those whose key is not null and not blank) that are the text of the key
    of no row of the net table. *)
Theorem merge_exact_unmatched (stepConfig : ProcessingStep)
    (mergedData netTable data : TableData)
    (Hid : matchColumn stepConfig = "ID")
    (Hrequired : forall col, col ∈ requiredColumns stepConfig -> col ∈ headers data) :
  exists out unmatched,
    handleFileProcess stepConfig (Some mergedData) (Some netTable) data =
      Ok (out, unmatched) /\
    NoDup unmatched /\
    forall c, c ∈ unmatched <->
      exists k, c = CStr k /\
        (exists row, row ∈ rows data /\ has_id_key row = true /\ id_key row = k) /\
        (forall base, base ∈ rows netTable -> id_key base <> k).
Proof.
  rewrite (handleFileProcess_id stepConfig mergedData netTable data) by done.
  eexists _, _. split; [done |].
  destruct (id_unmatched_spec (rows netTable) (rows data)) as [Hnd Hin].
  split; [done |]. intros c. split.
  - intros Hc.
    assert (Hk : exists k, c = CStr k).
    { unfold id_unmatched in Hc. apply list_elem_of_fmap in Hc as (k & -> & _). by exists k. }
    destruct Hk as [k ->]. exists k. split; [done |].
    apply Hin in Hc as [Hrow Hbase]. split; [done |].
    intros base Hmem Hsame. apply Hbase, baseIdSet_elem_of. split; [| by exists base].
    destruct Hrow as (row & _ & Hkey & <-).
    unfold has_id_key in Hkey. apply andb_prop in Hkey as [_ Hkey].
    unfold nonempty in Hkey. by apply negb_true_iff, String.eqb_neq in Hkey.
  - intros (k & -> & Hrow & Hbase). apply Hin. split; [done |].
    rewrite baseIdSet_elem_of. intros [_ (base & Hmem & Hsame)]. by apply (Hbase base).
Qed.

(** X9: a merge is refused exactly when the upload lacks a required
    column, and the error lists the columns it lacks. Otherwise the headers
    of the merged table are kept, in order, and followed by the append
    columns the table does not have yet, in the order of the step: an
    append column that is already a header is not added again, every
    append column is a header afterwards, and distinct headers stay
    distinct. *)
Theorem merge_headers (stepConfig : ProcessingStep) (mergedData netTable data : TableData) :
  match handleFileProcess stepConfig (Some mergedData) (Some netTable) data with
  | Throw e =>
      e = MissingColumns
            (List.filter (fun col => negb (includes (headers data) col))
               (requiredColumns stepConfig)) /\
      exists col, col ∈ requiredColumns stepConfig /\ col ∉ headers data
  | Ok (out, _) =>
      (forall col, col ∈ requiredColumns stepConfig -> col ∈ headers data) /\
      headers out =
        headers mergedData ++
        List.filter (fun col => negb (includes (headers mergedData) col))
          (appendColumns stepConfig) /\
      (forall col, col ∈ headers out <->
                   col ∈ headers mergedData \/ col ∈ appendColumns stepConfig) /\
      (NoDup (headers mergedData) -> NoDup (appendColumns stepConfig) ->
       NoDup (headers out))
  end.
Proof.
  unfold handleFileProcess.
  destruct (List.filter (fun col => negb (includes (headers data) col))
              (requiredColumns stepConfig)) as [| c missing] eqn:Hmissing;
    cbn [length Nat.eqb negb].
  - pose proof (proj1 (required_filter_nil _ _) Hmissing) as Hall.
    set (appendCols := List.filter _ (appendColumns stepConfig)).
    assert (Hfresh : forall col, col ∈ appendCols <->
                       col ∈ appendColumns stepConfig /\ col ∉ headers mergedData).
    { intros col. unfold appendCols.
      rewrite list_elem_of_In, filter_In, <- list_elem_of_In.
      by rewrite negb_true_iff, includes_false. }
    destruct (if String.eqb (matchColumn stepConfig) "ID" then _ else _)
      as [newMergedRows foundUnmatched].
    cbn [headers]. split_and!; [done | done | |].
    + intros col. rewrite elem_of_app, Hfresh.
      destruct (decide (col ∈ headers mergedData)); tauto.
    + intros Hnd Happend. apply NoDup_app. split_and!; [done | |].
      * intros col Hcol [_ Hnot]%Hfresh. done.
      * by apply NoDup_List_filter.
  - split; [done |]. exists c.
    assert (Hc : c ∈ c :: missing) by left.
    rewrite <- Hmissing, list_elem_of_In, filter_In, <- list_elem_of_In in Hc.
    by rewrite negb_true_iff, includes_false in Hc.
Qed.
End MergeFacts2.

Lemma merge_tolerance_last_wins_witness :
  exists out unmatched,
    handleFileProcess step_supplementary (Some merge_base_ex) (Some merge_base_ex)
      merge_mass_ex = Ok (out, unmatched) /\
    length (rows out) = length (rows merge_base_ex) /\
    forall (index : nat) (baseRow : TableRow),
      rows merge_base_ex !! index = Some baseRow ->
      exists outRow,
        rows out !! index = Some outRow /\
        merged_with (appendColumns step_supplementary)
          (mass_matched_row (rows merge_base_ex) (rows merge_mass_ex) "MZ" index)
          baseRow outRow.
Proof.
  apply (merge_tolerance_last_wins step_supplementary merge_base_ex merge_base_ex
           merge_mass_ex "MZ").
  - reflexivity.
  - reflexivity.
  - discriminate.
  - intros col ->%list_elem_of_singleton. left.
Defined.

Lemma merge_tolerance_unmatched_witness :
  exists out unmatched,
    handleFileProcess step_supplementary (Some merge_base_ex) (Some merge_base_ex)
      merge_mass_ex = Ok (out, unmatched) /\
    Some <$> unmatched =
      List.filter
        (fun mass =>
           not_nullish mass && negb (isNaN (Number mass)) &&
           forallb (fun base : TableRow =>
                      negb (not_nullish (base !! "MZ") &&
                            negb (isNaN (Number (base !! "MZ"))) &&
                            String.eqb (mass_key (base !! "MZ")) (mass_key mass)))
             (rows merge_base_ex))
        (map (fun row : TableRow => row !! "ionMass") (rows merge_mass_ex)).
Proof.
  apply (merge_tolerance_unmatched step_supplementary merge_base_ex merge_base_ex
           merge_mass_ex "MZ").
  - reflexivity.
  - reflexivity.
  - discriminate.
  - intros col ->%list_elem_of_singleton. left.
Defined.

Lemma merge_exact_unmatched_witness :
  exists out unmatched,
    handleFileProcess step_fbmn (Some merge_base_ex) (Some merge_base_ex) merge_fbmn_ex =
      Ok (out, unmatched) /\
    NoDup unmatched /\
    forall c, c ∈ unmatched <->
      exists k, c = CStr k /\
        (exists row, row ∈ rows merge_fbmn_ex /\ has_id_key row = true /\ id_key row = k) /\
        (forall base, base ∈ rows merge_base_ex -> id_key base <> k).
Proof.
  apply (merge_exact_unmatched step_fbmn merge_base_ex merge_base_ex merge_fbmn_ex).
  - reflexivity.
  - intros col ->%list_elem_of_singleton. left.
Defined.

(** The second base mass, [100], has the key of the upload mass
    [100.0004]; the other base rows are passed through. *)
Example merge_tolerance_run :
  result_map (fun r => rows (fst r))
    (handleFileProcess step_supplementary (Some merge_base_ex) (Some merge_base_ex)
       merge_mass_ex) =
  Ok [ {[ "ID" := CStr "1"; "MZ" := CNum 100; "molecularFormula" := CStr "C8H10N4O2";
          "NPC#superclass" := CNull; "ClassyFire#superclass" := CNull;
          "ClassyFire#class" := CNull; "InChI" := CNull ]};
       {[ "ID" := CStr " 2 "; "MZ" := CNum 180 ]};
       {[ "ID" := CNull; "MZ" := CNum 250 ]} ].
Proof. vm_compute. reflexivity. Qed.

(** ** Dereplication: the groups and the verdict on each row *)

Lemma if_ext_bool_decide {A : Type} (P Q : Prop) `{Decision P, Decision Q} (a b : A) :
  (P <-> Q) -> (if bool_decide P then a else b) = (if bool_decide Q then a else b).
Proof. intros HPQ. by rewrite (bool_decide_ext P Q). Qed.

Lemma uniq_from_snoc (seen : gset string) (l : list string) (x : string) :
  uniq_from seen (l ++ [x]) =
  uniq_from seen l ++ (if bool_decide (x ∈ seen \/ x ∈ l) then [] else [x]).
Proof.
  revert seen. induction l as [| y l IH]; intros seen; cbn [app uniq_from].
  - case_bool_decide as Hx.
    + rewrite bool_decide_eq_true_2; [done |]. by left.
    + rewrite bool_decide_eq_false_2; [done |].
      intros [? | Hin]; [done |]. by apply elem_of_nil in Hin.
  - case_bool_decide as Hy.
    + rewrite IH. f_equal. apply if_ext_bool_decide. rewrite elem_of_cons.
      split; [tauto |]. intros [? | [-> | ?]]; tauto.
    + rewrite IH, <- app_comm_cons. do 2 f_equal.
      apply if_ext_bool_decide. rewrite elem_of_union, elem_of_singleton, elem_of_cons.
      tauto.
Qed.

Lemma uniq_snoc (l : list string) (x : string) :
  uniq (l ++ [x]) = uniq l ++ (if bool_decide (x ∈ l) then [] else [x]).
Proof.
  unfold uniq. rewrite uniq_from_snoc. f_equal. apply if_ext_bool_decide.
  set_solver.
Qed.

Lemma uniq_NoDup (l : list string) : NoDup (uniq l).
Proof. unfold uniq. by destruct (uniq_from_spec ∅ l). Qed.

Section Groups.
Context `{JSHost}.

Lemma group_rows_snoc (rows : list TableRow) (row : TableRow) :
  group_rows (rows ++ [row]) = group_step (group_rows rows) row.
Proof. unfold group_rows. by rewrite fold_left_app. Qed.

Lemma members_snoc (k : string) (rows : list TableRow) (row : TableRow) :
  members k (rows ++ [row]) = members k rows ++ (if in_group k row then [row] else []).
Proof. unfold members. rewrite List.filter_app. cbn. by destruct (in_group k row). Qed.

Lemma group_keys_elem_of (rows : list TableRow) (k : string) :
  k ∈ group_keys rows <-> exists row, row ∈ rows /\ in_group k row = true.
Proof.
  unfold group_keys, in_group. rewrite uniq_elem_of, list_elem_of_In, in_map_iff.
  split.
  - intros (row & <- & [Hin Hann]%filter_In). exists row.
    by rewrite list_elem_of_In, Hann, String.eqb_refl.
  - intros (row & Hin & [Hann Hk%String.eqb_eq]%andb_prop). exists row.
    split; [done |]. apply filter_In. by rewrite <- list_elem_of_In.
Qed.

Lemma members_nil (k : string) (rows : list TableRow) :
  k ∉ group_keys rows -> members k rows = [].
Proof.
  intros Hk. unfold members. destruct (List.filter _ _) as [| row l] eqn:Hl; [done |].
  destruct Hk. apply group_keys_elem_of. exists row.
  assert (Hin : In row (List.filter (in_group k) rows)) by (rewrite Hl; left; done).
  apply filter_In in Hin as [Hin Hg]. by rewrite list_elem_of_In.
Qed.

Lemma members_other (key k : string) (row : TableRow) (rows : list TableRow) :
  in_group key row = true -> k <> key -> members k (rows ++ [row]) = members k rows.
Proof.
  intros [_ Hkey%String.eqb_eq]%andb_prop Hne. rewrite members_snoc.
  unfold in_group. rewrite Hkey.
  destruct (String.eqb_spec key k) as [-> | _]; [done |].
  by rewrite andb_false_r, app_nil_r.
Qed.

(** Pushing a row on the groups of the rows before it. *)
Lemma group_push_members (key : string) (row : TableRow) (rows : list TableRow)
    (keys : list string) :
  in_group key row = true -> NoDup keys ->
  (key ∉ keys -> members key rows = []) ->
  group_push key row (map (fun k => (k, members k rows)) keys) =
  map (fun k => (k, members k (rows ++ [row])))
    (keys ++ (if bool_decide (key ∈ keys) then [] else [key])).
Proof.
  intros Hrow Hnd Hfresh. induction Hnd as [| k keys Hk Hnd IH]; cbn [map group_push].
  - rewrite bool_decide_eq_false_2 by apply not_elem_of_nil. cbn [app map].
    rewrite members_snoc, Hrow, Hfresh; [done | apply not_elem_of_nil].
  - destruct (String.eqb_spec k key) as [-> | Hne].
    + rewrite bool_decide_eq_true_2 by left. rewrite app_nil_r. cbn [map].
      rewrite members_snoc, Hrow. f_equal.
      apply map_ext_in. intros k Hin%list_elem_of_In.
      rewrite (members_other key k) by (done || by intros ->). done.
    + rewrite IH.
      * rewrite <- app_comm_cons. cbn [map].
        rewrite (members_other key k) by done. do 3 f_equal.
        apply if_ext_bool_decide. rewrite elem_of_cons. naive_solver.
      * intros Hnot. apply Hfresh. rewrite elem_of_cons. naive_solver.
Qed.

(** The groups of a table in closed form: one group per annotation, in the
    order of the first row of each, holding the rows of that annotation in
    the order of the table; the rows without annotation apart. *)
Lemma group_rows_closed (rows : list TableRow) :
  group_rows rows =
  (map (fun k => (k, members k rows)) (group_keys rows),
   List.filter (fun row => negb (has_annotation row)) rows).
Proof.
  induction rows as [| row rows IH] using rev_ind; [done |].
  rewrite group_rows_snoc, IH. unfold group_step.
  unfold group_keys. rewrite !List.filter_app. cbn [List.filter].
  destruct (has_annotation row) eqn:Hann; cbn [negb].
  - rewrite app_nil_r, map_app. cbn [map]. rewrite uniq_snoc.
    fold (group_keys rows). fold (annotation_key row). f_equal.
    rewrite (group_push_members (annotation_key row) row rows (group_keys rows)).
    + f_equal. f_equal. apply if_ext_bool_decide.
      rewrite group_keys_elem_of, list_elem_of_In, in_map_iff. split.
      * intros (r & Hr & [Hra Hk%String.eqb_eq]%andb_prop). exists r.
        split; [done |]. apply filter_In. by rewrite <- list_elem_of_In.
      * intros (r & Hr & [Hin Hra]%filter_In). exists r.
        rewrite list_elem_of_In. split; [done |]. unfold in_group.
        by rewrite Hra, Hr, String.eqb_refl.
    + unfold in_group. by rewrite Hann, String.eqb_refl.
    + apply uniq_NoDup.
    + apply members_nil.
  - rewrite app_nil_r. f_equal. apply map_ext. intros k.
    rewrite members_snoc. unfold in_group. rewrite Hann. cbn [andb].
    by rewrite app_nil_r.
Qed.
End Groups.

Section Verdict.
Context `{JSHost}.

Lemma members_elem_of (k : string) (rows : list TableRow) (row : TableRow) :
  row ∈ members k rows <-> row ∈ rows /\ in_group k row = true.
Proof. unfold members. by rewrite list_elem_of_In, filter_In, <- list_elem_of_In. Qed.

Lemma in_group_key (k : string) (row : TableRow) :
  in_group k row = true -> has_annotation row = true /\ annotation_key row = k.
Proof. unfold in_group. intros [Hann Hk%String.eqb_eq]%andb_prop. done. Qed.

Lemma in_group_own (row : TableRow) :
  has_annotation row = true -> in_group (annotation_key row) row = true.
Proof. intros Hann. unfold in_group. by rewrite Hann, String.eqb_refl. Qed.

(** The rows pushed for a group are the verdicts on its rows. *)
Lemma process_group_verdict (bioCols qcCols : list string) (rows : list TableRow)
    (k : string) :
  members k rows <> [] ->
  process_group bioCols qcCols (members k rows) =
  map (verdict bioCols qcCols rows) (members k rows).
Proof.
  intros Hne.
  assert (Hverdict : forall row, row ∈ members k rows ->
            verdict bioCols qcCols rows row =
            if Nat.leb (length (members k rows)) 1 then <[f_status := CStr Retained]> row
            else mark (select_winner bioCols
                         (candidates_of bioCols qcCols (members k rows))) row).
  { intros row [_ [Hann Hk]%in_group_key]%members_elem_of.
    unfold verdict. by rewrite Hann, Hk. }
  unfold process_group.
  destruct (Nat.leb (length (members k rows)) 1) eqn:Hlen.
  - destruct (members k rows) as [| row [| row' rest]] eqn:Hg; [done | | done].
    cbn [head default map]. rewrite Hverdict by left. done.
  - apply map_ext_in. intros row Hrow%list_elem_of_In. by rewrite Hverdict.
Qed.

Lemma flat_map_groups (bioCols qcCols : list string) (rows : list TableRow)
    (keys : list string) :
  (forall k, k ∈ keys -> members k rows <> []) ->
  flat_map (fun g : string * list TableRow => process_group bioCols qcCols g.2)
    (map (fun k => (k, members k rows)) keys) =
  map (verdict bioCols qcCols rows)
    (concat (map snd (map (fun k => (k, members k rows)) keys))).
Proof.
  induction keys as [| k keys IH]; intros Hne; [done |].
  cbn [map flat_map concat snd]. rewrite map_app.
  rewrite process_group_verdict by (apply Hne; left).
  f_equal. apply IH. intros k' Hk'. apply Hne. by right.
Qed.

Lemma verdict_marked (bioCols qcCols : list string) (rows : list TableRow) (row : TableRow) :
  marked row (verdict bioCols qcCols rows row).
Proof.
  unfold verdict. destruct (has_annotation row); [| by left].
  destruct (Nat.leb _ 1); [by left | apply mark_marked].
Qed.

Lemma verdict_id (bioCols qcCols : list string) (rows : list TableRow) (row : TableRow) :
  drop_metrics (verdict bioCols qcCols rows row) !! "ID" = row !! "ID".
Proof.
  destruct (verdict_marked bioCols qcCols rows row) as [-> | ->]; apply finished_id.
Qed.

(** Sorting the rows of the input, each replaced by a row with its
    identifier and rearranged, restores the order of the input. *)
Lemma sort_by_restores_map (F : TableRow -> TableRow) (rows rearranged : list TableRow) :
  distinct_ids rows -> (forall row, F row !! "ID" = row !! "ID") ->
  rearranged ≡ₚ rows ->
  sort_by (order_key rows) (map F rearranged) = map F rows.
Proof.
  intros Hd Hid Hperm.
  assert (Hkeys : forall l, map (order_key rows) (map F l) = map (order_key rows) l).
  { intros l. rewrite map_map. apply map_ext. intros row. by apply order_key_same_id. }
  rewrite (sort_by_Permutation _ (map F rearranged) (map F rows)).
  - apply sort_by_sorted, Sorted_map_key.
    rewrite Hkeys, order_keys_positions by done. apply sorted_positions.
  - by apply Permutation_map.
  - rewrite Hkeys.
    assert (Hp : map (order_key rows) rearranged ≡ₚ map (order_key rows) rows)
      by by apply Permutation_map.
    rewrite Hp, order_keys_positions by done. apply NoDup_positions.
Qed.

(** With distinct identifiers, the final rows are the verdicts on the rows
    of the input, in the order of the input, without the metrics. *)
Lemma finalRows_verdict (bioCols qcCols : list string) (rows : list TableRow) :
  distinct_ids rows ->
  finalRows_of bioCols qcCols rows =
  map (fun row => drop_metrics (verdict bioCols qcCols rows row)) rows.
Proof.
  intros Hd. unfold finalRows_of.
  pose proof (group_rows_inv rows) as [Hperm _].
  rewrite group_rows_closed in Hperm |- *. cbn [fst snd] in Hperm.
  rewrite flat_map_groups.
  - assert (Hunknown :
      map (fun row : TableRow => <[f_status := CStr Retained]> row)
        (List.filter (fun row => negb (has_annotation row)) rows) =
      map (verdict bioCols qcCols rows)
        (List.filter (fun row => negb (has_annotation row)) rows)).
    { apply map_ext_in. intros row [_ Hann]%filter_In.
      unfold verdict. by apply negb_true_iff in Hann as ->. }
    rewrite Hunknown, <- map_app, map_map.
    apply (sort_by_restores_map (fun row => drop_metrics (verdict bioCols qcCols rows row)));
      [done | apply verdict_id | done].
  - intros k (row & Hrow & Hg)%group_keys_elem_of Hnil.
    assert (Hin : row ∈ members k rows) by by apply members_elem_of.
    rewrite Hnil in Hin. by apply elem_of_nil in Hin.
Qed.

Lemma dereplication_verdict (T : TableData) :
  List.filter is_bioCol (headers T) <> [] ->
  List.filter is_qcCol (headers T) <> [] ->
  "ID" ∈ headers T -> distinct_ids (rows T) ->
  handleDereplication (Some T) =
  Ok (mkTable (headers T)
        (map (fun row =>
                drop_metrics (verdict (List.filter is_bioCol (headers T))
                                (List.filter is_qcCol (headers T)) (rows T) row))
           (rows T))).
Proof.
  intros Hbio Hqc Hid Hd. rewrite handleDereplication_ok by done.
  by rewrite finalRows_verdict.
Qed.
End Verdict.

(** ** Dereplication: what is retained *)

(** Two values strictly equal to a third are the same key of a [Map]. *)
Lemma strict_eq_common (a b w : option cell) :
  strict_eq a w = true -> strict_eq b w = true -> same_value_zero a b = true.
Proof.
  destruct a as [[s | x |] |], b as [[t | y |] |], w as [[u | z |] |]; cbn; try done.
  - intros ->%String.eqb_eq ->%String.eqb_eq. apply String.eqb_refl.
  - intros Hx Hy. by rewrite (num_eqb_common x y z).
Qed.

Lemma strict_eq_same_value (a b : option cell) :
  strict_eq a b = true -> same_value_zero a b = true.
Proof.
  destruct a as [[s | x |] |], b as [[t | y |] |]; cbn; try done.
  by intros ->.
Qed.

Lemma forall_from_spec (fuel : nat) (z : Z) (f : Z -> bool) :
  forall_from fuel z f = true ->
  forall i : nat, i < fuel -> f (z + Z.of_nat i)%Z = true.
Proof.
  revert z. induction fuel as [| fuel IH]; intros z Hall i Hi; [lia |].
  cbn [forall_from] in Hall. apply andb_prop in Hall as [Hz Hrest].
  destruct i as [| i].
  - by rewrite Z.add_0_r.
  - replace (z + Z.of_nat (S i))%Z with (z + 1 + Z.of_nat i)%Z by lia.
    apply IH; [done | lia].
Qed.

Lemma threshold_rows_spec (N n k : nat) :
  threshold_rows N (Z.of_nat N) = true -> n <= N -> k <= n ->
  num_gt (missing_rate_of (Z.of_nat n) (Z.of_nat k)) 50 = Nat.ltb (2 * k) n.
Proof.
  induction N as [| N IH]; cbn [threshold_rows]; intros [Hrow Hrest]%andb_prop Hn Hk.
  - assert (n = 0) as -> by lia. assert (k = 0) as -> by lia.
    pose proof (forall_from_spec _ _ _ Hrow 0 ltac:(lia)) as Hcheck.
    cbn beta in Hcheck. rewrite Z.add_0_l in Hcheck. apply eqb_prop in Hcheck.
    by rewrite Hcheck.
  - replace (Z.of_nat (S N) - 1)%Z with (Z.of_nat N) in Hrest by lia.
    destruct (decide (n = S N)) as [-> | Hne]; [| apply IH; [done | lia | done]].
    pose proof (forall_from_spec _ _ _ Hrow k ltac:(lia)) as Hcheck.
    cbn beta in Hcheck. rewrite Z.add_0_l in Hcheck. apply eqb_prop in Hcheck.
    rewrite Hcheck. apply eq_true_iff_eq. rewrite Z.ltb_lt, Nat.ltb_lt. lia.
Qed.

Lemma threshold_checked : threshold_rows 2000 2000 = true.
Proof. vm_compute. reflexivity. Qed.

Section Retained.
Context `{JSHost}.

Lemma filter_length_bound {A : Type} (p : A -> bool) (l : list A) :
  length (List.filter p l) <= length l.
Proof. induction l as [| x l IH]; cbn; [lia |]. destruct (p x); cbn; lia. Qed.

Lemma present_count_bound (bioCols : list string) (row : TableRow) :
  present_count bioCols row <= length bioCols.
Proof.
  unfold present_count, bioValues.
  etrans; [apply filter_length_bound |]. etrans; [apply filter_length_bound |].
  by rewrite length_map.
Qed.

Lemma missingRate_counts (bioCols : list string) (row : TableRow) :
  missingRate bioCols row =
  missing_rate_of (Z.of_nat (length bioCols)) (Z.of_nat (present_count bioCols row)).
Proof. reflexivity. Qed.

(** X13: on a table of at most 2000 biological columns, the missing
    rate of a row is above 50, the threshold of the first exclusion,
    exactly when fewer than half of its biological columns hold a number
    above [0]: the rounding of the division and of the product never moves
    the rate across the threshold. *)
Theorem missing_rate_threshold (bioCols : list string) (row : TableRow)
    (Hcols : length bioCols <= 2000) :
  num_gt (missingRate bioCols row) 50 = true <->
  2 * present_count bioCols row < length bioCols.
Proof.
  rewrite missingRate_counts.
  rewrite (threshold_rows_spec 2000) by
    (apply threshold_checked || done || apply present_count_bound).
  apply Nat.ltb_lt.
Qed.

(** *** Who can win *)

Lemma max_intensity_elem_of (first : TableRow) (l : list TableRow) :
  max_intensity first l = first \/ max_intensity first l ∈ l.
Proof.
  unfold max_intensity. revert first.
  induction l as [| x l IH]; intros first; cbn [fold_left]; [by left |].
  destruct (num_gt (avg_or_zero x) (avg_or_zero first)).
  - destruct (IH x) as [-> | Hin]; right; [left | by right].
  - destruct (IH first) as [-> | Hin]; [by left | right; by right].
Qed.

(** [reduce] starts from the first row of the window and runs over the
    whole window: its first turn, on that row itself, keeps it, so the
    fold over the rows after the first gives the same row. *)
Lemma max_intensity_first (first : TableRow) (final : list TableRow) :
  max_intensity first (first :: final) = max_intensity first final.
Proof.
  unfold max_intensity. cbn [fold_left]. by rewrite num_gt_lt, num_lt_irrefl.
Qed.

(** The winner is a candidate, with or without its average intensity. *)
Lemma select_winner_origin (bioCols : list string) (candidates : list TableRow)
    (w : TableRow) :
  select_winner bioCols candidates = Some w ->
  exists c, c ∈ candidates /\ (w = c \/ w = with_avg bioCols c).
Proof.
  unfold select_winner.
  destruct candidates as [| c1 [| c2 rest]]; [done | |].
  - intros [= <-]. exists c1. split; [left | by left].
  - set (scored := map (with_avg bioCols) (c1 :: c2 :: rest)).
    destruct (finalCandidates_of scored) as [| first final] eqn:Hfinal; [done |].
    intros [= <-].
    assert (Hin : max_intensity first final ∈ first :: final).
    { destruct (max_intensity_elem_of first final) as [-> | Hin]; [left | by right]. }
    rewrite <- Hfinal in Hin. unfold finalCandidates_of in Hin.
    apply list_elem_of_In, filter_In in Hin as [Hin _].
    unfold scored in Hin. apply in_map_iff in Hin as (c & <- & Hc).
    exists c. split; [by apply list_elem_of_In | by right].
Qed.

Lemma candidate_of_id (bioCols qcCols : list string) (row : TableRow) :
  candidate_of bioCols qcCols row !! "ID" = row !! "ID".
Proof.
  unfold candidate_of.
  repeat (match goal with |- context [if ?b then _ else _] => destruct b end);
    by rewrite lookup_insert_ne.
Qed.

(** A candidate without a status comes from a row without a status that
    passes stage 1. *)
Lemma candidate_of_passes (bioCols qcCols : list string) (row : TableRow) :
  has_status (candidate_of bioCols qcCols row) = false ->
  passes_stage1 bioCols qcCols row = true /\ has_status row = false.
Proof.
  unfold candidate_of, passes_stage1.
  destruct (num_gt (missingRate bioCols row) 50); cbn [negb andb];
    [by rewrite has_status_marked |].
  destruct (Nat.ltb (length (qcValues qcCols row)) 2); cbn [orb].
  { by rewrite has_status_insert_other. }
  destruct (PrimFloat.eqb (mean (qcValues qcCols row)) 0); cbn [negb andb];
    [by rewrite has_status_marked |].
  destruct (num_gt (rsd_of (qcValues qcCols row)) 30); cbn [negb];
    [by rewrite has_status_marked |].
  by rewrite has_status_insert_other.
Qed.

(** The winner of a group carries the identifier of a row of the group
    that has no status and passes stage 1. *)
Lemma winner_origin (bioCols qcCols : list string) (group : list TableRow) (w : TableRow) :
  select_winner bioCols (candidates_of bioCols qcCols group) = Some w ->
  exists row, row ∈ group /\ w !! "ID" = row !! "ID" /\
              passes_stage1 bioCols qcCols row = true /\ has_status row = false.
Proof.
  intros (c & Hc & Hw)%select_winner_origin.
  unfold candidates_of in Hc.
  apply list_elem_of_In, filter_In in Hc as [Hc Hstatus].
  apply in_map_iff in Hc as (row & <- & Hrow).
  apply negb_true_iff, candidate_of_passes in Hstatus as [Hpass Hfresh].
  exists row. split_and!; [by apply list_elem_of_In | | done | done].
  destruct Hw as [-> | ->]; [apply candidate_of_id |].
  unfold with_avg. rewrite lookup_insert_ne by done. apply candidate_of_id.
Qed.

Lemma drop_metrics_status (row : TableRow) :
  drop_metrics row !! f_status = row !! f_status.
Proof. unfold drop_metrics. by rewrite !lookup_delete_ne. Qed.

(** A row marked [Retained] carries the identifier of the winner. *)
Lemma mark_retained (winner : option TableRow) (row : TableRow) :
  mark winner row !! f_status = Some (CStr Retained) ->
  exists w, winner = Some w /\ strict_eq (row !! "ID") (w !! "ID") = true.
Proof.
  unfold mark. destruct winner as [w |].
  - destruct (strict_eq (row !! "ID") (w !! "ID")) eqn:Hid; [by exists w |].
    by rewrite lookup_insert_eq.
  - by rewrite lookup_insert_eq.
Qed.

(** Two rows of a group at two positions make a group of two rows at
    least. *)
Lemma members_two (k : string) (rows : list TableRow) (i j : nat) (ri rj : TableRow) :
  i <> j -> rows !! i = Some ri -> rows !! j = Some rj ->
  in_group k ri = true -> in_group k rj = true ->
  2 <= length (members k rows).
Proof.
  unfold members. revert i j.
  induction rows as [| row rows IH]; intros i j Hne Hi Hj Hgi Hgj; [done |].
  assert (Hone : forall (n : nat) (r : TableRow),
            rows !! n = Some r -> in_group k r = true ->
            1 <= length (List.filter (in_group k) rows)).
  { intros n r Hr Hg.
    assert (Hin : In r (List.filter (in_group k) rows)).
    { apply filter_In. split; [| done]. apply list_elem_of_In. by eapply list_elem_of_lookup_2. }
    destruct (List.filter (in_group k) rows); [done | cbn; lia]. }
  cbn [List.filter].
  destruct i as [| i], j as [| j]; cbn in Hi, Hj.
  - done.
  - injection Hi as ->. rewrite Hgi. cbn [length]. pose proof (Hone j rj Hj Hgj). lia.
  - injection Hj as ->. rewrite Hgj. cbn [length]. pose proof (Hone i ri Hi Hgi). lia.
  - assert (2 <= length (List.filter (in_group k) rows))
      by (apply (IH i j); [lia | done ..]).
    destruct (in_group k row); cbn [length]; lia.
Qed.

Lemma verdict_many (bioCols qcCols : list string) (rows : list TableRow) (row : TableRow) :
  has_annotation row = true ->
  2 <= length (members (annotation_key row) rows) ->
  verdict bioCols qcCols rows row =
  mark (select_winner bioCols
          (candidates_of bioCols qcCols (members (annotation_key row) rows))) row.
Proof.
  intros Hann Hlen. unfold verdict. rewrite Hann.
  destruct (Nat.leb_spec (length (members (annotation_key row) rows)) 1); [lia | done].
Qed.

(** X10: the rows of a table are grouped as follows: the rows without
    annotation (missing, null, empty, [0] or blank) are set apart, in
    order; there is one group per annotation, trimmed, in the order of the
    first row of each; a group holds the rows of its annotation, in the
    order of the table, and is never empty. *)
Theorem group_rows_partition (rows : list TableRow) :
  (group_rows rows).2 = List.filter (fun row => negb (has_annotation row)) rows /\
  map fst (group_rows rows).1 = group_keys rows /\
  NoDup (map fst (group_rows rows).1) /\
  Forall (fun g : string * list TableRow =>
            g.2 = List.filter (fun row => has_annotation row &&
                                 String.eqb (trim (String_ (row !! "Final_Annotation"))) g.1)
                    rows /\
            g.2 <> []) (group_rows rows).1.
Proof.
  rewrite group_rows_closed. cbn [fst snd]. split_and!.
  - done.
  - rewrite map_map. cbn [fst]. apply map_id.
  - rewrite map_map. cbn [fst]. rewrite map_id. apply uniq_NoDup.
  - apply Forall_forall. intros [k g] Hg.
    apply list_elem_of_In, in_map_iff in Hg as (k' & [= <- <-] & Hk).
    cbn [fst snd]. split; [done |].
    apply list_elem_of_In, group_keys_elem_of in Hk as (row & Hrow & Hin).
    intros Hnil. assert (Hmem : row ∈ members k' rows) by by apply members_elem_of.
    rewrite Hnil in Hmem. by apply elem_of_nil in Hmem.
Qed.

(** X11: in a table with distinct identifiers, a row without
    annotation, and a row that is alone with its annotation, come out
    [Retained], at their place and otherwise unchanged. *)
Theorem dereplication_keeps_single (T : TableData)
    (Hbio : List.filter is_bioCol (headers T) <> [])
    (Hqc : List.filter is_qcCol (headers T) <> [])
    (Hid : "ID" ∈ headers T)
    (Hdistinct : distinct_ids (rows T)) :
  exists T',
    handleDereplication (Some T) = Ok T' /\
    forall (i : nat) (row : TableRow),
      rows T !! i = Some row ->
      has_annotation row = false \/ members (annotation_key row) (rows T) = [row] ->
      rows T' !! i = Some (finished Retained row).
Proof.
  eexists. split; [by apply dereplication_verdict |]. cbn [rows].
  intros i row Hrow Hsingle.
  change (map ?f ?l) with (f <$> l). rewrite list_lookup_fmap, Hrow. cbn [fmap option_fmap option_map].
  do 2 f_equal. unfold verdict.
  destruct (has_annotation row); [| done].
  destruct Hsingle as [? | ->]; done.
Qed.

(** X12: in a table with distinct identifiers, two rows with the same
    annotation are never both [Retained]: a group keeps at most one row. *)
Theorem dereplication_keeps_one (T : TableData)
    (Hbio : List.filter is_bioCol (headers T) <> [])
    (Hqc : List.filter is_qcCol (headers T) <> [])
    (Hid : "ID" ∈ headers T)
    (Hdistinct : distinct_ids (rows T)) :
  exists T',
    handleDereplication (Some T) = Ok T' /\
    forall (i j : nat) (ri rj oi oj : TableRow),
      i <> j ->
      rows T !! i = Some ri -> rows T !! j = Some rj ->
      has_annotation ri = true -> has_annotation rj = true ->
      annotation_key ri = annotation_key rj ->
      rows T' !! i = Some oi -> rows T' !! j = Some oj ->
      ~ (oi !! f_status = Some (CStr Retained) /\ oj !! f_status = Some (CStr Retained)).
Proof.
  eexists. split; [by apply dereplication_verdict |]. cbn [rows].
  intros i j ri rj oi oj Hne Hi Hj Hai Haj Hkey Hoi Hoj [Hri Hrj].
  change (map ?f ?l) with (f <$> l) in Hoi, Hoj.
  rewrite list_lookup_fmap, Hi in Hoi. rewrite list_lookup_fmap, Hj in Hoj.
  injection Hoi as <-. injection Hoj as <-.
  rewrite drop_metrics_status in Hri, Hrj.
  assert (Hlen : 2 <= length (members (annotation_key ri) (rows T))).
  { apply (members_two _ _ i j ri rj); [done | done | done | by apply in_group_own |].
    rewrite Hkey. by apply in_group_own. }
  rewrite verdict_many in Hri by done.
  rewrite verdict_many in Hrj by (done || by rewrite <- Hkey).
  rewrite <- Hkey in Hrj.
  apply mark_retained in Hri as (w & Hw & Hwi).
  apply mark_retained in Hrj as (w' & Hw' & Hwj).
  rewrite Hw in Hw'. injection Hw' as <-.
  apply Hne. apply (Hdistinct i j ri rj Hi Hj). by eapply strict_eq_common.
Qed.

(** X14: in a table with distinct identifiers, a row that comes out
    [Retained] from a group of two or more rows passed stage 1: its missing
    rate is not above 50, and it has fewer than two QC values, or a QC mean
    other than [0] with an RSD not above 30. A row excluded at stage 1 is
    never the representative of its group. *)
Theorem retained_passes_stage1 (T : TableData)
    (Hbio : List.filter is_bioCol (headers T) <> [])
    (Hqc : List.filter is_qcCol (headers T) <> [])
    (Hid : "ID" ∈ headers T)
    (Hdistinct : distinct_ids (rows T)) :
  exists T',
    handleDereplication (Some T) = Ok T' /\
    forall (i : nat) (row out : TableRow),
      rows T !! i = Some row -> rows T' !! i = Some out ->
      has_annotation row = true ->
      2 <= length (members (annotation_key row) (rows T)) ->
      out !! f_status = Some (CStr Retained) ->
      passes_stage1 (List.filter is_bioCol (headers T))
        (List.filter is_qcCol (headers T)) row = true.
Proof.
  eexists. split; [by apply dereplication_verdict |]. cbn [rows].
  intros i row out Hrow Hout Hann Hlen Hret.
  change (map ?f ?l) with (f <$> l) in Hout.
  rewrite list_lookup_fmap, Hrow in Hout. injection Hout as <-.
  rewrite drop_metrics_status, verdict_many in Hret by done.
  apply mark_retained in Hret as (w & Hw & Hsame).
  apply winner_origin in Hw as (row' & Hin & Hwid & Hpass & _).
  apply members_elem_of in Hin as [Hin _].
  apply list_elem_of_lookup in Hin as [j Hj].
  assert (i = j) as <-.
  { apply (Hdistinct i j row row' Hrow Hj).
    apply strict_eq_same_value. by rewrite <- Hwid. }
  rewrite Hrow in Hj. by injection Hj as <-.
Qed.
End Retained.

(** ** From dereplication to the export and to the filter *)

Section HandOver.
Context `{JSHost}.

(** Taking the status off a finished row that came as the file gave it
    gives the row back. *)
Lemma finished_plain (status : string) (row : TableRow) :
  plain row -> delete f_status (finished status row) = row.
Proof.
  intros (Hstatus & Hrsd & Havg). apply map_eq. intros k.
  unfold finished, drop_metrics.
  destruct (decide (k = f_status)) as [-> | Hs]; [by rewrite lookup_delete_eq |].
  rewrite lookup_delete_ne by done.
  destruct (decide (k = f_avg_intensity)) as [-> | Ha]; [by rewrite lookup_delete_eq |].
  rewrite lookup_delete_ne by done.
  destruct (decide (k = f_qc_rsd)) as [-> | Hr]; [by rewrite lookup_delete_eq |].
  rewrite lookup_delete_ne by done. by rewrite lookup_insert_ne.
Qed.

Lemma is_retained_finished (status : string) (row : TableRow) :
  is_retained (finished status row) = String.eqb status Retained.
Proof.
  unfold is_retained. by destruct (finished_fields status row) as (-> & _ & _).
Qed.

Lemma cleaned_sublist (F : TableRow -> TableRow) (l : list TableRow) :
  (forall row, derived_from row (F row)) -> Forall plain l ->
  sublist (map (fun r : TableRow => delete f_status r) (List.filter is_retained (map F l))) l.
Proof.
  intros HF. induction 1 as [| row l Hrow Hl IH]; cbn [map List.filter]; [constructor |].
  destruct (HF row) as [-> | ->]; rewrite is_retained_finished.
  - rewrite String.eqb_refl. cbn [map]. cbn beta.
    rewrite finished_plain by done. by apply sublist_skip.
  - change (String.eqb Removed Retained) with false. cbn iota. by apply sublist_cons.
Qed.

Lemma verdict_derived (bioCols qcCols : list string) (rows : list TableRow)
    (row : TableRow) :
  derived_from row (drop_metrics (verdict bioCols qcCols rows row)).
Proof.
  destruct (verdict_marked bioCols qcCols rows row) as [-> | ->]; [by left | by right].
Qed.

(** X15: from a table as a file gives it (no row carries a status or a
    metric) with distinct identifiers, the rows handed to the exporter and
    to the filter after dereplication, and the rows the filter then leaves,
    are rows of the input: unchanged, in the order of the input, under the
    headers of the input. The chain only takes rows out. *)
Theorem dereplicated_rows_unchanged (T : TableData) (S : gset string)
    (Hbio : List.filter is_bioCol (headers T) <> [])
    (Hqc : List.filter is_qcCol (headers T) <> [])
    (Hid : "ID" ∈ headers T)
    (Hdistinct : distinct_ids (rows T))
    (Hplain : Forall plain (rows T))
    (Hsize : size S <> 0) :
  exists T' cleaned filtered,
    handleDereplication (Some T) = Ok T' /\
    handleLoadDataForFiltering (Some T') = Some cleaned /\
    cleaned = dataToDownload T' /\
    handleApplyFilter (Some cleaned) (Some S) = Ok filtered /\
    headers cleaned = headers T /\ headers filtered = headers T /\
    sublist (rows cleaned) (rows T) /\
    sublist (rows filtered) (rows T).
Proof.
  assert (Hguard : Nat.eqb (size S) 0 = false) by by apply Nat.eqb_neq.
  eexists _, _, _. split; [by apply dereplication_verdict |].
  split; [done |]. split; [done |].
  unfold handleApplyFilter. rewrite Hguard. split; [done |].
  cbn [headers rows]. split; [done |]. split; [done |].
  assert (Hsub : sublist
            (map (fun r : TableRow => delete f_status r)
               (List.filter (fun r : TableRow =>
                               strict_eq (r !! f_status) (Some (CStr Retained)))
                  (map (fun row =>
                          drop_metrics (verdict (List.filter is_bioCol (headers T))
                                          (List.filter is_qcCol (headers T)) (rows T) row))
                     (rows T))))
            (rows T)).
  { apply (cleaned_sublist
             (fun row => drop_metrics (verdict (List.filter is_bioCol (headers T))
                                         (List.filter is_qcCol (headers T)) (rows T) row)));
      [intros row; apply verdict_derived | done]. }
  split; [done |]. etrans; [apply filter_sublist | done].
Qed.
End HandOver.

Lemma missing_rate_threshold_witness :
  num_gt (missingRate scenario_bioCols scenario_row1) 50 = true <->
  2 * present_count scenario_bioCols scenario_row1 < length scenario_bioCols.
Proof.
  apply (missing_rate_threshold scenario_bioCols scenario_row1). cbn. lia.
Defined.

Lemma dereplication_keeps_single_witness :
  exists T',
    handleDereplication (Some interleaved_table) = Ok T' /\
    forall (i : nat) (row : TableRow),
      rows interleaved_table !! i = Some row ->
      has_annotation row = false \/
      members (annotation_key row) (rows interleaved_table) = [row] ->
      rows T' !! i = Some (finished Retained row).
Proof.
  apply (dereplication_keeps_single interleaved_table).
  - vm_compute. discriminate.
  - vm_compute. discriminate.
  - vm_compute. left.
  - by apply distinct_ids_checked.
Defined.

Lemma dereplication_keeps_one_witness :
  exists T',
    handleDereplication (Some interleaved_table) = Ok T' /\
    forall (i j : nat) (ri rj oi oj : TableRow),
      i <> j ->
      rows interleaved_table !! i = Some ri -> rows interleaved_table !! j = Some rj ->
      has_annotation ri = true -> has_annotation rj = true ->
      annotation_key ri = annotation_key rj ->
      rows T' !! i = Some oi -> rows T' !! j = Some oj ->
      ~ (oi !! f_status = Some (CStr Retained) /\ oj !! f_status = Some (CStr Retained)).
Proof.
  apply (dereplication_keeps_one interleaved_table).
  - vm_compute. discriminate.
  - vm_compute. discriminate.
  - vm_compute. left.
  - by apply distinct_ids_checked.
Defined.

Lemma retained_passes_stage1_witness :
  exists T',
    handleDereplication (Some interleaved_table) = Ok T' /\
    forall (i : nat) (row out : TableRow),
      rows interleaved_table !! i = Some row -> rows T' !! i = Some out ->
      has_annotation row = true ->
      2 <= length (members (annotation_key row) (rows interleaved_table)) ->
      out !! f_status = Some (CStr Retained) ->
      passes_stage1 (List.filter is_bioCol (headers interleaved_table))
        (List.filter is_qcCol (headers interleaved_table)) row = true.
Proof.
  apply (retained_passes_stage1 interleaved_table).
  - vm_compute. discriminate.
  - vm_compute. discriminate.
  - vm_compute. left.
  - by apply distinct_ids_checked.
Defined.

Lemma plain_checked (row : TableRow) :
  row !! f_status = None -> row !! f_qc_rsd = None -> row !! f_avg_intensity = None ->
  plain row.
Proof. by intros ???. Qed.

Lemma dereplicated_rows_unchanged_witness :
  exists T' cleaned filtered,
    handleDereplication (Some interleaved_table) = Ok T' /\
    handleLoadDataForFiltering (Some T') = Some cleaned /\
    cleaned = dataToDownload T' /\
    handleApplyFilter (Some cleaned) (Some {[ "Glucose" ]}) = Ok filtered /\
    headers cleaned = headers interleaved_table /\
    headers filtered = headers interleaved_table /\
    sublist (rows cleaned) (rows interleaved_table) /\
    sublist (rows filtered) (rows interleaved_table).
Proof.
  apply (dereplicated_rows_unchanged interleaved_table {[ "Glucose" ]}).
  - vm_compute. discriminate.
  - vm_compute. discriminate.
  - vm_compute. left.
  - by apply distinct_ids_checked.
  - repeat constructor.
  - rewrite size_singleton. lia.
Defined.

(** Of the five rows, the first and the last lose to the third; the
    exporter receives the other three, and the filter then takes out the
    row annotated [Glucose]. *)
Example hand_over_run :
  result_map (fun T' => rows (dataToDownload T'))
    (handleDereplication (Some interleaved_table)) =
  Ok [ {[ "ID" := CStr "9"; "Final_Annotation" := CStr "Glucose";
          "CON_1" := CNum 7; "HBO_1" := CNum 7;
          "QC-1" := CNum 7; "QC-2" := CNum 7; "QC-3" := CNum 7 ]};
       scenario_row2;
       {[ "ID" := CStr "8"; "Final_Annotation" := CNull;
          "CON_1" := CNum 1; "HBO_1" := CNum 1;
          "QC-1" := CNum 1; "QC-2" := CNum 1; "QC-3" := CNum 1 ]} ].
Proof. vm_compute. reflexivity. Qed.

(** ** The exclusion list and the explanation tool *)

Lemma join_cons (sep x y : string) (l : list string) :
  join sep (x :: y :: l) = x +:+ sep +:+ join sep (y :: l).
Proof. reflexivity. Qed.

Lemma split_on_join (c : ascii) (l : list string) :
  l <> [] -> Forall (fun s => count_char c s = 0) l ->
  split_on c (join (String c EmptyString) l) = l.
Proof.
  intros Hne Hl. induction Hl as [| x l Hx Hl IH]; [done |].
  destruct l as [| y l]; [by apply split_on_none |].
  rewrite join_cons. set (rest := join (String c EmptyString) (y :: l)) in *.
  change (String c EmptyString +:+ rest) with (String c rest).
  rewrite split_on_app by done. f_equal. by apply IH.
Qed.

Lemma map_id_on {A : Type} (f : A -> A) (l : list A) :
  Forall (fun x => f x = x) l -> map f l = l.
Proof. induction 1 as [| x l Hx Hl IH]; cbn; [done |]. by rewrite Hx, IH. Qed.

Lemma filter_all {A : Type} (p : A -> bool) (l : list A) :
  Forall (fun x => p x = true) l -> List.filter p l = l.
Proof. induction 1 as [| x l Hx Hl IH]; cbn; [done |]. by rewrite Hx, IH. Qed.

Section ListTools.
Context `{JSHost}.

Lemma pasted_elem_of (text k : string) :
  k ∈ Set_of (List.filter nonempty (map trim (split_on newline text))) <->
  k <> EmptyString /\ exists line, line ∈ split_on newline text /\ trim line = k.
Proof.
  unfold Set_of. rewrite elem_of_list_to_set, list_elem_of_In, filter_In, in_map_iff.
  unfold nonempty. rewrite negb_true_iff, String.eqb_neq. split.
  - intros [(line & Hk & Hin) Hne]. split; [done |]. exists line.
    by rewrite list_elem_of_In.
  - intros [Hne (line & Hin & Hk)]. split; [| done]. exists line.
    by rewrite <- list_elem_of_In.
Qed.

Lemma contaminant_names_elem_of (data : TableData) (k : string) :
  k ∈ contaminant_names data <->
  k <> EmptyString /\
  exists row : TableRow, row ∈ rows data /\ trim (String_ (row !! "name")) = k.
Proof.
  unfold contaminant_names, Set_of.
  rewrite elem_of_list_to_set, list_elem_of_In, filter_In, in_map_iff.
  unfold nonempty. rewrite negb_true_iff, String.eqb_neq. split.
  - intros [(row & Hk & Hin) Hne]. split; [done |]. exists row.
    by rewrite list_elem_of_In.
  - intros [Hne (row & Hin & Hk)]. split; [| done]. exists row.
    by rewrite <- list_elem_of_In.
Qed.

(** X16: the two loaders of the exclusion list. The file loader refuses
    a table without the header [name]; otherwise the list holds the texts of
    the [name] cells, trimmed, a null cell reading as its text [null]. The
    paste loader refuses a text that trims to nothing; otherwise the list
    holds the lines of the text, trimmed. Neither list ever holds the empty
    name. *)
Theorem exclusion_list_loaders (data : TableData) (contaminantText : string) :
  match handleContaminantFileProcess data with
  | inl e => e = NoNameColumn /\ ("name" ∉ headers data)
  | inr names =>
      "name" ∈ headers data /\ (EmptyString ∉ names) /\
      (forall k, k ∈ names <->
         k <> EmptyString /\
         exists row : TableRow, row ∈ rows data /\ trim (String_ (row !! "name")) = k) /\
      (forall row : TableRow,
         row ∈ rows data -> row !! "name" = Some CNull -> trim "null" <> EmptyString ->
         trim "null" ∈ names)
  end /\
  match handleProcessPastedList contaminantText with
  | inl e => e = NoPastedNames /\ trim contaminantText = EmptyString
  | inr names =>
      trim contaminantText <> EmptyString /\ (EmptyString ∉ names) /\
      forall k, k ∈ names <->
        k <> EmptyString /\
        exists line, line ∈ split_on newline contaminantText /\ trim line = k
  end.
Proof.
  split.
  - unfold handleContaminantFileProcess.
    destruct (includes (headers data) "name") eqn:Hname; cbn [negb].
    + apply includes_true in Hname. split_and!; [done | | |].
      * rewrite contaminant_names_elem_of. by intros [? _].
      * apply contaminant_names_elem_of.
      * intros row Hrow Hnull Hne. apply contaminant_names_elem_of.
        split; [done |]. exists row. by rewrite Hnull.
    + by apply includes_false in Hname.
  - unfold handleProcessPastedList, nonempty.
    destruct (String.eqb_spec (trim contaminantText) EmptyString) as [Hempty | Hsome];
      cbn [negb]; [done |].
    split_and!; [done | | apply pasted_elem_of].
    rewrite pasted_elem_of. by intros [? _].
Qed.

(** X17: a pasted text with one name per line loads exactly these
    names: for one name or more, none empty, holding a line feed or changed
    by trimming, the list built from the names joined by line feeds is the
    set of the names. *)
Theorem pasted_list_round_trip (names : list string)
    (Hsome : names <> [])
    (Hnames : Forall (fun n => trim n = n /\ n <> EmptyString /\
                               count_char newline n = 0) names)
    (Htext : trim (join (String newline EmptyString) names) <> EmptyString) :
  handleProcessPastedList (join (String newline EmptyString) names) =
  inr (list_to_set names).
Proof.
  unfold handleProcessPastedList, nonempty.
  destruct (String.eqb_spec (trim (join (String newline EmptyString) names)) EmptyString)
    as [Hempty | _]; [done |]. cbn [negb]. f_equal.
  rewrite split_on_join; [| done |].
  - rewrite map_id_on, filter_all; [done | |].
    + eapply Forall_impl; [exact Hnames |]. intros x (_ & Hx & _).
      by apply negb_true_iff, String.eqb_neq.
    + eapply Forall_impl; [exact Hnames |]. by intros x (Hx & _).
  - eapply Forall_impl; [exact Hnames |]. by intros x (_ & _ & Hx).
Qed.

(** *** The explanation tool *)

Lemma uniqueAnnotations_elem_of (T : TableData) (a : string) :
  a ∈ uniqueAnnotations T <->
  exists row : TableRow,
    row ∈ rows T /\ is_explained row = true /\
    trim (String_ (row !! "Final_Annotation")) = a.
Proof.
  unfold uniqueAnnotations. rewrite uniq_elem_of, list_elem_of_In, in_map_iff. split.
  - intros (row & Ha & [Hin Hrow]%filter_In). exists row. by rewrite list_elem_of_In.
  - intros (row & Hin & Hrow & Ha). exists row. split; [done |].
    apply filter_In. by rewrite <- list_elem_of_In.
Qed.

Lemma uniqueAnnotations_nonempty (T : TableData) :
  Forall (fun a => nonempty a = true) (uniqueAnnotations T).
Proof.
  apply Forall_forall. intros a (row & _ & Hrow & <-)%uniqueAnnotations_elem_of.
  unfold is_explained in Hrow. by apply andb_prop in Hrow as [_ Hrow].
Qed.

(** X18: the list loaded in the explanation tool is read back as it
    was built. The annotations taken from the table (the filter table if
    there is one, else the dereplication table) are those of the rows that
    are annotated and retained or without status, trimmed, each once, in the
    order of their first row; when none of them holds a line feed or is
    changed by trimming, the text written in the tool, split again into
    metabolites, gives the same list. *)
Theorem explanation_round_trip (filterToolData dereplicationData : option TableData)
    (T : TableData) (explanationMetabolites : string)
    (Hsource : match filterToolData with
               | Some data => Some data
               | None => dereplicationData
               end = Some T)
    (Hsome : uniqueAnnotations T <> [])
    (Hclean : Forall (fun a => trim a = a /\ count_char newline a = 0)
                (uniqueAnnotations T)) :
  exists text,
    handleLoadDataForExplanation filterToolData dereplicationData
      explanationMetabolites = inr text /\
    metabolites_of text = uniqueAnnotations T /\
    NoDup (uniqueAnnotations T) /\
    forall a, a ∈ uniqueAnnotations T <->
      exists row : TableRow,
        row ∈ rows T /\ is_explained row = true /\
        trim (String_ (row !! "Final_Annotation")) = a.
Proof.
  unfold handleLoadDataForExplanation. rewrite Hsource.
  destruct (uniqueAnnotations T) as [| a rest] eqn:Hlist; [done |].
  cbn [length Nat.ltb Nat.leb]. eexists. split; [done |]. rewrite <- Hlist in *.
  split_and!.
  - unfold metabolites_of. rewrite split_on_join.
    + rewrite map_id_on, filter_all.
      * apply uniq_NoDup_id. unfold uniqueAnnotations. apply uniq_NoDup.
      * apply uniqueAnnotations_nonempty.
      * eapply Forall_impl; [exact Hclean |]. by intros x [Hx _].
    + by rewrite Hlist.
    + eapply Forall_impl; [exact Hclean |]. by intros x [_ Hx].
  - unfold uniqueAnnotations. apply uniq_NoDup.
  - apply uniqueAnnotations_elem_of.
Qed.

(** *** The chunks of the request *)

Lemma chunks_from_fuel (fuel fuel' i : nat) (l : list string) :
  length l - i <= fuel -> length l - i <= fuel' ->
  chunks_from fuel i l = chunks_from fuel' i l.
Proof.
  revert fuel' i. induction fuel as [| fuel IH]; intros fuel' i Hf Hf'.
  - destruct fuel' as [| fuel']; [done |]. cbn [chunks_from].
    destruct (Nat.ltb_spec i (length l)); [lia | done].
  - cbn [chunks_from]. destruct (Nat.ltb_spec i (length l)) as [Hi | Hi].
    + destruct fuel' as [| fuel']; [lia |]. cbn [chunks_from].
      destruct (Nat.ltb_spec i (length l)); [| lia]. f_equal.
      apply IH; unfold CHUNK_SIZE; lia.
    + destruct fuel' as [| fuel']; [done |]. cbn [chunks_from].
      destruct (Nat.ltb_spec i (length l)); [lia | done].
Qed.

Lemma chunks_from_spec (fuel i : nat) (l : list string) :
  length l - i <= fuel ->
  concat (chunks_from fuel i l) = drop i l /\
  Forall (fun chunk => 1 <= length chunk <= CHUNK_SIZE) (chunks_from fuel i l) /\
  length l - i <= CHUNK_SIZE * length (chunks_from fuel i l) /\
  CHUNK_SIZE * length (chunks_from fuel i l) < length l - i + CHUNK_SIZE.
Proof.
  revert i. induction fuel as [| fuel IH]; intros i Hfuel; cbn [chunks_from].
  - rewrite drop_ge by lia. unfold CHUNK_SIZE. cbn. split_and!; [done | constructor | lia | lia].
  - destruct (Nat.ltb_spec i (length l)) as [Hi | Hi].
    + destruct (IH (i + CHUNK_SIZE)) as (Hcat & Hall & Hlow & Hhigh);
        [unfold CHUNK_SIZE; lia |].
      cbn [concat length]. rewrite Hcat. unfold slice.
      replace (i + CHUNK_SIZE - i) with CHUNK_SIZE by lia.
      split_and!.
      * rewrite <- (take_drop CHUNK_SIZE (drop i l)) at 2.
        by rewrite drop_drop.
      * constructor; [| done]. rewrite length_take, length_drop.
        unfold CHUNK_SIZE. lia.
      * unfold CHUNK_SIZE in *. lia.
      * unfold CHUNK_SIZE in *. lia.
    + rewrite drop_ge by lia. unfold CHUNK_SIZE. cbn.
      split_and!; [done | constructor | lia | lia].
Qed.

(** X19: the names are sent in chunks that, put end to end, are the
    list of the names: no name is lost, repeated or moved. Every chunk holds
    between 1 and 50 names, there are as many chunks as 50 goes into the
    number of names, rounded up, and the loop ends by its own test: more
    fuel gives the same chunks. *)
Theorem chunks_cover (metabolites : list string) :
  concat (chunks_of metabolites) = metabolites /\
  Forall (fun chunk => 1 <= length chunk <= 50) (chunks_of metabolites) /\
  length metabolites <= 50 * length (chunks_of metabolites) /\
  50 * length (chunks_of metabolites) < length metabolites + 50 /\
  forall fuel, length metabolites <= fuel ->
    chunks_from fuel 0 metabolites = chunks_of metabolites.
Proof.
  unfold chunks_of.
  destruct (chunks_from_spec (length metabolites) 0 metabolites) as (Hcat & Hall & Hlow & Hhigh);
    [lia |].
  rewrite Nat.sub_0_r in Hlow, Hhigh. split_and!; try done.
  intros fuel Hfuel. apply chunks_from_fuel; lia.
Qed.
End ListTools.

(** *** The table of the answers *)

Lemma fold_field_snoc (fields : list (string * json)) (k k' : string) (v : json) :
  fold_left (fun found kv => if String.eqb (fst kv) k then Some (snd kv) else found)
    (fields ++ [(k', v)]) None =
  if String.eqb k' k then Some v
  else fold_left (fun found kv => if String.eqb (fst kv) k then Some (snd kv) else found)
         fields None.
Proof. by rewrite fold_left_app. Qed.

Lemma field_of_snoc (fields : list (string * json)) (k k' : string) (v : json) :
  field_of (fields ++ [(k', v)]) k =
  if String.eqb k' k then Some v else field_of fields k.
Proof.
  induction fields as [| [k0 v0] fields IH]; cbn [app field_of].
  - by destruct (String.eqb k' k).
  - rewrite IH. destruct (String.eqb k' k); [done |]. done.
Qed.

(** Reading a key of an object gives the value of its last field. *)
Lemma json_get_object (fields : list (string * json)) (k : string) :
  json_get (JObj fields) k = Some (field_of fields k).
Proof.
  cbn [json_get]. f_equal.
  induction fields as [| [k' v] fields IH] using rev_ind; [done |].
  by rewrite fold_field_snoc, field_of_snoc, IH.
Qed.

Lemma resultMap_entries_null (results : list json) :
  JNull ∈ results -> resultMap_entries results = None.
Proof.
  induction results as [| res results IH]; [by intros ?%elem_of_nil |].
  intros [<- | Hin]%elem_of_cons; cbn [resultMap_entries]; [done |].
  destruct (json_get res "englishName"); [| done]. by rewrite IH.
Qed.

Lemma resultMap_entries_some (results : list json) :
  JNull ∉ results ->
  resultMap_entries results =
  Some (map (fun res => (default None (json_get res "englishName"), res)) results).
Proof.
  induction results as [| res results IH]; [done |].
  intros Hnull. cbn [resultMap_entries map].
  rewrite IH by (intros Hin; apply Hnull; by right).
  destruct res; try done. exfalso. apply Hnull. left.
Qed.

Lemma resultMap_get_snoc (entries : list (option json * json)) (key : option json)
    (res : json) (name : string) :
  resultMap_get (entries ++ [(key, res)]) name =
  match key with
  | Some (JStr s) => if String.eqb s name then Some res else resultMap_get entries name
  | _ => resultMap_get entries name
  end.
Proof. unfold resultMap_get. by rewrite fold_left_app. Qed.

(** The map holds, under a name, the last answer given under it. *)
Lemma resultMap_get_last (results : list json) (name : string) :
  resultMap_get (map (fun res => (default None (json_get res "englishName"), res)) results)
    name =
  last (List.filter (answers name) results).
Proof.
  induction results as [| res results IH] using rev_ind; [done |].
  rewrite map_app, List.filter_app. cbn [map List.filter].
  rewrite resultMap_get_snoc, IH.
  destruct res as [| b | x | s | items | fields];
    [by rewrite app_nil_r .. |].
  rewrite json_get_object.
  change (answers name (JObj fields))
    with (match field_of fields "englishName" with
          | Some (JStr s) => String.eqb s name
          | _ => false
          end).
  destruct (field_of fields "englishName") as [[| b | x | s | items | inner] |];
    cbn [default id]; try by rewrite app_nil_r.
  destruct (String.eqb s name); [by rewrite last_snoc | by rewrite app_nil_r].
Qed.

(** What is written for a key is what the table shows for it. *)
Lemma or_text_shown (answer : option json) (k fallback : string) :
  or_text (json_get_opt answer k) fallback = shown answer k fallback.
Proof.
  unfold or_text, json_get_opt, shown, isNaN.
  destruct answer as [[| b | x | s | items | fields] |]; try done.
  rewrite json_get_object.
  destruct (field_of fields k) as [[| [] | x | s | items | inner] |];
    cbn [default id json_truthy]; try done.
  - by destruct (_ || _).
  - by destruct (String.eqb s EmptyString).
Qed.

(** X20: the table of the explanation. When one of the values read in the
    answers is [null], reading its name throws and no table is exported.
    Otherwise the table has the three headers and one row per requested
    name, in the order of the request, whatever else the service answered:
    the row of a name holds the name and, read in the last answer given
    under this name, the translation and the class; where there is no such
    answer, or the value is missing, [null], [false], empty, [0] or [NaN],
    it holds the text of the failure instead. *)
Theorem explanation_rows (metabolites : list string) (results : list json) :
  let answer name := last (List.filter (answers name) results) in
  (JNull ∈ results -> explanation_table metabolites results = None) /\
  (JNull ∉ results ->
   exists rows,
     explanation_table metabolites results = Some (["英文名称"; "中文翻译"; "分类"], rows) /\
     length rows = length metabolites /\
     forall (i : nat) (name : string),
       metabolites !! i = Some name ->
       exists row : gmap string json,
         rows !! i = Some row /\
         row !! "英文名称" = Some (JStr name) /\
         row !! "中文翻译" = Some (shown (answer name) "chineseTranslation" "翻译失败") /\
         row !! "分类" = Some (shown (answer name) "classification" "分类失败") /\
         forall k, is_Some (row !! k) -> k = "英文名称" \/ k = "中文翻译" \/ k = "分类").
Proof.
  intros answer. unfold explanation_table, orderedRows. split.
  - intros Hnull. by rewrite resultMap_entries_null.
  - intros Hnull. rewrite resultMap_entries_some by done.
    eexists. split; [done |]. split; [by rewrite length_map |].
    intros i name Hname. eexists. split.
    + change (map ?f ?l) with (f <$> l) at 1. by rewrite list_lookup_fmap, Hname.
    + cbn beta zeta. rewrite resultMap_get_last, !or_text_shown. fold (answer name).
      split_and!.
      * by rewrite lookup_insert_eq.
      * rewrite lookup_insert_ne by done. by rewrite lookup_insert_eq.
      * rewrite !lookup_insert_ne by done. by rewrite lookup_singleton_eq.
      * intros k [v Hk].
        destruct (decide (k = "英文名称")) as [-> | H1]; [by left |].
        destruct (decide (k = "中文翻译")) as [-> | H2]; [right; by left |].
        destruct (decide (k = "分类")) as [-> | H3]; [right; by right |].
        rewrite !lookup_insert_ne in Hk by done.
        by rewrite lookup_singleton_ne in Hk.
Qed.

Lemma pasted_list_round_trip_witness :
  handleProcessPastedList (join (String newline EmptyString) pasted_names_ex) =
  inr (list_to_set pasted_names_ex).
Proof.
  apply (pasted_list_round_trip pasted_names_ex).
  - discriminate.
  - repeat constructor; vm_compute; congruence.
  - vm_compute. discriminate.
Defined.

Lemma explanation_round_trip_witness :
  exists text,
    handleLoadDataForExplanation None (Some explained_table_ex) EmptyString = inr text /\
    metabolites_of text = uniqueAnnotations explained_table_ex /\
    NoDup (uniqueAnnotations explained_table_ex) /\
    forall a, a ∈ uniqueAnnotations explained_table_ex <->
      exists row : TableRow,
        row ∈ rows explained_table_ex /\ is_explained row = true /\
        trim (String_ (row !! "Final_Annotation")) = a.
Proof.
  apply (explanation_round_trip None (Some explained_table_ex) explained_table_ex).
  - reflexivity.
  - vm_compute. discriminate.
  - assert (Hlist : uniqueAnnotations explained_table_ex = ["Caffeine"; "Glucose"])
      by (vm_compute; reflexivity).
    rewrite Hlist. repeat constructor.
Defined.

(** The annotations of the retained rows, each once. *)
Example explanation_run :
  uniqueAnnotations explained_table_ex = ["Caffeine"; "Glucose"].
Proof. vm_compute. reflexivity. Qed.

(** The rows written for three names from the answers of the example, and
    nothing when an answer holds [null]. *)
Example explanation_table_run :
  explanation_table ["Caffeine"; "Glucose"; "Inosine"] results_ex =
  Some (["英文名称"; "中文翻译"; "分类"],
        [ {[ "英文名称" := JStr "Caffeine"; "中文翻译" := JStr "咖啡因";
             "分类" := JStr "植物/微生物代谢物" ]};
          {[ "英文名称" := JStr "Glucose"; "中文翻译" := JStr "翻译失败";
             "分类" := JStr "内源性代谢物" ]};
          {[ "英文名称" := JStr "Inosine"; "中文翻译" := JStr "翻译失败";
             "分类" := JStr "分类失败" ]} ]) /\
  explanation_table ["Caffeine"] (results_ex ++ [JNull]) = None.
Proof. split; vm_compute; reflexivity. Qed.

(** 120 names go in three chunks. *)
Example chunks_run :
  map length (chunks_of (replicate 120 "x")) = [50; 50; 20].
Proof. vm_compute. reflexivity. Qed.

(** ** The workflow *)

Section WorkflowFacts.
Context `{JSHost}.

Lemma import_ok_headers (data netTable : TableData) :
  handleFileProcess_import data = inr netTable ->
  "ID" ∈ headers netTable /\ "MZ" ∈ headers netTable.
Proof.
  unfold handleFileProcess_import.
  destruct (if includes (headers data) "ID" && includes (headers data) "MZ" &&
               includes (headers data) "RT" then _ else _) as [e | processed]; [done |].
  cbn [List.filter].
  destruct (includes (headers processed) "ID") eqn:Hid;
    destruct (includes (headers processed) "MZ") eqn:Hmz; cbn; try done.
  intros [= <-]. by apply includes_true in Hid, Hmz.
Qed.

(** The check made after the import never fails. *)
Lemma import_never_still_missing (data : TableData) (cols : list string) :
  handleFileProcess_import data <> inl (StillMissingColumns cols).
Proof.
  unfold handleFileProcess_import.
  destruct (includes (headers data) "ID" && includes (headers data) "MZ" &&
            includes (headers data) "RT") eqn:Hall.
  - apply andb_prop in Hall as [[Hid Hmz]%andb_prop _].
    cbn [List.filter]. by rewrite Hid, Hmz.
  - destruct (includes (headers data) "Filename") eqn:Hfile; [| done].
    cbn [headers List.filter].
    assert (Hid : includes (import_headers (headers data)) "ID" = true).
    { apply includes_true, import_headers_all. set_solver. }
    assert (Hmz : includes (import_headers (headers data)) "MZ" = true).
    { apply includes_true, import_headers_all. set_solver. }
    by rewrite Hid, Hmz.
Qed.

(** A merge of one of the three matching steps leaves the columns outside
    its append columns as they are, row by row. *)
Lemma matching_rows_outside (stepConfig : ProcessingStep)
    (mergedData netTable data out : TableData) (unmatched : list cell) :
  handleFileProcess stepConfig (Some mergedData) (Some netTable) data =
    Ok (out, unmatched) ->
  matchColumn stepConfig = "ID" \/
  (matchColumn stepConfig = "ionMass" /\
   exists baseMzKey, matchColumnBase stepConfig = Some baseMzKey /\
                     baseMzKey <> EmptyString) ->
  Forall2 (fun baseRow outRow : TableRow =>
             forall col, col ∉ appendColumns stepConfig -> outRow !! col = baseRow !! col)
    (rows mergedData) (rows out).
Proof.
  intros Hok Hkind. unfold handleFileProcess in Hok.
  destruct (negb (Nat.eqb (length _) 0)); [done |].
  destruct Hkind as [Hid | (Hmass & baseMzKey & Hbase & Hkey)].
  - rewrite Hid, String.eqb_refl in Hok. injection Hok as <- <-. cbn [rows].
    apply Forall2_fmap_r, Forall_Forall2_diag, Forall_forall.
    intros baseRow _ col Hcol. by apply merge_id_row_outside.
  - rewrite Hmass, Hbase, String.eqb_refl in Hok.
    change (String.eqb "ionMass" "ID") with false in Hok.
    assert (Hne : nonempty baseMzKey = true).
    { unfold nonempty. by destruct (String.eqb_spec baseMzKey EmptyString). }
    rewrite Hne in Hok. injection Hok as <- <-. cbn [rows].
    apply Forall2_imap. intros i baseRow col Hcol. by apply merge_mass_row_outside.
Qed.

Lemma aligned_refl (T : TableData) : aligned T T.
Proof. unfold aligned. apply Forall_Forall2_diag, Forall_forall. by intros row _. Qed.

Lemma aligned_step (net merged out : TableData) :
  aligned net merged ->
  Forall2 (fun baseRow outRow : TableRow =>
             outRow !! "ID" = baseRow !! "ID" /\ outRow !! "MZ" = baseRow !! "MZ")
    (rows merged) (rows out) ->
  aligned net out.
Proof.
  unfold aligned. intros Hnm Hmo.
  revert Hmo. generalize (rows out). induction Hnm as [| n m ns ms [Hi Hm] Hrest IH];
    intros outs Hmo; inversion Hmo as [| m' o ms' os [Hi' Hm'] Hrest']; subst;
    constructor.
  - split; congruence.
  - by apply IH.
Qed.

Lemma merge_missing_only (stepConfig : ProcessingStep) (merged net data : TableData)
    (e : error) :
  handleFileProcess stepConfig (Some merged) (Some net) data = Throw e ->
  e <> BaseDataLost.
Proof.
  unfold handleFileProcess. destruct (negb _); [by intros [= <-] |].
  by destruct (if String.eqb _ _ then _ else _).
Qed.

(** The three matching steps: their kind and their append columns. *)
Lemma matching_steps (step : nat) (stepConfig : ProcessingStep) :
  PROCESSING_STEPS !! step = Some stepConfig -> step = 2 \/ step = 3 \/ step = 4 ->
  (matchColumn stepConfig = "ID" \/
   (matchColumn stepConfig = "ionMass" /\
    exists baseMzKey, matchColumnBase stepConfig = Some baseMzKey /\
                      baseMzKey <> EmptyString)) /\
  ("ID" ∉ appendColumns stepConfig) /\ ("MZ" ∉ appendColumns stepConfig).
Proof.
  intros Hstep [-> | [-> | ->]]; injection Hstep as <-.
  - split; [by left |]. split; by apply (bool_decide_unpack _).
  - split; [by left |]. split; by apply (bool_decide_unpack _).
  - split; [right; split; [done | by exists "MZ"] |].
    split; by apply (bool_decide_unpack _).
Qed.

Lemma annotated_rows (merged final : TableData) :
  handleGenerateAnnotation (Some merged) = inr final ->
  Forall2 (fun baseRow outRow : TableRow =>
             outRow !! "ID" = baseRow !! "ID" /\ outRow !! "MZ" = baseRow !! "MZ")
    (rows merged) (rows final).
Proof.
  unfold handleGenerateAnnotation. destruct (negb _); [done |]. intros [= <-].
  cbn [rows]. apply Forall2_fmap_r, Forall_Forall2_diag, Forall_forall.
  intros row _. unfold compose. by rewrite !lookup_insert_ne.
Qed.

Lemma consistent_initial : consistent Workflow.initial.
Proof.
  unfold consistent. cbn. split_and!; try done; try lia; try constructor.
  - by intros ?%elem_of_nil.
  - by intros ?%elem_of_nil.
  - intros cols. by intros ?%elem_of_nil.
Qed.

(** A state with the same variables and the same reports. *)
Lemma consistent_same (w w' : Workflow.state) :
  Workflow.currentStep w' = Workflow.currentStep w ->
  Workflow.netTable w' = Workflow.netTable w ->
  Workflow.mergedData w' = Workflow.mergedData w ->
  Workflow.dataHistory w' = Workflow.dataHistory w ->
  Workflow.reported w' = Workflow.reported w ->
  consistent w -> consistent w'.
Proof. unfold consistent. by intros -> -> -> -> ->. Qed.

Lemma consistent_failed (w : Workflow.state) (e : Workflow.failure) :
  consistent w ->
  e <> Workflow.MergeFailed BaseDataLost ->
  e <> Workflow.AnnotateFailed NoDataToAnnotate ->
  (forall cols, e <> Workflow.ImportFailed (StillMissingColumns cols)) ->
  consistent (Workflow.failed w e).
Proof.
  intros (Hstep & Hlen & Hsome & Htables & He1 & He2 & He3) Hn1 Hn2 Hn3.
  unfold consistent, Workflow.failed. cbn.
  split_and!; try done.
  - rewrite elem_of_app, list_elem_of_singleton. naive_solver.
  - rewrite elem_of_app, list_elem_of_singleton. naive_solver.
  - intros cols. rewrite elem_of_app, list_elem_of_singleton. naive_solver.
Qed.

Lemma head_take_app {A : Type} (n : nat) (l : list A) (x y : A) :
  0 < n -> head l = Some x -> head (take n l ++ [y]) = Some x.
Proof. intros Hn Hl. destruct l as [| a l], n as [| n]; cbn in *; done || lia. Qed.

(** A call of [handleFileProcess] that goes on with the variables as they
    still are keeps the state consistent. *)
Lemma consistent_resume (w : Workflow.state) (parsed : option TableData) :
  consistent w ->
  Workflow.currentStep w = 0 \/ Workflow.currentStep w = 2 \/
  Workflow.currentStep w = 3 \/ Workflow.currentStep w = 4 ->
  consistent
    (Workflow.handleFileProcess_resume
       (Workflow.mkClosure (Workflow.currentStep w) (Workflow.mergedData w)
          (Workflow.netTable w)) parsed w).
Proof.
  intros Hw Hkind. unfold Workflow.handleFileProcess_resume.
  cbn [Workflow.c_currentStep Workflow.c_mergedData Workflow.c_netTable].
  destruct (PROCESSING_STEPS !! Workflow.currentStep w) as [stepConfig |] eqn:Hconfig;
    [| done].
  destruct parsed as [data |]; [| by apply consistent_failed].
  destruct (Nat.eqb_spec (Workflow.currentStep w) 0) as [Hzero | Hpos].
  - destruct (handleFileProcess_import data) as [err | processed] eqn:Himport.
    + apply consistent_failed; try done.
      intros cols [= ->]. by apply import_never_still_missing in Himport.
    + destruct (import_ok_headers _ _ Himport) as [Hid Hmz].
      destruct Hw as (_ & _ & _ & _ & He1 & He2 & He3).
      unfold consistent. cbn. split_and!; try done; [lia | by repeat constructor |].
      exists processed, processed. split_and!; try done. apply aligned_refl.
  - destruct Hkind as [Hzero | Hkind]; [done |].
    pose proof Hw as (Hstep & Hlen & Hsome & Htables & He1 & He2 & He3).
    destruct (Workflow.currentStep w) as [| step] eqn:Hcur; [done |].
    destruct Htables as (net & merged & Hnet & Hmerged & Hhead & Hlast & Hid & Hmz & Hal).
    rewrite Hnet, Hmerged.
    destruct (handleFileProcess stepConfig (Some merged) (Some net) data)
      as [[final found] | err] eqn:Hmerge.
    + destruct (matching_steps _ _ Hconfig Hkind) as (Hmatch & Hnoid & Hnomz).
      pose proof (matching_rows_outside _ _ _ _ _ _ Hmerge Hmatch) as Hrows.
      assert (Hnext : Nat.ltb (S step) (length PROCESSING_STEPS - 1) = true).
      { apply Nat.ltb_lt. cbn. lia. }
      rewrite Hnext. unfold consistent. cbn [Workflow.currentStep Workflow.netTable
        Workflow.mergedData Workflow.dataHistory Workflow.reported].
      replace (S step + 1) with (S (S step)) by lia.
      split_and!; try done.
      * lia.
      * rewrite length_app, length_take, Hlen. cbn [length]. lia.
      * apply Forall_app. split; [by apply Forall_take | by repeat constructor].
      * exists net, final. split_and!; try done.
        -- apply head_take_app; [lia | done].
        -- by rewrite last_snoc.
        -- eapply aligned_step; [done |].
           eapply Forall2_impl; [exact Hrows |].
           intros b o Hout. split; by apply Hout.
    + apply consistent_failed; try done.
      intros [= ->]. by apply merge_missing_only in Hmerge.
Qed.

Lemma consistent_continue (w : Workflow.state) :
  consistent w -> Workflow.currentStep w = 1 -> consistent (Workflow.handleContinue w).
Proof.
  intros (Hstep & Hlen & Hsome & Htables & He1 & He2 & He3) Hcur.
  rewrite Hcur in *.
  destruct Htables as (net & merged & Hnet & Hmerged & Hhead & Hlast & Hid & Hmz & Hal).
  unfold consistent, Workflow.handleContinue. cbn.
  split_and!; try done.
  - lia.
  - rewrite length_app. cbn. lia.
  - apply Forall_app. split; [done |]. rewrite Hmerged. by repeat constructor.
  - exists net, merged. split_and!; try done.
    + destruct (Workflow.dataHistory w); [done | done].
    + by rewrite last_snoc, Hmerged.
Qed.

Lemma consistent_annotation (w : Workflow.state) :
  consistent w -> Workflow.currentStep w = 5 ->
  consistent (Workflow.handleGenerateAnnotation w).
Proof.
  intros Hw Hcur.
  pose proof Hw as (Hstep & Hlen & Hsome & Htables & He1 & He2 & He3).
  unfold Workflow.handleGenerateAnnotation. rewrite Hcur in *.
  destruct Htables as (net & merged & Hnet & Hmerged & Hhead & Hlast & Hid & Hmz & Hal).
  rewrite Hmerged.
  destruct (handleGenerateAnnotation (Some merged)) as [err | final] eqn:Hann.
  - assert (Herr : err <> NoDataToAnnotate).
    { intros ->. revert Hann. unfold handleGenerateAnnotation. by destruct (negb _). }
    destruct err as [| cols]; [done |].
    apply consistent_failed; done.
  - unfold consistent. cbn [Workflow.currentStep Workflow.netTable
      Workflow.mergedData Workflow.dataHistory Workflow.reported].
    cbn [Nat.add].
    split_and!; try done.
    + rewrite length_app, length_take, Hlen. cbn [length]. lia.
    + apply Forall_app. split; [by apply Forall_take | by repeat constructor].
    + exists net, final. split_and!; try done.
      * apply head_take_app; [lia | done].
      * by rewrite last_snoc.
      * eapply aligned_step; [done | by apply annotated_rows].
Qed.

Lemma idle_spec (w : Workflow.state) :
  Workflow.idle w = true <-> Workflow.awaiting w = [] /\ Workflow.loaders w = 0.
Proof.
  unfold Workflow.idle. rewrite andb_true_iff, !Nat.eqb_eq.
  split; intros [Ha Hl]; (split; [| done]).
  - by destruct (Workflow.awaiting w).
  - by rewrite Ha.
Qed.

Lemma one_reader_idle (w : Workflow.state) :
  Workflow.awaiting w = [] -> Workflow.loaders w = 0 -> one_reader w.
Proof.
  intros Hnone Hnoload. unfold one_reader, Workflow.idle. rewrite Hnone, Hnoload.
  cbn. split_and!; [done | lia | constructor].
Qed.

(** One step of a session in which no reset is confirmed while a file is
    being read. *)
Lemma consistent_dispatch (w : Workflow.state) (e : Workflow.event) :
  (e = Workflow.Reset -> Workflow.idle w = true) ->
  consistent w /\ one_reader w ->
  consistent (Workflow.dispatch w e) /\ one_reader (Workflow.dispatch w e).
Proof.
  intros Hcalm [Hw (Hdown & Hone & Hwait)]. unfold Workflow.dispatch.
  destruct (Workflow.enabled w e) eqn:Hen; [| done].
  destruct e as [| place parsed | | | | |]; cbn [Workflow.enabled] in Hen.
  - (* a file is chosen *)
    apply andb_prop in Hen as [Hflag Hcard]. apply negb_true_iff in Hflag.
    destruct (proj1 (idle_spec w) (Hdown Hflag)) as [Hnone Hnoload].
    assert (Hkind : Workflow.currentStep w = 0 \/ Workflow.currentStep w = 2 \/
                    Workflow.currentStep w = 3 \/ Workflow.currentStep w = 4).
    { destruct (Workflow.currentStep w) as [| [| [| [| [| n]]]]]; try done; lia. }
    unfold Workflow.handleFileProcess_call.
    destruct (PROCESSING_STEPS !! Workflow.currentStep w) as [stepConfig |];
      [| by split].
    split; [by eapply consistent_same; [.. | exact Hw] |].
    unfold one_reader.
    cbn [Workflow.isLoading Workflow.awaiting Workflow.loaders Workflow.currentStep
         Workflow.mergedData Workflow.netTable].
    rewrite Hnone, Hnoload. cbn [app length].
    split_and!; [done | lia |]. apply Forall_singleton. by split.
  - (* the parser settles *)
    apply bool_decide_eq_true in Hen as [c Hc]. unfold Workflow.settle. rewrite Hc.
    assert (Hlen : length (Workflow.awaiting w) = 1 /\ Workflow.loaders w = 0).
    { apply lookup_lt_Some in Hc. lia. }
    destruct Hlen as [Hlen Hnoload].
    destruct (Workflow.awaiting w) as [| c0 [| c1 rest]] eqn:Hawait; try done.
    destruct place as [| place]; [| done]. injection Hc as ->.
    apply Forall_singleton in Hwait as [-> Hkind].
    cbn [Workflow.c_currentStep] in Hkind. cbn [delete list_delete].
    set (w' := Workflow.mkState _ _ _ _ _ _ [] _ _).
    assert (Hw' : consistent w') by (by eapply consistent_same; [.. | exact Hw]).
    pose proof (consistent_resume w' parsed Hw' Hkind) as Hres.
    change (Workflow.mkClosure (Workflow.currentStep w') (Workflow.mergedData w')
              (Workflow.netTable w'))
      with (Workflow.mkClosure (Workflow.currentStep w) (Workflow.mergedData w)
              (Workflow.netTable w)) in Hres.
    split; [done |].
    unfold Workflow.handleFileProcess_resume, Workflow.failed.
    cbn [Workflow.c_currentStep].
    destruct (PROCESSING_STEPS !! Workflow.currentStep w) as [stepConfig |] eqn:Hconfig.
    + destruct parsed as [data |]; [| by apply one_reader_idle].
      destruct (Nat.eqb (Workflow.currentStep w) 0).
      * destruct (handleFileProcess_import data); by apply one_reader_idle.
      * destruct (handleFileProcess _ _ _ data) as [[final found] |];
          by apply one_reader_idle.
    + exfalso. destruct Hkind as [Hk | [Hk | [Hk | Hk]]]; by rewrite Hk in Hconfig.
  - (* continue *)
    apply andb_prop in Hen as [Hflag Hcur]. apply negb_true_iff in Hflag.
    apply Nat.eqb_eq in Hcur.
    destruct (proj1 (idle_spec w) (Hdown Hflag)) as [Hnone Hnoload].
    split; [by apply consistent_continue |].
    by apply one_reader_idle.
  - (* annotation *)
    apply andb_prop in Hen as [Hflag Hcur]. apply negb_true_iff in Hflag.
    apply Nat.eqb_eq in Hcur.
    destruct (proj1 (idle_spec w) (Hdown Hflag)) as [Hnone Hnoload].
    split; [by apply consistent_annotation |].
    unfold Workflow.handleGenerateAnnotation.
    destruct (handleGenerateAnnotation (Workflow.mergedData w)) as [[| cols] | final];
      by apply one_reader_idle.
  - (* reset *)
    destruct (proj1 (idle_spec w) (Hcalm eq_refl)) as [Hnone Hnoload].
    destruct Hw as (_ & _ & _ & _ & He1 & He2 & He3). split.
    + unfold consistent, Workflow.handleReset. cbn.
      split_and!; try done; try lia; constructor.
    + by apply one_reader_idle.
  - (* a loader starts *)
    apply negb_true_iff in Hen.
    destruct (proj1 (idle_spec w) (Hdown Hen)) as [Hnone Hnoload].
    split; [by eapply consistent_same; [.. | exact Hw] |].
    unfold one_reader, Workflow.loader_call. cbn. rewrite Hnone, Hnoload. cbn.
    by split_and!.
  - (* the parser settles for a loader *)
    apply Nat.ltb_lt in Hen.
    split; [by eapply consistent_same; [.. | exact Hw] |].
    assert (Hnone : Workflow.awaiting w = []).
    { destruct (Workflow.awaiting w); [done | cbn in Hone; lia]. }
    apply one_reader_idle; [done |]. rewrite Hnone in Hone. cbn in *. lia.
Qed.

Lemma consistent_run_from (events : list Workflow.event) (w : Workflow.state) :
  Workflow.calm_from w events = true ->
  consistent w /\ one_reader w ->
  consistent (fold_left Workflow.dispatch events w) /\
  one_reader (fold_left Workflow.dispatch events w).
Proof.
  revert w. induction events as [| e events IH]; intros w Hcalm Hw; [done |].
  cbn [fold_left Workflow.calm_from] in *. apply andb_prop in Hcalm as [Hhere Hrest].
  apply IH; [done |]. apply consistent_dispatch; [| done]. by intros ->.
Qed.

Lemma consistent_run (events : list Workflow.event) :
  Workflow.calm events = true ->
  consistent (Workflow.run events) /\ one_reader (Workflow.run events).
Proof.
  intros Hcalm. apply consistent_run_from; [done |]. split.
  - apply consistent_initial.
  - unfold one_reader. cbn. split_and!; [done | lia | constructor].
Qed.
End WorkflowFacts.

Section WorkflowTheorems.
Context `{JSHost}.

Lemma history_lookup (w : Workflow.state) (stepIndex : nat) :
  Forall is_Some (Workflow.dataHistory w) ->
  stepIndex < length (Workflow.dataHistory w) ->
  exists data, Workflow.dataHistory w !! stepIndex = Some (Some data) /\
               Workflow.handleStepDownload w stepIndex = Some data.
Proof.
  intros Hsome Hlt. unfold Workflow.handleStepDownload.
  destruct (lookup_lt_is_Some_2 _ _ Hlt) as [entry Hentry].
  rewrite Forall_forall in Hsome.
  destruct (Hsome entry) as [data ->]; [by eapply list_elem_of_lookup_2 |].
  exists data. by rewrite Hentry.
Qed.

(** X21: in a session in which the reset is never confirmed while a file
    is being read, whatever else happens (files chosen, the parser settling
    with a table or a rejection, the buttons, the uploads of the tools), at
    most one call awaits the parser, and the flag is up while it does; the
    workflow stays within its six steps and keeps one table per finished
    step: every finished step can be downloaded, the first of these tables
    is the net table and the last the merged table. Both tables exist as
    soon as the first step is done, so the merge never reports lost base
    data, the annotation never missing data, and the check made after the
    import never fails. *)
Theorem workflow_history (events : list Workflow.event)
    (Hcalm : Workflow.calm events = true) :
  let w := Workflow.run events in
  length (Workflow.awaiting w) + Workflow.loaders w <= 1 /\
  (Workflow.isLoading w = false ->
   Workflow.awaiting w = [] /\ Workflow.loaders w = 0) /\
  Workflow.currentStep w <= 6 /\
  length (Workflow.dataHistory w) = Workflow.currentStep w /\
  (forall stepIndex, stepIndex < Workflow.currentStep w ->
                     is_Some (Workflow.handleStepDownload w stepIndex)) /\
  (Workflow.currentStep w = 0 ->
   Workflow.netTable w = None /\ Workflow.mergedData w = None) /\
  (1 <= Workflow.currentStep w ->
   exists net merged,
     Workflow.netTable w = Some net /\ Workflow.mergedData w = Some merged /\
     Workflow.handleStepDownload w 0 = Some net /\
     Workflow.handleStepDownload w (Workflow.currentStep w - 1) = Some merged) /\
  (Workflow.MergeFailed BaseDataLost ∉ Workflow.reported w) /\
  (Workflow.AnnotateFailed NoDataToAnnotate ∉ Workflow.reported w) /\
  (forall cols, Workflow.ImportFailed (StillMissingColumns cols) ∉ Workflow.reported w).
Proof.
  intros w.
  destruct (consistent_run events Hcalm)
    as [(Hstep & Hlen & Hsome & Htables & Herr) (Hdown & Hone & _)].
  fold w in Hstep, Hlen, Hsome, Htables, Herr, Hdown, Hone.
  split_and!; try done; try apply Herr.
  - intros Hflag. by apply idle_spec, Hdown.
  - intros stepIndex Hlt.
    destruct (history_lookup w stepIndex) as (data & _ & ->); [done | lia | done].
  - intros Hzero. by rewrite Hzero in Htables.
  - intros Hpos. destruct (Workflow.currentStep w) as [| step] eqn:Hcur; [lia |].
    destruct Htables as (net & merged & Hnet & Hmerged & Hhead & Hlast & _).
    exists net, merged. split_and!; try done.
    + unfold Workflow.handleStepDownload. rewrite <- head_lookup. by rewrite Hhead.
    + unfold Workflow.handleStepDownload. rewrite last_lookup in Hlast.
      rewrite Hlen in Hlast. cbn [pred] in Hlast.
      replace (S step - 1) with step by lia. by rewrite Hlast.
Qed.

(** X22: in a session in which the reset is never confirmed while a file
    is being read, the merged table has one row per row of the net table,
    with the identifier and the mass of that row: the steps change
    neither. So the mass that the tolerance merge reads in the net table at
    the index of a base row is the mass of the base row itself. The net
    table has the headers [ID] and [MZ]. A call that awaits the parser holds
    these same two tables. *)
Theorem workflow_alignment (events : list Workflow.event)
    (Hcalm : Workflow.calm events = true) :
  let w := Workflow.run events in
  let read (T : TableData) (index : nat) (key : string) : option cell :=
    match rows T !! index with
    | Some row => row !! key
    | None => None
    end in
  match Workflow.netTable w, Workflow.mergedData w with
  | Some net, Some merged =>
      "ID" ∈ headers net /\ "MZ" ∈ headers net /\
      length (rows merged) = length (rows net) /\
      forall index,
        read net index "MZ" = read merged index "MZ" /\
        read net index "ID" = read merged index "ID"
  | _, _ => Workflow.currentStep w = 0
  end /\
  Forall (fun c => Workflow.c_netTable c = Workflow.netTable w /\
                   Workflow.c_mergedData c = Workflow.mergedData w)
    (Workflow.awaiting w).
Proof.
  intros w read.
  destruct (consistent_run events Hcalm) as [(_ & _ & _ & Htables & _) (_ & _ & Hwait)].
  fold w in Htables, Hwait. split.
  - destruct (Workflow.currentStep w) as [| step] eqn:Hcur.
    + destruct Htables as [Hnet Hmerged]. by rewrite Hnet.
    + destruct Htables as (net & merged & Hnet & Hmerged & _ & _ & Hid & Hmz & Hal).
      rewrite Hnet, Hmerged. split_and!; try done.
      * symmetry. by eapply Forall2_length.
      * intros index. unfold read, aligned in *.
        destruct (rows net !! index) as [n |] eqn:Hn.
        -- destruct (Forall2_lookup_l _ _ _ _ _ Hal Hn) as (m & -> & [Hi Hm]). done.
        -- assert (Hnone : rows merged !! index = None).
           { apply lookup_ge_None. rewrite <- (Forall2_length _ _ _ Hal).
             by apply lookup_ge_None. }
           by rewrite Hnone.
  - eapply Forall_impl; [done |]. by intros c [-> _].
Qed.
End WorkflowTheorems.

Lemma workflow_history_witness :
  let w := Workflow.run session_ex in
  length (Workflow.awaiting w) + Workflow.loaders w <= 1 /\
  (Workflow.isLoading w = false ->
   Workflow.awaiting w = [] /\ Workflow.loaders w = 0) /\
  Workflow.currentStep w <= 6 /\
  length (Workflow.dataHistory w) = Workflow.currentStep w /\
  (forall stepIndex, stepIndex < Workflow.currentStep w ->
                     is_Some (Workflow.handleStepDownload w stepIndex)) /\
  (Workflow.currentStep w = 0 ->
   Workflow.netTable w = None /\ Workflow.mergedData w = None) /\
  (1 <= Workflow.currentStep w ->
   exists net merged,
     Workflow.netTable w = Some net /\ Workflow.mergedData w = Some merged /\
     Workflow.handleStepDownload w 0 = Some net /\
     Workflow.handleStepDownload w (Workflow.currentStep w - 1) = Some merged) /\
  (Workflow.MergeFailed BaseDataLost ∉ Workflow.reported w) /\
  (Workflow.AnnotateFailed NoDataToAnnotate ∉ Workflow.reported w) /\
  (forall cols, Workflow.ImportFailed (StillMissingColumns cols) ∉ Workflow.reported w).
Proof.
  apply (workflow_history session_ex). vm_compute. reflexivity.
Defined.

Lemma workflow_alignment_witness :
  let w := Workflow.run (take 9 steps_ex) in
  let read (T : TableData) (index : nat) (key : string) : option cell :=
    match rows T !! index with
    | Some row => row !! key
    | None => None
    end in
  match Workflow.netTable w, Workflow.mergedData w with
  | Some net, Some merged =>
      "ID" ∈ headers net /\ "MZ" ∈ headers net /\
      length (rows merged) = length (rows net) /\
      forall index,
        read net index "MZ" = read merged index "MZ" /\
        read net index "ID" = read merged index "ID"
  | _, _ => Workflow.currentStep w = 0
  end /\
  Forall (fun c => Workflow.c_netTable c = Workflow.netTable w /\
                   Workflow.c_mergedData c = Workflow.mergedData w)
    (Workflow.awaiting w).
Proof.
  apply (workflow_alignment (take 9 steps_ex)). vm_compute. reflexivity.
Defined.

(** The session of the example: a file without [ID] is refused on the
    third step and a file that cannot be parsed on the fifth, the state
    staying where it was; in the end the six steps are done, the one key
    unmatched on the third step is kept, and the rows are annotated. *)
Example workflow_run :
  let w := Workflow.run session_ex in
  Workflow.calm session_ex = true /\
  Workflow.currentStep w = 6 /\
  length (Workflow.dataHistory w) = 6 /\
  Workflow.isLoading w = false /\
  Workflow.reported w =
    [Workflow.MergeFailed (MissingColumns ["ID"]); Workflow.ParseFailed] /\
  map_to_list (Workflow.allUnmatched w) = [(2, [CStr "99"])] /\
  option_map (fun T => map (fun row : TableRow =>
                              (row !! "Final_Annotation", row !! "InChI")) (rows T))
    (Workflow.mergedData w) =
    Some [(Some (CStr "Caffeine"), None);
          (Some (CStr "Glucose"), Some (CStr "InChI=1S/C6H12O6"));
          (Some (CStr EmptyString), None)].
Proof. vm_compute. repeat split; reflexivity. Qed.

(** Why the reset must wait: confirmed while the file of the third step is
    being read, it is followed by the end of that call, which writes the
    fourth step and its merged table on the variables just set back. The
    net table is then missing, the history is one table long, and the next
    upload reports that the base data is lost. *)
Example reset_while_reading :
  let w := Workflow.run hasty_session_ex in
  Workflow.calm hasty_session_ex = false /\
  Workflow.currentStep w = 3 /\
  Workflow.netTable w = None /\
  length (Workflow.dataHistory w) = 1 /\
  Workflow.reported
    (Workflow.run (hasty_session_ex ++
                   [Workflow.ChooseFile; Workflow.ParserSettles 0 (Some sirius_upload_ex)])) =
    [Workflow.MergeFailed BaseDataLost].
Proof. vm_compute. repeat split; reflexivity. Qed.

(** ** The two tools *)

Section ToolsFacts.
Context `{JSHost}.

Lemma tools_consistent_initial : tools_consistent Tools.initial.
Proof. unfold tools_consistent. cbn. split; [by left | done]. Qed.

Lemma tools_consistent_with_error (w : Tools.state) (e : option Tools.failure) :
  tools_consistent w -> tools_consistent (Tools.with_error w e).
Proof. done. Qed.

Lemma tools_consistent_with_list (w : Tools.state) (names : gset string)
    (e : option Tools.failure) :
  tools_consistent w -> tools_consistent (Tools.with_list w names e).
Proof. done. Qed.

(** Every enabled control keeps the state of the tools consistent. *)
Lemma tools_consistent_dispatch (w : Tools.state) (e : Tools.event) :
  tools_consistent w -> tools_consistent (Tools.dispatch w e).
Proof.
  intros Hw. pose proof Hw as [Hderep Hfilter]. unfold Tools.dispatch.
  destruct (Tools.enabled w e) eqn:Hen; [| done].
  destruct e as [parsed | mergedData | | | | parsed | parsed | text | |].
  - unfold Tools.handleDereplicationFileProcess.
    destruct parsed as [data |]; [| done].
    destruct (_ || _); [done |]. split; [by left | done].
  - unfold Tools.handleUseWorkflowDataForDereplication.
    destruct mergedData as [merged |]; [| done]. split; [by left | done].
  - cbn in Hen. apply andb_prop in Hen as [Hflag Hdata].
    apply negb_true_iff in Hflag.
    unfold Tools.handleDereplication.
    destruct (Tools.dereplicationData w) as [data |] eqn:Hd; [| done].
    destruct (handleDereplication (Some data)) as [result | err] eqn:Hrun.
    + split; [| done]. cbn. by exists data, result.
    + split; [| done]. cbn. rewrite Hflag. by right.
  - cbn in Hen. rewrite Hen in Hderep.
    destruct Hderep as (before & result & Hbefore & Hresult & Hrun).
    unfold Tools.handleUndoDereplication. rewrite Hbefore.
    split; [by left | done].
  - unfold Tools.handleLoadDataForFiltering.
    destruct (handleLoadDataForFiltering (Tools.dereplicationData w)); [| done].
    split; [done | done].
  - unfold Tools.handleFilterFileProcess.
    destruct parsed as [data |]; [| done].
    destruct (negb _); [done |]. split; [done | done].
  - unfold Tools.handleContaminantFileProcess.
    destruct parsed as [data |]; [| done].
    by destruct (handleContaminantFileProcess data).
  - unfold Tools.handleProcessPastedList.
    by destruct (handleProcessPastedList text).
  - unfold Tools.handleApplyFilter.
    destruct (handleApplyFilter (Tools.filterToolData w) (Tools.contaminantList w))
      as [result | err] eqn:Hrun; [| by apply tools_consistent_with_error].
    split; [done |]. cbn.
    destruct (Tools.filterToolData w) as [data |]; [| done].
    destruct (Tools.contaminantList w) as [names |]; [| done].
    by exists data, names, result.
  - cbn in Hen. rewrite Hen in Hfilter.
    destruct Hfilter as (before & names & result & Hbefore & Hresult & Hrun).
    unfold Tools.handleUndoFilter. rewrite Hbefore. split; [done | done].
Qed.

Lemma tools_consistent_run (events : list Tools.event) :
  tools_consistent (Tools.run events).
Proof.
  unfold Tools.run. generalize tools_consistent_initial. generalize Tools.initial.
  induction events as [| e events IH]; intros w Hw; [done |].
  cbn [fold_left]. by apply IH, tools_consistent_dispatch.
Qed.

Lemma undo_dereplication_applied (w : Tools.state) (before : TableData) :
  Tools.isDereplicated w = true -> Tools.dataBeforeDereplication w = Some before ->
  Tools.dispatch w Tools.UndoDereplication =
  Tools.with_dereplication w (Some before) None false (Tools.error w).
Proof.
  intros Hflag Hbefore. unfold Tools.dispatch. cbn [Tools.enabled]. rewrite Hflag.
  unfold Tools.handleUndoDereplication. by rewrite Hbefore.
Qed.

Lemma undo_filter_applied (w : Tools.state) (before : TableData) :
  Tools.isFiltered w = true -> Tools.dataBeforeFilter w = Some before ->
  Tools.dispatch w Tools.UndoFilter =
  Tools.with_filter w (Some before) None false (Tools.error w).
Proof.
  intros Hflag Hbefore. unfold Tools.dispatch. cbn [Tools.enabled]. rewrite Hflag.
  unfold Tools.handleUndoFilter. by rewrite Hbefore.
Qed.

(** X23: in the two tools, whatever the user does with the controls
    that are shown, undo gives back the table the operation was applied to.
    While an operation is applied, the table shown is the result of the
    operation on the table kept, undo shows the table kept again and clears
    the flag, and a second undo changes nothing. While it is not applied,
    undo changes nothing, and the hand-over from dereplication to the filter
    is not offered. *)
Theorem tools_undo (events : list Tools.event) :
  let w := Tools.run events in
  (Tools.isDereplicated w = true ->
   exists before result,
     Tools.dereplicationData w = Some result /\
     handleDereplication (Some before) = Ok result /\
     Tools.dereplicationData (Tools.dispatch w Tools.UndoDereplication) = Some before /\
     Tools.isDereplicated (Tools.dispatch w Tools.UndoDereplication) = false /\
     Tools.dispatch (Tools.dispatch w Tools.UndoDereplication) Tools.UndoDereplication =
       Tools.dispatch w Tools.UndoDereplication) /\
  (Tools.isFiltered w = true ->
   exists before names result,
     Tools.filterToolData w = Some result /\
     handleApplyFilter (Some before) (Some names) = Ok result /\
     Tools.filterToolData (Tools.dispatch w Tools.UndoFilter) = Some before /\
     Tools.isFiltered (Tools.dispatch w Tools.UndoFilter) = false /\
     Tools.dispatch (Tools.dispatch w Tools.UndoFilter) Tools.UndoFilter =
       Tools.dispatch w Tools.UndoFilter) /\
  (Tools.isDereplicated w = false ->
   Tools.dispatch w Tools.UndoDereplication = w /\
   Tools.dispatch w Tools.LoadDataForFiltering = w) /\
  (Tools.isFiltered w = false -> Tools.dispatch w Tools.UndoFilter = w).
Proof.
  intros w. destruct (tools_consistent_run events) as [Hderep Hfilter].
  fold w in Hderep, Hfilter. split_and!.
  - intros Hflag. rewrite Hflag in Hderep.
    destruct Hderep as (before & result & Hbefore & Hresult & Hrun).
    exists before, result.
    rewrite (undo_dereplication_applied w before) by done.
    split_and!; try done.
  - intros Hflag. rewrite Hflag in Hfilter.
    destruct Hfilter as (before & names & result & Hbefore & Hresult & Hrun).
    exists before, names, result.
    rewrite (undo_filter_applied w before) by done.
    split_and!; try done.
  - intros Hflag. unfold Tools.dispatch. cbn [Tools.enabled]. by rewrite Hflag.
  - intros Hflag. unfold Tools.dispatch. cbn [Tools.enabled]. by rewrite Hflag.
Qed.
End ToolsFacts.

(** The session of the example: the first undo does nothing; after the
    filter the table has two rows, and the second press on the filter button
    does nothing; the two undos give back the three retained rows and the
    table as it was loaded. *)
Example tools_run :
  let filtered := Tools.run (take 7 tools_session_ex) in
  let undone := Tools.run tools_session_ex in
  option_map (fun T => length (rows T)) (Tools.filterToolData filtered) = Some 2 /\
  Tools.isFiltered filtered = true /\
  Tools.run (take 6 tools_session_ex) = filtered /\
  option_map (fun T => length (rows T)) (Tools.filterToolData undone) = Some 3 /\
  Tools.dereplicationData undone = Some interleaved_table /\
  Tools.isFiltered undone = false /\ Tools.isDereplicated undone = false.
Proof. vm_compute. repeat split; reflexivity. Qed.
